(** * IIB: build-request models and worker utilities

    A shallow embedding of [iib/web/models.py] and [iib/workers/tasks/utils.py]
    together with the properties of the request state machine, the image
    catalog, request construction, the retry decorator and the command
    runner.

    Python [str] values are represented by [string] holding their UTF-8
    encoding.  The only characters the sources inspect one by one (['@'],
    [':'], ['.'], the line boundaries) are handled on that encoding. *)

From Stdlib Require Import ZArith String Ascii List Bool Lia.
From stdpp Require Import base option list strings gmap pretty sorting.
From Equations Require Import Equations.

Local Open Scope string_scope.
Local Open Scope list_scope.
Local Open Scope Z_scope.

#[local] Set Warnings "-clear-no-such-hyp".

(** ** Python strings *)

(** [sub in s] for strings: [sub] occurs in [s] as a contiguous run. *)
Fixpoint str_in (sub s : string) : bool :=
  String.prefix sub s ||
  match s with
  | EmptyString => false
  | String _ s' => str_in sub s'
  end.

(** [sep.join(items)]. *)
Fixpoint str_join (sep : string) (items : list string) : string :=
  match items with
  | [] => ""
  | [x] => x
  | x :: rest => x +:+ sep +:+ str_join sep rest
  end.

(** ** Exceptions

    [ValidationError] and [IIBError] come from [iib.exceptions],
    [IntegrityError] and its base classes from [sqlalchemy.exc]; the others
    are Python built-ins.  [issubclass] is the class hierarchy used by
    [except] clauses. *)

Inductive exn_class :=
  | BaseException
  | Exception
  | LookupError
  | KeyError
  | IndexError
  | AttributeError
  | ValueError
  | ReferenceError
  | TypeError
  | IIBError
  | ValidationError
  | SQLAlchemyError
  | StatementError
  | DBAPIError
  | DatabaseError
  | IntegrityError.

Global Instance exn_class_eq_dec : EqDecision exn_class.
Proof. solve_decision. Defined.

Definition base_class (c : exn_class) : option exn_class :=
  match c with
  | BaseException => None
  | Exception => Some BaseException
  | KeyError | IndexError => Some LookupError
  | StatementError => Some SQLAlchemyError
  | DBAPIError => Some StatementError
  | DatabaseError => Some DBAPIError
  | IntegrityError => Some DatabaseError
  | _ => Some Exception
  end.

(** The class [c] and its base classes, nearest first; [fuel] bounds the
    walk, and eight steps reach [BaseException] from every class. *)
Fixpoint bases (fuel : nat) (c : exn_class) : list exn_class :=
  c :: match fuel, base_class c with
       | S n, Some p => bases n p
       | _, _ => []
       end.

Definition issubclass (c d : exn_class) : bool := bool_decide (d ∈ bases 8 c).

Record exn := Exn { exn_cls : exn_class; exn_msg : string }.

Global Instance exn_eq_dec : EqDecision exn.
Proof. solve_decision. Defined.

Definition isinstance (e : exn) (c : exn_class) : bool := issubclass (exn_cls e) c.

(** ** Computations with state and exceptions

    A Python statement sequence over a mutable store [St]: it either returns
    a value or raises, and in both cases leaves a store behind (nothing is
    rolled back when an exception propagates). *)

Inductive outcome (A : Type) :=
  | Return (a : A)
  | Raise (e : exn).
Arguments Return {A} a.
Arguments Raise {A} e.

Definition M (St A : Type) : Type := St → outcome A * St.

Definition ret {St A} (a : A) : M St A := λ s, (Return a, s).
Definition raise {St A} (e : exn) : M St A := λ s, (Raise e, s).
Definition bind {St A B} (m : M St A) (k : A → M St B) : M St B :=
  λ s, match m s with
       | (Return a, s') => k a s'
       | (Raise e, s') => (Raise e, s')
       end.
Definition get {St} : M St St := λ s, (Return s, s).
Definition put {St} (s : St) : M St unit := λ _, (Return tt, s).
Definition modify {St} (f : St → St) : M St unit := λ s, (Return tt, f s).

Global Instance M_ret {St} : MRet (M St) := @ret St.
Global Instance M_bind {St} : MBind (M St) := λ A B k m, bind m k.

(** [if b: m]. *)
Definition when_ {St} (b : bool) (m : M St unit) : M St unit :=
  if b then m else mret tt.

(** [for x in xs: body x], stopping at the first exception. *)
Fixpoint for_each {St A} (body : A → M St unit) (xs : list A) : M St unit :=
  match xs with
  | [] => ret tt
  | x :: rest => body x ;; for_each body rest
  end.

(** [[f x for x in xs]]. *)
Fixpoint list_comp {St A B} (f : A → M St B) (xs : list A) : M St (list B) :=
  match xs with
  | [] => ret []
  | x :: rest => y ← f x; ys ← list_comp f rest; ret (y :: ys)
  end.

(** ** Enumerations *)

(** [RequestStateMapping]: [in_progress = 1], [complete = 2], [failed = 3]. *)
Module RequestStateMapping.
Inductive t := in_progress | complete | failed.

Global Instance eq_dec : EqDecision t.
Proof. solve_decision. Defined.

Definition value (e : t) : Z :=
  match e with in_progress => 1 | complete => 2 | failed => 3 end.

Definition name (e : t) : string :=
  match e with
  | in_progress => "in_progress"
  | complete => "complete"
  | failed => "failed"
  end.

(** Definition order, as iterating over the class yields it. *)
Definition members : list t := [in_progress; complete; failed].

(** [RequestStateMapping.__members__[n]]; [None] stands for [KeyError]. *)
Definition by_name (n : string) : option t :=
  snd <$> list_find (λ e, name e = n) members.

(** [RequestStateMapping(v)]; [None] stands for [ValueError]. *)
Definition by_value (v : Z) : option t :=
  snd <$> list_find (λ e, value e = v) members.

(** [get_names]: [sorted([e.name for e in cls])]. *)
Definition get_names : list string := ["complete"; "failed"; "in_progress"].
End RequestStateMapping.

(** [RequestTypeMapping]: [add = 1], [rm = 2]. *)
Module RequestTypeMapping.
Inductive t := add | rm.

Definition value (e : t) : Z := match e with add => 1 | rm => 2 end.
Definition name (e : t) : string := match e with add => "add" | rm => "rm" end.
End RequestTypeMapping.

(** ** Timestamps *)

(** A naive [datetime.datetime] (no time zone). *)
Record datetime := Datetime {
  year : nat; month : nat; day : nat;
  hour : nat; minute : nat; second : nat; microsecond : nat
}.

Global Instance datetime_eq_dec : EqDecision datetime.
Proof. solve_decision. Defined.

(** ** Model objects

    Objects live in per-class heaps of the session; a reference to an object
    is its index in the heap, which plays the role of Python object identity.
    The primary key [id] is [None] until the object has been flushed.

    SQLAlchemy loads the many-to-one relationship [Request.state] from the
    column [request_state_id] when it is first read on a flushed object, and
    the object then holds the loaded value until it is expired (by a commit,
    which these sources never issue); assigning the column does not refresh
    it.  A value loaded from the present column reads as a load would, so
    the object records only a value that was loaded before the column was
    last assigned: [state_held] is [Some v] when the relationship holds [v]
    from such a load, and [None] when reading the relationship gives what
    [request_state_id] designates. *)

Module Architecture.
Record t := mk { id : option Z; name : string }.
End Architecture.

Module Image.
Record t := mk {
  id : option Z;
  pull_specification : string;
  architectures : list nat              (* references to Architecture objects *)
}.
Definition set_id (k : Z) (o : t) : t :=
  mk (Some k) (pull_specification o) (architectures o).
End Image.

Module RequestState.
Record t := mk {
  id : option Z;
  request_id : option Z;
  state : Z;
  state_reason : string;
  updated : option datetime;
  request : option nat                  (* back-reference to the Request object *)
}.
Definition set_request (r : nat) (o : t) : t :=
  mk (id o) (request_id o) (state o) (state_reason o) (updated o) (Some r).
End RequestState.

Module User.
Record t := mk { id : option Z; username : string }.
End User.

Module Request.
Record t := mk {
  id : option Z;
  binary_image : option nat;            (* references to Image objects *)
  binary_image_resolved : option nat;
  bundles : list nat;
  from_index : option nat;
  from_index_resolved : option nat;
  index_image : option nat;
  request_state_id : option Z;
  type : option Z;
  user : option User.t;
  states : list nat;                    (* references to RequestState objects *)
  state_held : option (option nat)      (* the relationship [state], when stale *)
}.
Definition set_id (k : Z) (o : t) : t :=
  mk (Some k) (binary_image o) (binary_image_resolved o) (bundles o) (from_index o)
     (from_index_resolved o) (index_image o) (request_state_id o) (type o) (user o)
     (states o) (state_held o).
(** [self.request_state_id = k] on an object whose relationship [state]
    holds [held]. *)
Definition set_request_state_id (k : option Z) (held : option (option nat)) (o : t) : t :=
  mk (id o) (binary_image o) (binary_image_resolved o) (bundles o) (from_index o)
     (from_index_resolved o) (index_image o) k (type o) (user o) (states o) held.
Definition set_states (l : list nat) (o : t) : t :=
  mk (id o) (binary_image o) (binary_image_resolved o) (bundles o) (from_index o)
     (from_index_resolved o) (index_image o) (request_state_id o) (type o) (user o) l
     (state_held o).
End Request.

Global Instance Image_eq_dec : EqDecision Image.t.
Proof. solve_decision. Defined.
Global Instance RequestState_eq_dec : EqDecision RequestState.t.
Proof. solve_decision. Defined.
Global Instance User_eq_dec : EqDecision User.t.
Proof. solve_decision. Defined.
Global Instance Request_eq_dec : EqDecision Request.t.
Proof. solve_decision. Defined.

(** ** The database session *)

(** Modelled from the spec: the object [db] of [iib.web], with its session and
    its configuration, is not among these sources.  As the spec has it, a
    lookup finds the records that are staged in the session as well as the
    committed ones: the session flushes before it queries (autoflush, the
    default of [db = SQLAlchemy()]).

    Each heap holds the objects of one mapped class that the session knows:
    the rows already flushed (with a primary key) and the pending objects
    (without one).  In these sources every object that is constructed is
    handed to the session, by [db.session.add] or by the save-update cascade
    of a relationship, before the next flush; the model therefore registers
    an object when it is constructed.

    A flush writes the objects of the session to the database, which
    enforces the constraints that the model classes declare ([writable]): a
    flush of a session that violates one raises [IntegrityError] and writes
    nothing.  The flush that the load of a relationship triggers is not
    represented: the relationships of an object are read from the session as
    it is. *)
Record Session := mkSession {
  architecture_objs : list Architecture.t;
  image_objs : list Image.t;
  request_objs : list Request.t;
  request_state_objs : list RequestState.t;
  architecture_seq : Z;                   (* next primary keys *)
  image_seq : Z;
  request_seq : Z;
  request_state_seq : Z;
  now : datetime                          (* value of [func.now()] *)
}.

Definition set_image_objs (l : list Image.t) (s : Session) : Session :=
  mkSession (architecture_objs s) l (request_objs s) (request_state_objs s)
            (architecture_seq s) (image_seq s) (request_seq s) (request_state_seq s) (now s).
Definition set_request_objs (l : list Request.t) (s : Session) : Session :=
  mkSession (architecture_objs s) (image_objs s) l (request_state_objs s)
            (architecture_seq s) (image_seq s) (request_seq s) (request_state_seq s) (now s).
Definition set_request_state_objs (l : list RequestState.t) (s : Session) : Session :=
  mkSession (architecture_objs s) (image_objs s) (request_objs s) l
            (architecture_seq s) (image_seq s) (request_seq s) (request_state_seq s) (now s).

Section insert_rows.
Context {A : Type} (pk : A → option Z) (insert : Z → A → A).

(** INSERT of the pending objects of one table, in the order in which they
    were registered; [insert k o] is [o] as the database stores it under
    the fresh key [k]. *)
Fixpoint insert_rows (objs : list A) (seq : Z) : list A * Z :=
  match objs with
  | [] => ([], seq)
  | o :: rest =>
      match pk o with
      | Some _ => let r := insert_rows rest seq in (o :: r.1, r.2)
      | None => let r := insert_rows rest (seq + 1) in (insert seq o :: r.1, r.2)
      end
  end.
End insert_rows.

Definition Architecture_insert (k : Z) (o : Architecture.t) : Architecture.t :=
  Architecture.mk (Some k) (Architecture.name o).

(** A RequestState row receives its key, the key of the request that owns it
    and, when [updated] was not set, the column default [func.now()]. *)
Definition RequestState_insert (reqs : list Request.t) (t : datetime)
    (k : Z) (o : RequestState.t) : RequestState.t :=
  RequestState.mk (Some k)
    (r ← RequestState.request o; q ← reqs !! r; Request.id q)
    (RequestState.state o) (RequestState.state_reason o)
    (Some (default t (RequestState.updated o)))
    (RequestState.request o).

(** What a successful flush leaves: every pending object has received its
    primary key. *)
Definition flushed (s : Session) : Session :=
  let archs := insert_rows Architecture.id Architecture_insert
                 (architecture_objs s) (architecture_seq s) in
  let imgs := insert_rows Image.id Image.set_id (image_objs s) (image_seq s) in
  let reqs := insert_rows Request.id Request.set_id (request_objs s) (request_seq s) in
  let sts := insert_rows RequestState.id (RequestState_insert reqs.1 (now s))
               (request_state_objs s) (request_state_seq s) in
  mkSession archs.1 imgs.1 reqs.1 sts.1 archs.2 imgs.2 reqs.2 sts.2 (now s).

(** The constraints declared by the model classes: [Architecture.name] and
    [Image.pull_specification] are unique; the primary keys of the
    association tables [image_architecture] and [request_bundle] allow an
    architecture once per image and an image once among the bundles of a
    request; [Request.binary_image_id], [Request.type] and
    [RequestState.request_id] are not nullable; [Request.request_state_id] is
    unique.  Foreign keys need no check: they are written from references to
    objects of the session, but for [request_state_id], which [add_state]
    sets to the key of a row that it has just flushed. *)
Definition Request_writable (o : Request.t) : Prop :=
  is_Some (Request.binary_image o) ∧ is_Some (Request.type o) ∧ NoDup (Request.bundles o).

Definition writable (s : Session) : Prop :=
  NoDup (Architecture.name <$> architecture_objs s) ∧
  NoDup (Image.pull_specification <$> image_objs s) ∧
  Forall (λ o, NoDup (Image.architectures o)) (image_objs s) ∧
  Forall Request_writable (request_objs s) ∧
  NoDup (omap Request.request_state_id (request_objs s)) ∧
  Forall (λ o, is_Some (RequestState.request o)) (request_state_objs s).

Global Instance Request_writable_dec (o : Request.t) : Decision (Request_writable o).
Proof. unfold Request_writable. apply _. Defined.

Global Instance writable_dec (s : Session) : Decision (writable s).
Proof. unfold writable. apply _. Defined.

(** [db.session.flush()]. *)
Definition Session_flush : M Session unit :=
  s ← get;
  if bool_decide (writable s) then put (flushed s)
  else raise (Exn IntegrityError "constraint failed").

(** [Image(pull_specification=...)] followed by [db.session.add(image)]. *)
Definition Session_add_image (o : Image.t) : M Session nat :=
  s ← get;
  put (set_image_objs (image_objs s ++ [o]) s);;
  mret (length (image_objs s)).

(** [Image.query.filter_by(pull_specification=...).first()]: the query
    flushes the session first (autoflush), then selects. *)
Definition Image_query_first (pull_specification : string) : M Session (option nat) :=
  Session_flush;;
  s ← get;
  mret (fst <$> list_find (λ o, Image.pull_specification o = pull_specification)
                          (image_objs s)).

(** ** [Image.get_or_create] *)

Definition Image_get_or_create (pull_specification : string) : M Session nat :=
  if negb (str_in "@" pull_specification) && negb (str_in ":" pull_specification) then
    raise (Exn ValidationError
             ("Image " +:+ pull_specification +:+
              " should have a tag or a digest specified."))
  else
    image ← Image_query_first pull_specification;
    match image with
    | Some r => mret r
    | None => Session_add_image (Image.mk None pull_specification [])
    end.

(** ** Access to the objects of a session *)

Definition dangling {A} : M Session A :=
  raise (Exn ReferenceError "reference to an object that does not exist").

Definition Session_request (r : nat) : M Session Request.t :=
  s ← get;
  match request_objs s !! r with Some o => mret o | None => dangling end.

Definition Session_request_state (r : nat) : M Session RequestState.t :=
  s ← get;
  match request_state_objs s !! r with Some o => mret o | None => dangling end.

Definition Session_image (r : nat) : M Session Image.t :=
  s ← get;
  match image_objs s !! r with Some o => mret o | None => dangling end.

Definition Session_architecture (r : nat) : M Session Architecture.t :=
  s ← get;
  match architecture_objs s !! r with Some o => mret o | None => dangling end.

Definition Session_update_request (r : nat) (f : Request.t → Request.t) : M Session unit :=
  modify (λ s, set_request_objs (alter f r (request_objs s)) s).

Definition Session_update_request_state (r : nat) (f : RequestState.t → RequestState.t)
    : M Session unit :=
  modify (λ s, set_request_state_objs (alter f r (request_state_objs s)) s).

(** [RequestState(state=..., state_reason=...)], registered with the session
    (see [Session]); the result is the reference to the new object. *)
Definition Session_add_request_state (o : RequestState.t) : M Session nat :=
  s ← get;
  put (set_request_state_objs (request_state_objs s ++ [o]) s);;
  mret (length (request_state_objs s)).

(** The [Request] constructor applied to keyword arguments. *)
Definition Session_add_request (o : Request.t) : M Session nat :=
  s ← get;
  put (set_request_objs (request_objs s ++ [o]) s);;
  mret (length (request_objs s)).

(** [self.state]: the value that the object holds for the relationship, or
    else the row that [request_state_id] designates; an object that has not
    been flushed has nothing to load. *)
Definition Request_state (self : nat) : M Session (option nat) :=
  this ← Session_request self;
  match Request.state_held this with
  | Some v => mret v
  | None =>
      match Request.id this, Request.request_state_id this with
      | Some _, Some k =>
          s ← get;
          mret (fst <$> list_find (λ o, RequestState.id o = Some k) (request_state_objs s))
      | _, _ => mret None
      end
  end.

(** What the relationship [state] of [self] holds once it has been read: a
    flushed object holds the value read, an object that is not flushed
    holds what it held. *)
Definition Request_state_read (self : nat) : M Session (option (option nat)) :=
  this ← Session_request self;
  v ← Request_state self;
  mret (if bool_decide (is_Some (Request.id this)) then Some v else Request.state_held this).

(** The property [RequestState.state_name]. *)
Definition RequestState_state_name (o : RequestState.t) : M Session (option string) :=
  if bool_decide (RequestState.state o = 0) then mret None
  else
    match RequestStateMapping.by_value (RequestState.state o) with
    | Some e => mret (Some (RequestStateMapping.name e))
    | None => raise (Exn ValueError "not a valid RequestStateMapping")
    end.

(** [self.states.append(request_state)]; [back_populates] sets
    [request_state.request] to [self]. *)
Definition Request_states_append (self request_state : nat) : M Session unit :=
  Session_update_request self
    (λ o, Request.set_states (Request.states o ++ [request_state]) o);;
  Session_update_request_state request_state (RequestState.set_request self).

(** ** [Request.add_state] *)

Definition dq : string := String (ascii_of_nat 34) EmptyString.

Definition terminal_guard (self : nat) (state : string) (s : string) : M Session unit :=
  cur ← Request_state self;
  match cur with
  | None => mret tt
  | Some r =>
      o ← Session_request_state r;
      name ← RequestState_state_name o;
      match name with
      | Some n =>
          if bool_decide (n = s) && negb (bool_decide (state = s)) then
            raise (Exn ValidationError ("A " +:+ n +:+ " request cannot change states"))
          else mret tt
      | None => mret tt
      end
  end.

Definition Request_add_state (self : nat) (state state_reason : string) : M Session unit :=
  state_int ←
    match RequestStateMapping.by_name state with
    | Some e => mret (RequestStateMapping.value e)
    | None =>
        raise (Exn ValidationError
                 ("The state " +:+ dq +:+ state +:+ dq +:+ " is invalid. It must be one of: "
                  +:+ str_join ", " RequestStateMapping.get_names +:+ "."))
    end;
  for_each (terminal_guard self state) ["complete"; "failed"];;
  (* the guard has read [self.state] *)
  held ← Request_state_read self;
  request_state ←
    Session_add_request_state (RequestState.mk None None state_int state_reason None None);
  Request_states_append self request_state;;
  Session_flush;;
  rs ← Session_request_state request_state;
  Session_update_request self (Request.set_request_state_id (RequestState.id rs) held).

(** ** JSON values and Python truthiness *)

(** The values that reach [from_json] and leave [to_json].  A float is
    [m * 2^e]; only whether it is zero matters here. *)
#[warnings="-register-all"]
Inductive value :=
  | VNone
  | VBool (b : bool)
  | VInt (n : Z)
  | VFloat (m e : Z)
  | VStr (s : string)
  | VList (l : list value)
  | VDict (d : list (string * value)).

(** [bool(v)]. *)
Definition truthy (v : value) : bool :=
  match v with
  | VNone => false
  | VBool b => b
  | VInt n => negb (n =? 0)%Z
  | VFloat m _ => negb (m =? 0)%Z
  | VStr s => negb (bool_decide (s = ""))
  | VList l => negb (bool_decide (length l = 0%nat))
  | VDict d => negb (bool_decide (length d = 0%nat))
  end.

(** [isinstance(v, str)] with its content, and [isinstance(v, list)]. *)
Definition as_str (v : value) : option string :=
  match v with VStr s => Some s | _ => None end.
Definition as_list (v : value) : option (list value) :=
  match v with VList l => Some l | _ => None end.

(** [getattr(obj, attr, None)] on an optional object, as a JSON value. *)
Definition opt_str (o : option string) : value :=
  match o with Some s => VStr s | None => VNone end.
Definition opt_int (o : option Z) : value :=
  match o with Some n => VInt n | None => VNone end.

(** ** [datetime.isoformat] *)

Fixpoint zeros (n : nat) : string :=
  match n with O => "" | S k => "0" +:+ zeros k end.

(** ["%0<width>d" % n]. *)
Definition zfill (width n : nat) : string :=
  let digits := pretty.pretty n in
  zeros (width - String.length digits) +:+ digits.

Definition isoformat (t : datetime) : string :=
  zfill 4 (year t) +:+ "-" +:+ zfill 2 (month t) +:+ "-" +:+ zfill 2 (day t) +:+ "T" +:+
  zfill 2 (hour t) +:+ ":" +:+ zfill 2 (minute t) +:+ ":" +:+ zfill 2 (second t) +:+
  (if bool_decide (microsecond t = 0%nat) then "" else "." +:+ zfill 6 (microsecond t)).

(** ** [Request.to_json] *)

Definition lift {A} (o : option A) (e : exn) : M Session A :=
  match o with Some a => mret a | None => raise e end.

Definition none_has_no (attr : string) : exn :=
  Exn AttributeError ("'NoneType' object has no attribute '" +:+ attr +:+ "'").

(** The inner function [_state_to_json]; a dict literal, as its items. *)
Definition _state_to_json (state : RequestState.t) : M Session (list (string * value)) :=
  e ← lift (RequestStateMapping.by_value (RequestState.state state))
         (Exn ValueError "not a valid RequestStateMapping");
  updated ← lift (RequestState.updated state) (none_has_no "isoformat");
  mret [("state", VStr (RequestStateMapping.name e));
        ("state_reason", VStr (RequestState.state_reason state));
        ("updated", VStr (isoformat updated +:+ "Z"))].

(** [rv.update(d)]: later items win over earlier ones and over [rv]. *)
Definition dict_update (rv : gmap string value) (d : list (string * value))
    : gmap string value :=
  foldl (λ m kv, <[kv.1 := kv.2]> m) rv d.

(** [getattr(image, 'pull_specification', None)]. *)
Definition pull_specification_of (image : option nat) : M Session value :=
  match image with
  | None => mret VNone
  | Some r => o ← Session_image r; mret (VStr (Image.pull_specification o))
  end.

(** [_state_to_json(self.state)]. *)
Definition current_state_to_json (self : nat) : M Session (list (string * value)) :=
  cur ← Request_state self;
  r ← lift cur (none_has_no "state");
  state ← Session_request_state r;
  _state_to_json state.

Definition Request_to_json (self : nat) (verbose : bool) : M Session (gmap string value) :=
  this ← Session_request self;
  arches ←
    match Request.index_image this with
    | None => mret []
    | Some r =>
        image ← Session_image r;
        list_comp (λ a, arch ← Session_architecture a; mret (VStr (Architecture.name arch)))
                  (Image.architectures image)
    end;
  binary_image ←
    match Request.binary_image this with
    | None => raise (none_has_no "pull_specification")
    | Some r => o ← Session_image r; mret (VStr (Image.pull_specification o))
    end;
  binary_image_resolved ← pull_specification_of (Request.binary_image_resolved this);
  bundles ←
    list_comp (λ b, bundle ← Session_image b; mret (VStr (Image.pull_specification bundle)))
              (Request.bundles this);
  from_index ← pull_specification_of (Request.from_index this);
  from_index_resolved ← pull_specification_of (Request.from_index_resolved this);
  index_image ← pull_specification_of (Request.index_image this);
  let rv : gmap string value :=
    dict_update ∅
      [("id", opt_int (Request.id this));
       ("arches", VList arches);
       ("binary_image", binary_image);
       ("binary_image_resolved", binary_image_resolved);
       ("bundles", VList bundles);
       ("from_index", from_index);
       ("from_index_resolved", from_index_resolved);
       ("index_image", index_image);
       ("user", opt_str (User.username <$> Request.user this))] in
  let latest_state : option (list (string * value)) := None in
  '(rv, latest_state) ←
    (if verbose then
       states ← list_comp (λ r, state ← Session_request_state r; _state_to_json state)
                          (Request.states this);
       let states := reverse states in
       let rv := <["state_history" := VList (VDict <$> states)]> rv in
       latest_state ← lift (states !! 0%nat) (Exn IndexError "list index out of range");
       mret (rv, Some latest_state)
     else mret (rv, latest_state));
  d ←
    match latest_state with
    | Some d => if truthy (VDict d) then mret d else current_state_to_json self
    | None => current_state_to_json self
    end;
  mret (dict_update rv d).

(** ** [Request.from_json]

    [kwargs] is the JSON object of the request; [current_user] is the
    flask-login user, [None] when [current_user.is_authenticated] is false. *)

Definition required_params : gset string := {[ "bundles"; "binary_image" ]}.
Definition optional_params : gset string := {[ "from_index"; "add_arches"; "cnr_token" ]}.

(** [kwargs.get(k)]. *)
Definition dict_get (d : gmap string value) (k : string) : value :=
  default VNone (d !! k).

(** [not x or not isinstance(x, str)]. *)
Definition not_a_nonempty_str (x : value) : bool :=
  negb (truthy x) || negb (bool_decide (is_Some (as_str x))).

(** A value used where the callee needs a [str]. *)
Definition str_arg (v : value) : M Session string :=
  lift (as_str v) (Exn TypeError "argument is not a str").

(** The keyword arguments collected for the [Request] constructor: what is
    left of the JSON payload, and the columns and relationships set so far. *)
Record request_kwargs := mkKwargs {
  kw_json : gmap string value;
  kw_bundles : list nat;
  kw_binary_image : option nat;
  kw_from_index : option nat;
  kw_user : option User.t;
  kw_type : option Z
}.

(** One round of [for param in ('from_index', 'cnr_token')]. *)
Definition from_json_param (kw : request_kwargs) (param : string) : M Session request_kwargs :=
  let param_value := default VNone (kw_json kw !! param) in
  let kw := mkKwargs (delete param (kw_json kw)) (kw_bundles kw) (kw_binary_image kw)
                     (kw_from_index kw) (kw_user kw) (kw_type kw) in
  when_ (truthy param_value && negb (bool_decide (is_Some (as_str param_value))))
        (raise (Exn ValidationError (dq +:+ param +:+ dq +:+ " must be a string")));;
  if bool_decide (param = "from_index") && truthy param_value then
    s ← str_arg param_value;
    image ← Image_get_or_create s;
    mret (mkKwargs (kw_json kw) (kw_bundles kw) (kw_binary_image kw) (Some image)
                   (kw_user kw) (kw_type kw))
  else mret kw.

(** Everything after [add_arches] has been popped and checked: lines 330 to
    365 of the source, on the copy [request_kwargs] of the payload. *)
Definition from_json_build (request_kwargs : gmap string value)
    (current_user : option User.t) : M Session nat :=
  bundles ← lift (request_kwargs !! "bundles") (Exn KeyError "'bundles'");
  let request_kwargs := delete "bundles" request_kwargs in
  when_ (match as_list bundles with
         | None => true
         | Some l => bool_decide (length l = 0%nat) || existsb not_a_nonempty_str l
         end)
        (raise (Exn ValidationError
                  (dq +:+ "bundles" +:+ dq +:+ " should be a non-empty array of strings")));;
  binary_image ← lift (request_kwargs !! "binary_image") (Exn KeyError "'binary_image'");
  let request_kwargs := delete "binary_image" request_kwargs in
  when_ (negb (bool_decide (is_Some (as_str binary_image))) || negb (truthy binary_image))
        (raise (Exn ValidationError
                  (dq +:+ "binary_image" +:+ dq +:+ " should be a non-empty string")));;
  bundle_images ←
    list_comp (λ bundle, s ← str_arg bundle; Image_get_or_create s)
              (default [] (as_list bundles));
  binary ← (s ← str_arg binary_image; Image_get_or_create s);
  let kw := mkKwargs request_kwargs bundle_images (Some binary) None None None in
  kw ← from_json_param kw "from_index";
  kw ← from_json_param kw "cnr_token";
  let kw := mkKwargs (kw_json kw) (kw_bundles kw) (kw_binary_image kw) (kw_from_index kw)
                     current_user (Some (RequestTypeMapping.value RequestTypeMapping.add)) in
  (* the constructor rejects keyword arguments that are not attributes *)
  when_ (negb (bool_decide (kw_json kw = ∅)))
        (raise (Exn TypeError "invalid keyword argument for Request"));;
  request ←
    Session_add_request
      (Request.mk None (kw_binary_image kw) None (kw_bundles kw) (kw_from_index kw)
                  None None None (kw_type kw) (kw_user kw) [] None);
  Request_add_state request "in_progress" "The request was initiated";;
  mret request.

Definition Request_from_json (kwargs : gmap string value) (current_user : option User.t)
    : M Session nat :=
  let missing_params := required_params ∖ dom kwargs ∖ optional_params in
  when_ (negb (bool_decide (missing_params = ∅)))
        (raise (Exn ValidationError
                  ("Missing required parameter(s): " +:+
                   str_join ", " (elements missing_params))));;
  let invalid_params := dom kwargs ∖ required_params ∖ optional_params in
  when_ (negb (bool_decide (invalid_params = ∅)))
        (raise (Exn ValidationError
                  ("The following parameters are invalid: " +:+
                   str_join ", " (elements invalid_params))));;
  when_ (negb (truthy (dict_get kwargs "from_index")) &&
         negb (truthy (dict_get kwargs "add_arches")))
        (raise (Exn ValidationError
                  ("One of " +:+ dq +:+ "from_index" +:+ dq +:+ " or " +:+ dq +:+
                   "add_arches" +:+ dq +:+ " must be specified")));;
  (* deepcopy: values are immutable here, the copy is the payload itself *)
  let request_kwargs := kwargs in
  let add_arches := default (VList []) (request_kwargs !! "add_arches") in
  let request_kwargs := delete "add_arches" request_kwargs in
  when_ (match as_list add_arches with
         | None => true
         | Some l => existsb not_a_nonempty_str l
         end)
        (raise (Exn ValidationError
                  (dq +:+ "add_arches" +:+ dq +:+ " should be an array of strings")));;
  from_json_build request_kwargs current_user.

(** ** Logging

    A call of a logger method is recorded as one log record: the level of
    the method, the format string and its arguments, and the exception
    attached by [Logger.exception]. *)

Inductive log_level := DEBUG | INFO | WARNING | ERROR.

Global Instance log_level_eq_dec : EqDecision log_level.
Proof. solve_decision. Defined.

Inductive log_arg :=
  | ArgStr (s : string)
  | ArgStrs (l : list string)
  | ArgInt (n : Z)
  | ArgExn (e : exn).

Record log_record := LogRecord {
  levelno : log_level;
  msg : string;
  args : list log_arg;
  exc_info : option exn
}.

Record Logger := mkLogger { logger_name : string }.

(** The records a computation emits are collected next to its store. *)
Definition emit {W} (r : log_record) : M (W * list log_record) unit :=
  modify (λ st, (st.1, (st.2 ++ [r])%list)).

Definition count_level (l : log_level) (records : list log_record) : nat :=
  length (filter (λ r, levelno r = l) records).

(** ** [retry]

    [function] stands for the call of the wrapped function on its arguments,
    acting on a store [W] of its own; [function_name] is
    [f'{function.__module__}.{function.__name__}'].  The records are the ones
    the wrapper itself emits through [logger]. *)

(** [logger.warning('Exception %r raised from %r.  Retrying now', e, name)] *)
Definition retrying_record (function_name : string) (e : exn) : log_record :=
  LogRecord WARNING "Exception %r raised from %r.  Retrying now"
            [ArgExn e; ArgStr function_name] None.

(** [logger.exception('The maximum number of attempts (%s) have failed',
    attempts)], issued while [e] is being handled. *)
Definition exhausted_record (attempts : Z) (e : exn) : log_record :=
  LogRecord ERROR "The maximum number of attempts (%s) have failed"
            [ArgInt attempts] (Some e).

Section retry.
Context {W A : Type}.
Context (attempts : Z) (wait_on : exn_class) (logger : option Logger).
Context (function_name : string) (function : M W A).

Definition call_function : M (W * list log_record) A :=
  λ st, let r := function st.1 in (r.1, (r.2, st.2)).

Definition log_exhausted (e : exn) : M (W * list log_record) unit :=
  match logger with
  | Some _ =>
      emit (exhausted_record attempts e)
  | None => mret tt
  end.

Definition log_retrying (e : exn) : M (W * list log_record) unit :=
  match logger with
  | Some _ =>
      emit (retrying_record function_name e)
  | None => mret tt
  end.

(** The [while True] loop of [inner], from the value of
    [remaining_attempts] at the top of an iteration. *)
Equations? inner_loop (remaining_attempts : Z) (st : W * list log_record)
    : outcome A * (W * list log_record) by wf (Z.to_nat remaining_attempts) lt :=
  inner_loop remaining_attempts st with call_function st => {
    | (Return a, st') => (Return a, st');
    | (Raise e, st') with isinstance e wait_on => {
        | false => (Raise e, st');
        | true with decide (remaining_attempts - 1 <= 0) => {
            | left _ => (log_exhausted e;; raise e) st';
            | right _ => inner_loop (remaining_attempts - 1) ((log_retrying e) st').2 } } }.
Proof. lia. Qed.

Definition inner : M (W * list log_record) A :=
  let remaining_attempts := attempts in
  inner_loop remaining_attempts.
End retry.

(** ** String methods used by [run_cmd] *)

(** [s.rstrip(c)] for a single character [c]. *)
Fixpoint rstrip (c : ascii) (s : string) : string :=
  match s with
  | EmptyString => EmptyString
  | String a s' =>
      let r := rstrip c s' in
      if bool_decide (r = EmptyString) && bool_decide (a = c) then EmptyString
      else String a r
  end.

Definition str_drop (n : nat) (s : string) : string :=
  String.substring n (String.length s - n) s.

(** [s.splitlines()]: the line boundaries are LF, CR, CR LF, VT, FF, FS, GS,
    RS, NEL (U+0085), LS (U+2028) and PS (U+2029), the last three in their
    UTF-8 encoding.  [cur] is the line being read, reversed. *)
Definition is_line_boundary (c : ascii) : bool :=
  let n := nat_of_ascii c in
  bool_decide (n = 10 ∨ n = 11 ∨ n = 12 ∨ n = 13 ∨ n = 28 ∨ n = 29 ∨ n = 30)%nat.

Fixpoint splitlines_from (cur : list ascii) (s : string) : list string :=
  let line := string_of_list_ascii (reverse cur) in
  match s with
  | EmptyString => match cur with [] => [] | _ => [line] end
  | String c s' =>
      match nat_of_ascii c, s' with
      | 13%nat, String d s'' =>
          if bool_decide (nat_of_ascii d = 10%nat) then line :: splitlines_from [] s''
          else line :: splitlines_from [] s'
      | 194%nat, String d s'' =>
          if bool_decide (nat_of_ascii d = 133%nat) then line :: splitlines_from [] s''
          else splitlines_from (c :: cur) s'
      | 226%nat, String d (String e s''') =>
          if bool_decide (nat_of_ascii d = 128%nat ∧
                          (nat_of_ascii e = 168 ∨ nat_of_ascii e = 169)%nat)
          then line :: splitlines_from [] s'''
          else splitlines_from (c :: cur) s'
      | _, _ =>
          if is_line_boundary c then line :: splitlines_from [] s'
          else splitlines_from (c :: cur) s'
      end
  end.

Definition splitlines (s : string) : list string := splitlines_from [] s.

(** ** Regular expressions

    The fragment of [re] that [run_cmd] uses, with the backtracking order of
    the [re] module: greedy repetitions try the longest run first.  [n] is
    the number of characters consumed so far, [s] the rest of the input. *)

Inductive regex :=
  | Bol                                   (* ^ *)
  | Eol                                   (* $ *)
  | Lit (l : string)
  | AnyStar                               (* .* *)
  | AnyPlus                               (* .+ *)
  | Group (r : regex)                     (* ( ) *)
  | NonCapture (r : regex)                (* (?: ) *)
  | Seq (r1 r2 : regex).

Definition LF : ascii := ascii_of_nat 10.

Section regex.
Context {R : Type}.

Fixpoint any_star (s : string) (n : nat) (k : nat → string → option R) : option R :=
  match s with
  | EmptyString => k n s
  | String c s' =>
      if bool_decide (c = LF) then k n s
      else match any_star s' (S n) k with
           | Some r => Some r
           | None => k n s
           end
  end.

Definition any_plus (s : string) (n : nat) (k : nat → string → option R) : option R :=
  match s with
  | EmptyString => None
  | String c s' => if bool_decide (c = LF) then None else any_star s' (S n) k
  end.

Fixpoint re_exec (r : regex) (n : nat) (s : string) (groups : list string)
    (k : nat → string → list string → option R) : option R :=
  match r with
  | Bol => if bool_decide (n = 0%nat) then k n s groups else None
  | Eol =>
      if bool_decide (s = EmptyString ∨ s = String LF EmptyString) then k n s groups
      else None
  | Lit l =>
      if String.prefix l s then
        k (n + String.length l)%nat (str_drop (String.length l) s) groups
      else None
  | AnyStar => any_star s n (λ n' s', k n' s' groups)
  | AnyPlus => any_plus s n (λ n' s', k n' s' groups)
  | Group r1 =>
      re_exec r1 n s groups
        (λ n' s' g, k n' s' (g ++ [String.substring 0 (n' - n) s])%list)
  | NonCapture r1 => re_exec r1 n s groups k
  | Seq r1 r2 => re_exec r1 n s groups (λ n' s' g, re_exec r2 n' s' g k)
  end.
End regex.

(** [re.match(regex, s)], as [match.groups()] when there is a match. *)
Definition re_match (r : regex) (s : string) : option (list string) :=
  re_exec r 0 s [] (λ _ _ groups, Some groups).

(** ** [run_cmd] *)

Record CompletedProcess := mkCompletedProcess {
  returncode : Z;
  stdout : string;
  stderr : string
}.

(** [r'^(?:.+level=fatal .*error=")(.+)(?:")$'] *)
Definition fatal_regex : regex :=
  Seq Bol
   (Seq (NonCapture (Seq AnyPlus (Seq (Lit "level=fatal ")
                                      (Seq AnyStar (Lit ("error=" +:+ dq))))))
        (Seq (Group AnyPlus)
             (Seq (NonCapture (Lit dq)) Eol))).

Definition PIPE : value := VInt (-1).

(** [params.setdefault(k, v)]. *)
Definition setdefault (k : string) (v : value) (params : gmap string value)
    : gmap string value :=
  match params !! k with Some _ => params | None => <[k := v]> params end.

(** The keyword parameters handed to [subprocess.run]: the caller's, or an
    empty dict, completed by the four [setdefault] calls. *)
Definition with_defaults (params : option (gmap string value)) : gmap string value :=
  let params := default ∅ params in
  let params := setdefault "universal_newlines" (VBool true) params in
  let params := setdefault "encoding" (VStr "utf-8") params in
  let params := setdefault "stderr" PIPE params in
  let params := setdefault "stdout" PIPE params in
  params.

(** [exc_msg or 'An unexpected error occurred']. *)
Definition failure_message (exc_msg : option string) : string :=
  match exc_msg with
  | Some m => if bool_decide (m = "") then "An unexpected error occurred" else m
  | None => "An unexpected error occurred"
  end.

(** The body of [for msg in reversed(response.stderr.splitlines())]. *)
Definition raise_if_fatal {OS} (exc_msg : string) (msg : string)
    : M (OS * list log_record) unit :=
  match re_match fatal_regex msg with
  | Some groups =>
      raise (Exn IIBError (rstrip "." exc_msg +:+ ": " +:+ default "" (groups !! 0%nat)))
  | None => mret tt
  end.

Section run_cmd.
(** The process world: [subprocess_run] is [subprocess.run] acting on it. *)
Context {OS : Type}.
Context (subprocess_run : list string → gmap string value → M OS CompletedProcess).

Definition call_subprocess (cmd : list string) (params : gmap string value)
    : M (OS * list log_record) CompletedProcess :=
  λ st, let r := subprocess_run cmd params st.1 in (r.1, (r.2, st.2)).

Definition run_cmd (cmd : list string) (params : option (gmap string value))
    (exc_msg : option string) : M (OS * list log_record) string :=
  let exc_msg := failure_message exc_msg in
  let params := with_defaults params in
  emit (LogRecord DEBUG ("Running the command " +:+ dq +:+ "%s" +:+ dq)
                  [ArgStrs cmd] None);;
  response ← call_subprocess cmd params;
  if negb (bool_decide (returncode response = 0)) then
    emit (LogRecord ERROR
            ("The command " +:+ dq +:+ "%s" +:+ dq +:+ " failed with: %s")
            [ArgStr (str_join " " cmd); ArgStr (stderr response)] None);;
    cmd0 ← match cmd with
           | c :: _ => mret c
           | [] => raise (Exn IndexError "list index out of range")
           end;
    when_ (bool_decide (cmd0 = "opm"))
      (for_each (raise_if_fatal exc_msg) (reverse (splitlines (stderr response))));;
    raise (Exn IIBError exc_msg)
  else mret (stdout response).
End run_cmd.

(** * Specification vocabulary *)

(** ** Invariants of the session *)

(** Every object of the session has been flushed. *)
Definition all_persistent (s : Session) : Prop :=
  Forall (λ o, is_Some (Architecture.id o)) (architecture_objs s) ∧
  Forall (λ o, is_Some (Image.id o)) (image_objs s) ∧
  Forall (λ o, is_Some (Request.id o)) (request_objs s) ∧
  Forall (λ o, is_Some (RequestState.id o)) (request_state_objs s).

(** The unique constraint on [Image.pull_specification]. *)
Definition unique_pull_specifications (s : Session) : Prop :=
  NoDup (Image.pull_specification <$> image_objs s).

(** Keys handed out by the [request_state] sequence are below its next value. *)
Definition ids_below_seq (s : Session) : Prop :=
  Forall (λ o, ∀ k, RequestState.id o = Some k → k < request_state_seq s)
         (request_state_objs s).

(** From [s] to [s'] no architecture was created and no architecture was
    attached to an image: the architectures are the same, the images that
    existed keep their architecture lists and the new images have none. *)
Definition architectures_kept (s s' : Session) : Prop :=
  Architecture.name <$> architecture_objs s' = Architecture.name <$> architecture_objs s ∧
  ∃ n, Image.architectures <$> image_objs s' =
       (Image.architectures <$> image_objs s) ++ replicate n [].

(** A computation that keeps the architectures, however it ends. *)
Definition keeps_architectures {A} (m : M Session A) : Prop :=
  ∀ s, architectures_kept s (m s).2.

(** ** Observations on requests and computations *)

(** The row that the column [request_state_id] designates. *)
Definition current_state (s : Session) (self : nat) : option RequestState.t :=
  this ← request_objs s !! self;
  k ← Request.request_state_id this;
  snd <$> list_find (λ o, RequestState.id o = Some k) (request_state_objs s).

(** The references held by [self.states], oldest first. *)
Definition states_of (s : Session) (self : nat) : list nat :=
  default [] (Request.states <$> request_objs s !! self).

(** The statements of [add_state] that follow the terminal guard (lines 228
    to 234 of the source); [add_state_unfold] shows that [add_state] runs
    them. *)
Definition add_state_tail (self : nat) (state_int : Z) (state_reason : string)
    : M Session unit :=
  held ← Request_state_read self;
  request_state ←
    Session_add_request_state (RequestState.mk None None state_int state_reason None None);
  Request_states_append self request_state;;
  Session_flush;;
  rs ← Session_request_state request_state;
  Session_update_request self (Request.set_request_state_id (RequestState.id rs) held).

(** The session in which [add_state] flushes: the new row is registered and
    appended to [self.states]. *)
Definition state_staged (self : nat) (state_int : Z) (state_reason : string)
    (s : Session) : Session :=
  ((request_state ←
      Session_add_request_state (RequestState.mk None None state_int state_reason None None);
    Request_states_append self request_state) s).2.

(** The last entry of [self.states] designates a row that carries the state
    and reason of [call], [request_state_id] is the key of that row, and the
    row of the session with that key is that very object. *)
Definition current_is_latest (s : Session) (self : nat) (call : string * string) : Prop :=
  ∃ this r row k,
    request_objs s !! self = Some this ∧
    last (Request.states this) = Some r ∧
    request_state_objs s !! r = Some row ∧
    RequestStateMapping.name <$> RequestStateMapping.by_value (RequestState.state row)
      = Some call.1 ∧
    RequestState.state_reason row = call.2 ∧
    RequestState.id row = Some k ∧
    Request.request_state_id this = Some k ∧
    fst <$> list_find (λ o, RequestState.id o = Some k) (request_state_objs s) = Some r.

(** A sequence of [add_state] calls on one request, as (state, reason) pairs. *)
Definition add_states (self : nat) (calls : list (string * string)) : M Session unit :=
  for_each (λ c, Request_add_state self c.1 c.2) calls.

(** What [_state_to_json] returns for a well-formed row. *)
Definition state_json (row : RequestState.t) : option (list (string * value)) :=
  e ← RequestStateMapping.by_value (RequestState.state row);
  updated ← RequestState.updated row;
  Some [("state", VStr (RequestStateMapping.name e));
        ("state_reason", VStr (RequestState.state_reason row));
        ("updated", VStr (isoformat updated +:+ "Z"))].

(** No reference held by an optional image attribute dangles. *)
Definition image_ref_ok (s : Session) (image : option nat) : Prop :=
  ∀ r, image = Some r → is_Some (image_objs s !! r).

(** The request [self] can be projected: it has a binary image, none of its
    references dangles, and [self.states] designates the rows [rows]. *)
Definition projectable (s : Session) (self : nat) (this : Request.t)
    (rows : list RequestState.t) : Prop :=
  request_objs s !! self = Some this ∧
  is_Some (Request.binary_image this) ∧
  image_ref_ok s (Request.binary_image this) ∧
  image_ref_ok s (Request.binary_image_resolved this) ∧
  image_ref_ok s (Request.from_index this) ∧
  image_ref_ok s (Request.from_index_resolved this) ∧
  image_ref_ok s (Request.index_image this) ∧
  Forall (λ r, is_Some (image_objs s !! r)) (Request.bundles this) ∧
  (∀ r image, Request.index_image this = Some r → image_objs s !! r = Some image →
     Forall (λ a, is_Some (architecture_objs s !! a)) (Image.architectures image)) ∧
  Forall2 (λ r row, request_state_objs s !! r = Some row) (Request.states this) rows.

(** [function] instrumented with a counter of its invocations. *)
Definition counted {W A} (function : M W A) : M (W * nat) A :=
  λ st, let r := function st.1 in (r.1, (r.2, S st.2)).

(** ** Example inputs *)

Definition t0 : datetime := Datetime 2020 1 1 0 0 0 0.

Definition empty_session : Session := mkSession [] [] [] [] 1 1 1 1 t0.

Definition opm_session : Session :=
  mkSession [] [Image.mk (Some 1) "quay.io/ns/opm:v1" []] [] [] 1 2 1 1 t0.

Definition example_payload : gmap string value :=
  list_to_map [("bundles", VList [VStr "quay.io/ns/bundle:v1"]);
               ("binary_image", VStr "quay.io/ns/opm:v1");
               ("from_index", VStr "quay.io/ns/index:v1")].


(** The session after the example request has been constructed (its
    reference is [0]), and after it has then been marked complete. *)
Definition in_progress_session : Session :=
  Eval vm_compute in (Request_from_json example_payload None empty_session).2.

Definition complete_session : Session :=
  Eval vm_compute in (Request_add_state 0 "complete" "done" in_progress_session).2.

(** The same session when the request holds nothing for the relationship
    [state], as a later transaction finds it. *)
Definition reloaded_session : Session :=
  Eval vm_compute in
    set_request_objs
      ((λ o, Request.set_request_state_id (Request.request_state_id o) None o) <$>
         request_objs complete_session)
      complete_session.

(** The two rows of the example request in [complete_session]. *)
Definition initiated_row : RequestState.t :=
  RequestState.mk (Some 1) (Some 1) 1 "The request was initiated" (Some t0) (Some 0%nat).

Definition done_row : RequestState.t :=
  RequestState.mk (Some 2) (Some 1) 2 "done" (Some t0) (Some 0%nat).

(** [add_arches]: a list of non-empty strings. *)
Definition arches_value (arches : list string) : value := VList (VStr <$> arches).

Definition both_payload : gmap string value :=
  <["add_arches" := arches_value ["amd64"]]> example_payload.

Definition other_arches_payload : gmap string value :=
  <["add_arches" := arches_value ["s390x"; "ppc64le"]]> example_payload.

(** A command that fails with [IIBError] at every call, and one that works. *)
Definition always_fails : M unit string :=
  λ w, (Raise (Exn IIBError "Failed to inspect the image"), w).

Definition succeeds : M unit string := λ w, (Return "{}", w).

Definition iib_log : Logger := mkLogger "iib.workers.tasks.utils".

(** Two lines of stderr of a failed [opm index add]. *)
Definition opm_stderr : string :=
  "time=" +:+ dq +:+ "2020-03-04T05:06:07Z" +:+ dq +:+ " level=info msg=" +:+ dq +:+
  "building the index" +:+ dq +:+ String LF
  ("time=" +:+ dq +:+ "2020-03-04T05:06:08Z" +:+ dq +:+ " level=fatal msg=" +:+ dq +:+
   "permissive mode disabled" +:+ dq +:+ " bundles=" +:+ dq +:+ "[quay.io/ns/bundle:v1]" +:+ dq +:+
   " error=" +:+ dq +:+ "bundle already exists" +:+ dq +:+ String LF "").

Definition opm_fails (cmd : list string) (params : gmap string value)
    : M unit CompletedProcess :=
  λ os, (Return (mkCompletedProcess 1 "" opm_stderr), os).


(** * Further code of the two files *)

(** ** [BaseEnum.get_names] and [RequestStateMapping.validate_state] *)

(** The order of [str] values: code point by code point, which on the UTF-8
    encoding is byte by byte. *)
Definition str_le (a b : string) : Prop := String.leb a b = true.

Global Instance str_le_dec (a b : string) : Decision (str_le a b).
Proof. unfold str_le. apply _. Defined.

(** [sorted(names)]. *)
Definition sorted (names : list string) : list string := merge_sort str_le names.

(** [BaseEnum.get_names], for an enumeration whose member names are [names]
    in definition order. *)
Definition BaseEnum_get_names (names : list string) : list string := sorted names.

Definition RequestStateMapping_validate_state {St} (state : string) : M St unit :=
  let state_names :=
    BaseEnum_get_names (RequestStateMapping.name <$> RequestStateMapping.members) in
  if negb (bool_decide (state ∈ state_names)) then
    let states := str_join ", " state_names in
    raise (Exn ValidationError
             (state +:+ " is not a valid build request state. Valid states are: " +:+ states))
  else mret tt.

(** ** [Image.add_architecture] *)

Definition set_architecture_objs (l : list Architecture.t) (s : Session) : Session :=
  mkSession l (image_objs s) (request_objs s) (request_state_objs s)
            (architecture_seq s) (image_seq s) (request_seq s) (request_state_seq s) (now s).

(** [Architecture(name=...)] followed by [db.session.add(arch)]. *)
Definition Session_add_architecture (o : Architecture.t) : M Session nat :=
  s ← get;
  put (set_architecture_objs (architecture_objs s ++ [o]) s);;
  mret (length (architecture_objs s)).

(** [db.session.query(Architecture).filter_by(name=...).first()]: flushes
    first (autoflush), then selects. *)
Definition Architecture_query_first (name : string) : M Session (option nat) :=
  Session_flush;;
  s ← get;
  mret (fst <$> list_find (λ o, Architecture.name o = name) (architecture_objs s)).

Definition Session_update_image (r : nat) (f : Image.t → Image.t) : M Session unit :=
  modify (λ s, set_image_objs (alter f r (image_objs s)) s).

(** [self.architectures.append(arch)]. *)
Definition append_architecture (arch : nat) (o : Image.t) : Image.t :=
  Image.mk (Image.id o) (Image.pull_specification o) (Image.architectures o ++ [arch]).

Definition Image_add_architecture (self : nat) (arch_name : string) : M Session unit :=
  arch ← Architecture_query_first arch_name;
  arch ← match arch with
         | Some r => mret r
         | None =>
             r ← Session_add_architecture (Architecture.mk None arch_name);
             Session_flush;;
             mret r
         end;
  this ← Session_image self;
  if negb (bool_decide (arch ∈ Image.architectures this)) then
    Session_update_image self (append_architecture arch)
  else mret tt.

(** The unique constraint on [Architecture.name]. *)
Definition unique_architecture_names (s : Session) : Prop :=
  NoDup (Architecture.name <$> architecture_objs s).

(** The names of the architectures of the image [r], in the order of its list. *)
Definition architecture_names (s : Session) (r : nat) : option (list string) :=
  image ← image_objs s !! r;
  mapM (λ a, Architecture.name <$> architecture_objs s !! a) (Image.architectures image).

(** A session with the three example images, the first of them built for amd64. *)
Definition amd64_session : Session :=
  Eval vm_compute in
    (Image_add_architecture 0 "amd64" in_progress_session).2.

(** ** Observations on computations *)

(** A request that was constructed but never given a state. *)
Definition stateless_request : Request.t :=
  Request.mk None (Some 0%nat) None [] None None None None (Some 1) None [] None.

Definition stateless_session : Session :=
  Eval vm_compute in (Session_add_request stateless_request opm_session).2.


(** ** Observations on request construction *)

(** A pull specification with a tag or a digest. *)
Definition has_separator (ps : string) : Prop :=
  ":"%char ∈ list_ascii_of_string ps ∨ "@"%char ∈ list_ascii_of_string ps.

(** The pull specifications of the images of the session, by reference. *)
Definition pull_specifications (s : Session) : list string :=
  Image.pull_specification <$> image_objs s.

(** The JSON array of the strings [l]. *)
Definition strings_value (l : list string) : value := VList (VStr <$> l).

(** The payload has the keys and the value shapes that [from_json] checks
    before it resolves any image. *)
Definition payload_shape (kwargs : gmap string value)
    (bundles : list string) (binary_image : string) (arches : list string) : Prop :=
  dom kwargs ⊆ required_params ∪ optional_params ∧
  kwargs !! "bundles" = Some (strings_value bundles) ∧
  bundles ≠ [] ∧ Forall (λ b, b ≠ "") bundles ∧
  kwargs !! "binary_image" = Some (VStr binary_image) ∧ binary_image ≠ "" ∧
  default (VList []) (kwargs !! "add_arches") = strings_value arches ∧
  Forall (λ a, a ≠ "") arches ∧
  (truthy (dict_get kwargs "from_index") = true ∨ arches ≠ []).

(** What the payload says about [from_index]: a non-empty string, or nothing
    that counts (absent, [null], empty, ...). *)
Definition from_index_is (kwargs : gmap string value) (from_index : option string) : Prop :=
  match from_index with
  | Some fi => kwargs !! "from_index" = Some (VStr fi) ∧ fi ≠ ""
  | None => truthy (dict_get kwargs "from_index") = false
  end.

(** [cnr_token], when it counts, is a string. *)
Definition cnr_token_ok (kwargs : gmap string value) : Prop :=
  truthy (dict_get kwargs "cnr_token") = true →
  is_Some (as_str (dict_get kwargs "cnr_token")).

(** The request [r] of the session [s'] is a freshly constructed request for
    the given bundles, binary image and index image: its only state is
    [in_progress], and [self.state] resolves to it. *)
Definition constructed (s' : Session) (r : nat) (user : option User.t)
    (bundles : list string) (binary_image : string) (from_index : option string) : Prop :=
  ∃ req st row,
    request_objs s' !! r = Some req ∧
    Request.type req = Some (RequestTypeMapping.value RequestTypeMapping.add) ∧
    Request.user req = user ∧
    Forall2 (λ ref ps, pull_specifications s' !! ref = Some ps)
            (Request.bundles req) bundles ∧
    (∃ b, Request.binary_image req = Some b ∧
          pull_specifications s' !! b = Some binary_image) ∧
    match from_index with
    | Some fi => ∃ f, Request.from_index req = Some f ∧
                      pull_specifications s' !! f = Some fi
    | None => Request.from_index req = None
    end ∧
    Request.binary_image_resolved req = None ∧
    Request.from_index_resolved req = None ∧
    Request.index_image req = None ∧
    Request.states req = [st] ∧
    request_state_objs s' !! st = Some row ∧
    RequestState.state row = RequestStateMapping.value RequestStateMapping.in_progress ∧
    RequestState.state_reason row = "The request was initiated" ∧
    RequestState.updated row = Some (now s') ∧
    is_Some (RequestState.id row) ∧
    Request.request_state_id req = RequestState.id row ∧
    Request_state r s' = (Return (Some st), s').

(** The statements of [from_json] that follow the staging of the bundle
    images and of the binary image (lines 349 to 365 of the source), on the
    keyword arguments collected so far; [from_json_images] shows that
    [from_json] runs them. *)
Definition from_json_finish (kw : request_kwargs) (current_user : option User.t)
    : M Session nat :=
  kw ← from_json_param kw "from_index";
  kw ← from_json_param kw "cnr_token";
  let kw := mkKwargs (kw_json kw) (kw_bundles kw) (kw_binary_image kw) (kw_from_index kw)
                     current_user (Some (RequestTypeMapping.value RequestTypeMapping.add)) in
  when_ (negb (bool_decide (kw_json kw = ∅)))
        (raise (Exn TypeError "invalid keyword argument for Request"));;
  request ←
    Session_add_request
      (Request.mk None (kw_binary_image kw) None (kw_bundles kw) (kw_from_index kw)
                  None None None (kw_type kw) (kw_user kw) [] None);
  Request_add_state request "in_progress" "The request was initiated";;
  mret request.

(** ** Observations on [retry] *)

(** The wrapped function raises an exception of the class [wait_on] at each
    of [length failures] calls in a row, the first in the store [w] and each
    next one in the store the call before it left; [failures] lists, call by
    call, the exception raised and the store left. *)
Fixpoint failing_run {W A} (function : M W A) (wait_on : exn_class) (w : W)
    (failures : list (exn * W)) : Prop :=
  match failures with
  | [] => True
  | f :: rest =>
      function w = (Raise f.1, f.2) ∧ isinstance f.1 wait_on = true ∧
      failing_run function wait_on f.2 rest
  end.

(** The store after these calls. *)
Definition store_after {W} (w : W) (failures : list (exn * W)) : W :=
  foldl (λ _ f, f.2) w failures.

(** The WARNING records of these failures, when there is a logger. *)
Definition retrying_records {W} (logger : option Logger) (function_name : string)
    (failures : list (exn * W)) : list log_record :=
  match logger with
  | Some _ => (λ f, retrying_record function_name f.1) <$> failures
  | None => []
  end.

(** The ERROR record of exhaustion, when there is a logger. *)
Definition exhausted_records (logger : option Logger) (attempts : Z) (e : exn)
    : list log_record :=
  match logger with
  | Some _ => [exhausted_record attempts e]
  | None => []
  end.

(** A service that is down for the first two calls: the store counts the
    calls made so far. *)
Definition fails_twice : M nat string :=
  λ n, if bool_decide (n < 2)%nat
       then (Raise (Exn IIBError "Failed to inspect the image"), S n)
       else (Return "{}", S n).

(** ** Observations on [run_cmd] *)

(** The keyword parameters [run_cmd] supplies when the caller does not. *)
Definition default_params : gmap string value :=
  list_to_map [("universal_newlines", VBool true); ("encoding", VStr "utf-8");
               ("stderr", PIPE); ("stdout", PIPE)].

(** The two records of [run_cmd]. *)
Definition running_record (cmd : list string) : log_record :=
  LogRecord DEBUG ("Running the command " +:+ dq +:+ "%s" +:+ dq) [ArgStrs cmd] None.

Definition failed_record (cmd : list string) (response : CompletedProcess) : log_record :=
  LogRecord ERROR ("The command " +:+ dq +:+ "%s" +:+ dq +:+ " failed with: %s")
            [ArgStr (str_join " " cmd); ArgStr (stderr response)] None.

(** A string without a line feed, as every line of [splitlines] is. *)
Definition single_line (s : string) : Prop := LF ∉ list_ascii_of_string s.

(** ** [skopeo_inspect] and [get_image_labels]

    Both log through the module's logger.  The records are collected per
    emitter: the ones of the module's functions ([get_image_labels],
    [run_cmd]) next to the process world, the ones of the [retry] wrapper
    around them, as [inner] has it; their relative order is not
    represented. *)

(** [type(v).__name__]. *)
Definition type_name (v : value) : string :=
  match v with
  | VNone => "NoneType"
  | VBool _ => "bool"
  | VInt _ => "int"
  | VFloat _ _ => "float"
  | VStr _ => "str"
  | VList _ => "list"
  | VDict _ => "dict"
  end.

(** [v.get(key, default)]: only a dict has the method. *)
Definition value_get {St} (v : value) (key : string) (default_value : value) : M St value :=
  match v with
  | VDict d => mret (default default_value (dict_update ∅ d !! key))
  | _ => raise (Exn AttributeError
                    ("'" +:+ type_name v +:+ "' object has no attribute 'get'"))
  end.

(** A library call that returns or raises without touching the store. *)
Definition library_call {St A} (o : outcome A) : M St A := λ st, (o, st).

(** The loop of [skopeo_inspect] over its arguments: the message names the
    first argument that starts with [docker://]. *)
Fixpoint inspect_exc_msg (args : list string) : option string :=
  match args with
  | [] => None
  | arg :: rest =>
      if String.prefix "docker://" arg then
        Some ("Failed to inspect " +:+ arg +:+
              ". Make sure it exists and is accessible to IIB.")
      else inspect_exc_msg rest
  end.

Section skopeo.
(** The worker configuration, the process world and [json.loads]. *)
Context {OS : Type}.
Context (iib_total_attempts : Z) (iib_skopeo_timeout : string).
Context (subprocess_run : list string → gmap string value → M OS CompletedProcess).
Context (json_loads : string → outcome value).

(** The function that [retry] decorates. *)
Definition skopeo_inspect_function (args : list string) : M (OS * list log_record) value :=
  let exc_msg := inspect_exc_msg args in
  let skopeo_timeout := iib_skopeo_timeout in
  let cmd := ["skopeo"; "--command-timeout"; skopeo_timeout; "inspect"] ++ args in
  output ← run_cmd subprocess_run cmd None exc_msg;
  library_call (json_loads output).

(** [@retry(wait_on=IIBError, logger=log)], with the default [attempts]. *)
Definition skopeo_inspect (args : list string)
    : M ((OS * list log_record) * list log_record) value :=
  inner iib_total_attempts IIBError (Some iib_log)
        "iib.workers.tasks.utils.skopeo_inspect" (skopeo_inspect_function args).

(** A record of one of the module's functions. *)
Definition log_debug (msg : string) (args : list log_arg)
    : M ((OS * list log_record) * list log_record) unit :=
  modify (λ st, ((st.1.1, st.1.2 ++ [LogRecord DEBUG msg args None]), st.2)).

Definition get_image_labels (pull_spec : string)
    : M ((OS * list log_record) * list log_record) value :=
  let full_pull_spec :=
    if String.prefix "docker://" pull_spec then pull_spec
    else "docker://" +:+ pull_spec in
  log_debug "Getting the labels from %s" [ArgStr full_pull_spec];;
  inspected ← skopeo_inspect [full_pull_spec];
  value_get inspected "Labels" (VDict []).
End skopeo.

(** The pull specification as [get_image_labels] hands it to [skopeo]. *)
Definition full_pull_spec (pull_spec : string) : string :=
  if String.prefix "docker://" pull_spec then pull_spec else "docker://" +:+ pull_spec.

(** The command line of [skopeo inspect] for one image. *)
Definition skopeo_cmd (iib_skopeo_timeout image : string) : list string :=
  ["skopeo"; "--command-timeout"; iib_skopeo_timeout; "inspect"; image].

Definition inspect_failure (image : string) : exn :=
  Exn IIBError ("Failed to inspect " +:+ image +:+
                ". Make sure it exists and is accessible to IIB.").

Definition labels_record (image : string) : log_record :=
  LogRecord DEBUG "Getting the labels from %s" [ArgStr image] None.

(** A registry that answers, one that is down, and a [json.loads] that knows
    two documents. *)
Definition skopeo_answers : list string → gmap string value → M unit CompletedProcess :=
  λ _ _ os, (Return (mkCompletedProcess 0 "{}" "time=now level=warning"), os).

Definition registry_down : list string → gmap string value → M unit CompletedProcess :=
  λ _ _ os, (Return (mkCompletedProcess 1 "" "time=now level=fatal msg=timeout"), os).

Definition loads_example (s : string) : outcome value :=
  if bool_decide (s = "{}") then Return (VDict [])
  else if bool_decide (s = "[]") then Return (VList [])
  else Raise (Exn ValueError "Expecting value: line 1 column 1 (char 0)").
(** * Properties *)

(** ** Exception classes *)

Lemma issubclass_refl (c : exn_class) : issubclass c c = true.
Proof. now destruct c. Qed.

(** The walk of [bases] reaches the root from every class. *)
Lemma issubclass_BaseException (c : exn_class) : issubclass c BaseException = true.
Proof. now destruct c. Qed.

Lemma issubclass_Exception (c : exn_class) :
  c ≠ BaseException → issubclass c Exception = true.
Proof. now destruct c. Qed.

(** ** Strings *)

Lemma str_in_char (c : ascii) (s : string) :
  str_in (String c EmptyString) s = true ↔ c ∈ list_ascii_of_string s.
Proof.
  induction s as [|a s IH]; simpl.
  - split; [discriminate | intros H; inversion H].
  - rewrite orb_true_iff, IH, elem_of_cons.
    destruct (ascii_dec c a) as [->|Hne].
    + split; [auto | intros _; left; now destruct s].
    + split.
      * intros [H|H]; [discriminate | now right].
      * intros [H|H]; [contradiction | now right].
Qed.

Lemma str_in_char_false (c : ascii) (s : string) :
  c ∉ list_ascii_of_string s → str_in (String c EmptyString) s = false.
Proof.
  intros H. apply not_true_is_false. now rewrite str_in_char.
Qed.

(** ** Flushing *)

Section insert_rows_facts.
Context {A : Type} (pk : A → option Z) (insert : Z → A → A).

Lemma insert_rows_persistent (objs : list A) (seq : Z) :
  Forall (λ o, is_Some (pk o)) objs → insert_rows pk insert objs seq = (objs, seq).
Proof.
  induction 1 as [|o objs [k Hk] _ IH]; simpl; [done|].
  now rewrite Hk, IH.
Qed.

Lemma insert_rows_app (l1 l2 : list A) (seq : Z) :
  insert_rows pk insert (l1 ++ l2) seq =
  let r1 := insert_rows pk insert l1 seq in
  let r2 := insert_rows pk insert l2 r1.2 in
  (r1.1 ++ r2.1, r2.2).
Proof.
  revert seq. induction l1 as [|o l1 IH]; intros seq; simpl.
  - now destruct (insert_rows pk insert l2 seq).
  - destruct (pk o); simpl; now rewrite IH.
Qed.

Lemma insert_rows_length (objs : list A) (seq : Z) :
  length (insert_rows pk insert objs seq).1 = length objs.
Proof.
  revert seq. induction objs as [|o objs IH]; intros seq; simpl; [done|].
  destruct (pk o); simpl; now rewrite IH.
Qed.

Lemma insert_rows_seq (objs : list A) (seq : Z) :
  seq ≤ (insert_rows pk insert objs seq).2.
Proof.
  revert seq. induction objs as [|o objs IH]; intros seq; simpl; [lia|].
  destruct (pk o); simpl; [apply IH|]. specialize (IH (seq + 1)). lia.
Qed.

Lemma insert_rows_fmap {B} (f : A → B) (objs : list A) (seq : Z) :
  (∀ k o, f (insert k o) = f o) →
  f <$> (insert_rows pk insert objs seq).1 = f <$> objs.
Proof.
  intros Hf. revert seq. induction objs as [|o objs IH]; intros seq; simpl; [done|].
  destruct (pk o); simpl; now rewrite ?Hf, IH.
Qed.

Lemma insert_rows_omap {B} (f : A → option B) (objs : list A) (seq : Z) :
  (∀ k o, f (insert k o) = f o) →
  omap f (insert_rows pk insert objs seq).1 = omap f objs.
Proof.
  intros Hf. revert seq. induction objs as [|o objs IH]; intros seq; simpl; [done|].
  destruct (pk o); simpl; now rewrite ?Hf, IH.
Qed.

Lemma insert_rows_Forall (P : A → Prop) (objs : list A) (seq : Z) :
  (∀ k o, P o → P (insert k o)) →
  Forall P objs → Forall P (insert_rows pk insert objs seq).1.
Proof.
  intros HP Hall. revert seq. induction Hall as [|o objs Ho _ IH]; intros seq; simpl;
    [constructor|].
  destruct (pk o); simpl; constructor; auto.
Qed.

Hypothesis pk_insert : ∀ k o, pk (insert k o) = Some k.

Lemma insert_rows_all_persistent (objs : list A) (seq : Z) :
  Forall (λ o, is_Some (pk o)) (insert_rows pk insert objs seq).1.
Proof.
  revert seq. induction objs as [|o objs IH]; intros seq; simpl; [constructor|].
  destruct (pk o) eqn:Hk; simpl; constructor; rewrite ?pk_insert, ?Hk; eauto.
Qed.

(** Keys already given out stay below the sequence, and so do the new ones. *)
Lemma insert_rows_below (objs : list A) (seq : Z) :
  Forall (λ o, ∀ k, pk o = Some k → k < seq) objs →
  Forall (λ o, ∀ k, pk o = Some k → k < (insert_rows pk insert objs seq).2)
         (insert_rows pk insert objs seq).1.
Proof.
  revert seq. induction objs as [|o objs IH]; intros seq Hall; simpl; [constructor|].
  inversion Hall as [|? ? Ho Hrest]; subst.
  destruct (pk o) eqn:Hk; simpl.
  - constructor; [|now apply IH].
    intros k Hk'. rewrite Hk in Hk'. specialize (Ho k Hk').
    pose proof (insert_rows_seq objs seq). lia.
  - constructor.
    + intros k Hk'. rewrite pk_insert in Hk'. injection Hk' as <-.
      pose proof (insert_rows_seq objs (seq + 1)). lia.
    + apply IH. eapply Forall_impl; [exact Hrest|]. simpl. intros x Hx k Hk'.
      specialize (Hx k Hk'). lia.
Qed.
End insert_rows_facts.

Lemma flushed_all_persistent (s : Session) : all_persistent (flushed s).
Proof.
  unfold all_persistent, flushed; simpl.
  split_and!; apply insert_rows_all_persistent; done.
Qed.

Lemma flushed_fixed (s : Session) : all_persistent s → flushed s = s.
Proof.
  intros (Ha & Hi & Hr & Hs). destruct s; simpl in *. unfold flushed; simpl.
  now rewrite !insert_rows_persistent by done.
Qed.

Lemma flushed_idempotent (s : Session) : flushed (flushed s) = flushed s.
Proof. apply flushed_fixed, flushed_all_persistent. Qed.

Lemma flushed_pull_specifications (s : Session) :
  Image.pull_specification <$> image_objs (flushed s) =
  Image.pull_specification <$> image_objs s.
Proof. unfold flushed; simpl. now apply insert_rows_fmap. Qed.

(** A session that meets the constraints is flushed, and meets them
    afterwards; any other session makes the flush raise. *)
Lemma writable_flushed (s : Session) : writable s → writable (flushed s).
Proof.
  intros (Hnames & Hspecs & Harchs & Hreqs & Hkeys & Hrows).
  unfold writable, flushed; simpl. split_and!.
  - now rewrite insert_rows_fmap.
  - now rewrite insert_rows_fmap.
  - apply insert_rows_Forall; done.
  - apply insert_rows_Forall; done.
  - now rewrite insert_rows_omap.
  - apply insert_rows_Forall; done.
Qed.

Lemma Session_flush_writable (s : Session) :
  writable s → Session_flush s = (Return tt, flushed s).
Proof.
  intros Hw. unfold Session_flush.
  cbv [mbind M_bind bind get put]. now rewrite bool_decide_eq_true_2.
Qed.

Lemma Session_flush_raises (s : Session) :
  ¬ writable s →
  Session_flush s = (Raise (Exn IntegrityError "constraint failed"), s).
Proof.
  intros Hw. unfold Session_flush.
  cbv [mbind M_bind bind get put]. now rewrite bool_decide_eq_false_2.
Qed.

Lemma Session_flush_Return (s s' : Session) :
  Session_flush s = (Return tt, s') → writable s ∧ s' = flushed s.
Proof.
  destruct (decide (writable s)) as [Hw|Hw].
  - rewrite (Session_flush_writable s Hw). now intros [= <-].
  - rewrite (Session_flush_raises s Hw). discriminate.
Qed.

Lemma Session_flush_Raise (s s' : Session) (e : exn) :
  Session_flush s = (Raise e, s') →
  ¬ writable s ∧ s' = s ∧ exn_cls e = IntegrityError.
Proof.
  destruct (decide (writable s)) as [Hw|Hw].
  - rewrite (Session_flush_writable s Hw). discriminate.
  - rewrite (Session_flush_raises s Hw). now intros [= <- <-].
Qed.

(** A new image whose pull specification is not in the catalog keeps the
    constraints. *)
Lemma writable_add_image (s : Session) (ps : string) :
  writable s →
  Forall (λ o, ¬ Image.pull_specification o = ps) (image_objs s) →
  writable (set_image_objs (image_objs s ++ [Image.mk None ps []]) s).
Proof.
  intros (Hnames & Hspecs & Harchs & Hreqs & Hkeys & Hrows) Hnone.
  unfold writable; simpl. split_and!; try done.
  - rewrite fmap_app. simpl.
    apply NoDup_app. split_and!; [exact Hspecs| |apply NoDup_singleton].
    intros x Hx Hx'. apply list_elem_of_singleton in Hx'. subst x.
    apply list_elem_of_fmap in Hx as (o & Ho & Hin).
    rewrite Forall_forall in Hnone. now apply (Hnone o Hin).
  - apply Forall_app. split; [done|]. repeat constructor.
Qed.

(** ** The image catalog *)

Lemma Image_query_first_eq (ps : string) (s : Session) :
  writable s →
  Image_query_first ps s =
  (Return (fst <$> list_find (λ o, Image.pull_specification o = ps)
                             (image_objs (flushed s))),
   flushed s).
Proof.
  intros Hw. unfold Image_query_first.
  unfold mbind, M_bind, bind at 1. now rewrite (Session_flush_writable s Hw).
Qed.

(** C7: a pull specification without [':'] and without ['@'] is rejected
    with [ValidationError], and the session is left as it was: no Image is
    created or staged. *)
Theorem get_or_create_requires_tag_or_digest (ps : string) (s : Session) :
  ":"%char ∉ list_ascii_of_string ps →
  "@"%char ∉ list_ascii_of_string ps →
  ∃ msg, Image_get_or_create ps s = (Raise (Exn ValidationError msg), s).
Proof.
  intros Hcolon Hat. unfold Image_get_or_create.
  rewrite (str_in_char_false "@" ps Hat), (str_in_char_false ":" ps Hcolon). simpl.
  eexists. reflexivity.
Qed.

Lemma get_or_create_requires_tag_or_digest_witness :
  ∃ msg, Image_get_or_create "myimage" empty_session
         = (Raise (Exn ValidationError msg), empty_session).
Proof.
  apply (get_or_create_requires_tag_or_digest "myimage");
    apply (bool_decide_unpack _); vm_compute; exact I.
Defined.

Lemma get_or_create_accepts (ps : string) (s : Session) :
  ":"%char ∈ list_ascii_of_string ps ∨ "@"%char ∈ list_ascii_of_string ps →
  writable s →
  Image_get_or_create ps s =
  match list_find (λ o, Image.pull_specification o = ps) (image_objs (flushed s)) with
  | Some (r, _) => (Return r, flushed s)
  | None =>
      (Return (length (image_objs (flushed s))),
       set_image_objs (image_objs (flushed s) ++ [Image.mk None ps []]) (flushed s))
  end.
Proof.
  intros Hsep Hw. unfold Image_get_or_create.
  assert (negb (str_in "@" ps) && negb (str_in ":" ps) = false) as ->.
  { apply andb_false_iff. rewrite !negb_false_iff, !str_in_char. tauto. }
  unfold mbind, M_bind, bind. rewrite Image_query_first_eq by done.
  destruct (list_find _ _) as [[r o]|]; reflexivity.
Qed.

(** In a session that does not meet the constraints, the query of
    [get_or_create] raises. *)
Lemma get_or_create_not_writable (ps : string) (s : Session) :
  ":"%char ∈ list_ascii_of_string ps ∨ "@"%char ∈ list_ascii_of_string ps →
  ¬ writable s →
  Image_get_or_create ps s = (Raise (Exn IntegrityError "constraint failed"), s).
Proof.
  intros Hsep Hw. unfold Image_get_or_create.
  assert (negb (str_in "@" ps) && negb (str_in ":" ps) = false) as ->.
  { apply andb_false_iff. rewrite !negb_false_iff, !str_in_char. tauto. }
  unfold Image_query_first. unfold mbind, M_bind, bind.
  now rewrite (Session_flush_raises s Hw).
Qed.

(** C8: for a pull specification with a tag or digest separator, in a
    session that meets the constraints of the schema (among them the unique
    constraint on pull specifications), two calls of [get_or_create] in a row
    return the same reference, which after either call designates an Image
    object of the catalog with that pull specification, and the only one; the
    second call adds no record, and the unique constraint holds after each
    call. *)
Theorem get_or_create_idempotent (ps : string) (s : Session) :
  ":"%char ∈ list_ascii_of_string ps ∨ "@"%char ∈ list_ascii_of_string ps →
  writable s →
  ∃ r s1 s2 o1 o2,
    Image_get_or_create ps s = (Return r, s1) ∧
    Image_get_or_create ps s1 = (Return r, s2) ∧
    image_objs s1 !! r = Some o1 ∧ Image.pull_specification o1 = ps ∧
    image_objs s2 !! r = Some o2 ∧ Image.pull_specification o2 = ps ∧
    length (image_objs s2) = length (image_objs s1) ∧
    unique_pull_specifications s1 ∧
    unique_pull_specifications s2 ∧
    (∀ i o, image_objs s1 !! i = Some o → Image.pull_specification o = ps → i = r) ∧
    (∀ i o, image_objs s2 !! i = Some o → Image.pull_specification o = ps → i = r).
Proof.
  intros Hsep Hw.
  assert (Hw' := writable_flushed s Hw).
  assert (Hunique : ∀ s0 i j o o', unique_pull_specifications s0 →
            image_objs s0 !! i = Some o → image_objs s0 !! j = Some o' →
            Image.pull_specification o = Image.pull_specification o' → i = j).
  { intros s0 i j o o' Hu Hi Hj Heq. eapply NoDup_lookup; [exact Hu| |].
    - rewrite list_lookup_fmap, Hi. reflexivity.
    - rewrite list_lookup_fmap, Hj. simpl. now rewrite Heq. }
  rewrite (get_or_create_accepts ps s Hsep Hw).
  destruct (list_find _ (image_objs (flushed s))) as [[r o]|] eqn:Hfind.
  - exists r, (flushed s), (flushed s), o, o.
    rewrite (get_or_create_accepts ps _ Hsep Hw'), flushed_idempotent, Hfind.
    apply list_find_Some in Hfind as (Hr & Hps & _).
    assert (Hu : unique_pull_specifications (flushed s)) by apply Hw'.
    split_and!; try done.
    + intros i o' Hi Hps'. apply (Hunique (flushed s) i r o' o Hu Hi Hr). congruence.
    + intros i o' Hi Hps'. apply (Hunique (flushed s) i r o' o Hu Hi Hr). congruence.
  - set (imgs := image_objs (flushed s)) in *.
    set (s1 := set_image_objs (imgs ++ [Image.mk None ps []]) (flushed s)).
    assert (Hnone := Hfind). apply list_find_None in Hnone.
    assert (Hw1 : writable s1) by now apply writable_add_image.
    assert (Hpers : Forall (λ o, is_Some (Image.id o)) imgs).
    { apply (flushed_all_persistent s). }
    assert (Himgs : image_objs (flushed s1) =
                    imgs ++ [Image.mk (Some (image_seq (flushed s))) ps []]).
    { unfold flushed at 1. simpl. rewrite insert_rows_app. simpl.
      now rewrite (insert_rows_persistent _ _ imgs) by done. }
    assert (Hfind2 : list_find (λ o, Image.pull_specification o = ps)
                       (image_objs (flushed s1)) =
                     Some (length imgs, Image.mk (Some (image_seq (flushed s))) ps [])).
    { rewrite Himgs, list_find_app_r by done. simpl.
      rewrite decide_True by done. simpl. do 2 f_equal. }
    assert (Hr1 : image_objs s1 !! length imgs = Some (Image.mk None ps [])).
    { unfold s1. simpl. now rewrite lookup_app_r, Nat.sub_diag by lia. }
    assert (Hr2 : image_objs (flushed s1) !! length imgs =
                  Some (Image.mk (Some (image_seq (flushed s))) ps [])).
    { rewrite Himgs. now rewrite lookup_app_r, Nat.sub_diag by lia. }
    assert (Hu1 : unique_pull_specifications s1) by apply Hw1.
    assert (Hu2 : unique_pull_specifications (flushed s1)).
    { apply (writable_flushed s1 Hw1). }
    exists (length imgs), s1, (flushed s1), (Image.mk None ps []),
      (Image.mk (Some (image_seq (flushed s))) ps []).
    rewrite (get_or_create_accepts ps s1 Hsep Hw1), Hfind2.
    split_and!; try done.
    + rewrite Himgs. unfold s1. simpl. now rewrite !length_app.
    + intros i o' Hi Hps'. now apply (Hunique s1 i (length imgs) o' _ Hu1 Hi Hr1).
    + intros i o' Hi Hps'. now apply (Hunique (flushed s1) i (length imgs) o' _ Hu2 Hi Hr2).
Qed.

Lemma get_or_create_idempotent_witness :
  ∃ r s1 s2 o1 o2,
    Image_get_or_create "quay.io/ns/bundle:v1" opm_session = (Return r, s1) ∧
    Image_get_or_create "quay.io/ns/bundle:v1" s1 = (Return r, s2) ∧
    image_objs s1 !! r = Some o1 ∧ Image.pull_specification o1 = "quay.io/ns/bundle:v1" ∧
    image_objs s2 !! r = Some o2 ∧ Image.pull_specification o2 = "quay.io/ns/bundle:v1".
Proof.
  destruct (get_or_create_idempotent "quay.io/ns/bundle:v1" opm_session)
    as (r & s1 & s2 & o1 & o2 & H1 & H2 & H3 & H4 & H5 & H6 & _).
  - left. apply (bool_decide_unpack _). vm_compute. exact I.
  - apply (bool_decide_unpack _). vm_compute. exact I.
  - exists r, s1, s2, o1, o2. split_and!; assumption.
Defined.

(** ** The request state machine *)

Lemma bind_Return {St A B} (m : M St A) (k : A → M St B) (s s' : St) (a : A) :
  m s = (Return a, s') → (m ≫= k) s = k a s'.
Proof. intros H. unfold mbind, M_bind, bind. now rewrite H. Qed.

Lemma bind_Raise {St A B} (m : M St A) (k : A → M St B) (s s' : St) (e : exn) :
  m s = (Raise e, s') → (m ≫= k) s = (Raise e, s').
Proof. intros H. unfold mbind, M_bind, bind. now rewrite H. Qed.

Lemma by_name_Some (state : string) (e : RequestStateMapping.t) :
  RequestStateMapping.by_name state = Some e ↔ state = RequestStateMapping.name e.
Proof.
  unfold RequestStateMapping.by_name. split.
  - cbn. repeat case_decide; cbn; intros [= <-]; done.
  - intros ->. now destruct e.
Qed.

Lemma by_value_value (e : RequestStateMapping.t) :
  RequestStateMapping.by_value (RequestStateMapping.value e) = Some e.
Proof. now destruct e. Qed.

Lemma add_state_unfold (self : nat) (state state_reason : string) (s : Session) :
  Request_add_state self state state_reason s =
  match RequestStateMapping.by_name state with
  | None =>
      (Raise (Exn ValidationError
                ("The state " +:+ dq +:+ state +:+ dq +:+ " is invalid. It must be one of: "
                 +:+ str_join ", " RequestStateMapping.get_names +:+ ".")), s)
  | Some e =>
      match for_each (terminal_guard self state) ["complete"; "failed"] s with
      | (Return _, s1) => add_state_tail self (RequestStateMapping.value e) state_reason s1
      | (Raise x, s1) => (Raise x, s1)
      end
  end.
Proof.
  unfold Request_add_state. destruct (RequestStateMapping.by_name state); [|reflexivity].
  unfold mbind at 1 2, M_bind at 1 2, bind at 1 2. unfold mret at 1, M_ret, ret at 1.
  destruct (for_each (terminal_guard self state) ["complete"; "failed"] s)
    as [[[]|x] s1]; reflexivity.
Qed.

Ltac mrun :=
  cbv [mbind M_bind bind mret M_ret ret get put modify raise when_ lift dangling].

(** *** Reading the relationship [state] *)

Lemma Session_request_Return (s : Session) (self : nat) (this : Request.t) :
  request_objs s !! self = Some this → Session_request self s = (Return this, s).
Proof. intros Hself. unfold Session_request. mrun. now rewrite Hself. Qed.

(** An object that holds a value for the relationship gives that value. *)
Lemma Request_state_held (s : Session) (self : nat) (this : Request.t) (v : option nat) :
  request_objs s !! self = Some this →
  Request.state_held this = Some v →
  Request_state self s = (Return v, s).
Proof.
  intros Hself Hheld. unfold Request_state.
  rewrite (bind_Return _ _ _ _ _ (Session_request_Return s self this Hself)).
  now rewrite Hheld.
Qed.

(** A flushed object that holds none loads the row of [request_state_id]. *)
Lemma Request_state_loads (s : Session) (self : nat) (this : Request.t) :
  request_objs s !! self = Some this →
  Request.state_held this = None →
  is_Some (Request.id this) →
  Request_state self s =
  (Return (k ← Request.request_state_id this;
           fst <$> list_find (λ o, RequestState.id o = Some k) (request_state_objs s)), s).
Proof.
  intros Hself Hheld [i Hid]. unfold Request_state.
  rewrite (bind_Return _ _ _ _ _ (Session_request_Return s self this Hself)).
  rewrite Hheld, Hid. now destruct (Request.request_state_id this).
Qed.

(** An object that was never flushed and holds none has no state. *)
Lemma Request_state_unflushed (s : Session) (self : nat) (this : Request.t) :
  request_objs s !! self = Some this →
  Request.state_held this = None →
  Request.id this = None →
  Request_state self s = (Return None, s).
Proof.
  intros Hself Hheld Hid. unfold Request_state.
  rewrite (bind_Return _ _ _ _ _ (Session_request_Return s self this Hself)).
  now rewrite Hheld, Hid.
Qed.

Lemma Request_state_total (s : Session) (self : nat) (this : Request.t) :
  request_objs s !! self = Some this → ∃ v, Request_state self s = (Return v, s).
Proof.
  intros Hself. destruct (Request.state_held this) as [v|] eqn:Hheld.
  - exists v. now apply (Request_state_held s self this).
  - destruct (Request.id this) as [i|] eqn:Hid.
    + eexists. apply (Request_state_loads s self this); eauto.
    + eexists. now apply (Request_state_unflushed s self this).
Qed.

Lemma Request_state_Return (s s' : Session) (self : nat) (v : option nat) :
  Request_state self s = (Return v, s') → s' = s ∧ is_Some (request_objs s !! self).
Proof.
  destruct (request_objs s !! self) as [this|] eqn:Hself.
  - destruct (Request_state_total s self this Hself) as [v' ->]. intros [= _ <-]. eauto.
  - unfold Request_state, Session_request. mrun. now rewrite Hself.
Qed.

Lemma Request_state_Raise (s s' : Session) (self : nat) (e : exn) :
  Request_state self s = (Raise e, s') → s' = s ∧ request_objs s !! self = None.
Proof.
  destruct (request_objs s !! self) as [this|] eqn:Hself.
  - destruct (Request_state_total s self this Hself) as [v' ->]. discriminate.
  - unfold Request_state, Session_request. mrun. rewrite Hself. now intros [= _ <-].
Qed.

(** The row that the column designates is what a flushed object that holds
    no stale value reads. *)
Lemma Request_state_current (s : Session) (self : nat) (this : Request.t)
    (cur : RequestState.t) :
  request_objs s !! self = Some this →
  Request.state_held this = None →
  is_Some (Request.id this) →
  current_state s self = Some cur →
  ∃ r, Request_state self s = (Return (Some r), s) ∧ request_state_objs s !! r = Some cur.
Proof.
  intros Hself Hheld Hid. unfold current_state. rewrite Hself. simpl. intros H.
  destruct (Request.request_state_id this) as [k|] eqn:Hk; [simpl in H|discriminate].
  apply fmap_Some in H as ([r o] & Hfind & ->).
  exists r. rewrite (Request_state_loads s self this) by done.
  rewrite Hk. simpl. rewrite Hfind. split; [done|].
  now apply list_find_Some in Hfind.
Qed.

Lemma Request_state_read_eq (s : Session) (self : nat) (this : Request.t) (v : option nat) :
  request_objs s !! self = Some this →
  Request_state self s = (Return v, s) →
  Request_state_read self s =
  (Return (if bool_decide (is_Some (Request.id this)) then Some v
           else Request.state_held this), s).
Proof.
  intros Hself Hrel. unfold Request_state_read.
  rewrite (bind_Return _ _ _ _ _ (Session_request_Return s self this Hself)).
  now rewrite (bind_Return _ _ _ _ _ Hrel).
Qed.

(** *** The terminal guard *)

(** The guard for terminal state [t], on a request whose relationship
    [state] gives a row in the state [e]. *)
Lemma terminal_guard_reads (s : Session) (self r : nat) (cur : RequestState.t)
    (e : RequestStateMapping.t) (state t : string) :
  Request_state self s = (Return (Some r), s) →
  request_state_objs s !! r = Some cur →
  RequestState.state cur = RequestStateMapping.value e →
  terminal_guard self state t s =
  if bool_decide (RequestStateMapping.name e = t) && negb (bool_decide (state = t)) then
    (Raise (Exn ValidationError
              ("A " +:+ RequestStateMapping.name e +:+ " request cannot change states")), s)
  else (Return tt, s).
Proof.
  intros Hrel Hr Hstate.
  unfold terminal_guard. unfold mbind at 1, M_bind, bind. rewrite Hrel.
  unfold Session_request_state, RequestState_state_name. mrun.
  rewrite Hr, Hstate, by_value_value.
  rewrite bool_decide_eq_false_2 by now destruct e.
  now destruct (bool_decide _ && _).
Qed.

Lemma terminal_guard_none (s : Session) (self : nat) (state t : string) :
  Request_state self s = (Return None, s) →
  terminal_guard self state t s = (Return tt, s).
Proof.
  intros Hrel. unfold terminal_guard. unfold mbind at 1, M_bind, bind. now rewrite Hrel.
Qed.

Lemma terminal_guards_reads (s : Session) (self r : nat) (cur : RequestState.t)
    (e : RequestStateMapping.t) (state : string) :
  Request_state self s = (Return (Some r), s) →
  request_state_objs s !! r = Some cur →
  RequestState.state cur = RequestStateMapping.value e →
  for_each (terminal_guard self state) ["complete"; "failed"] s =
  if existsb (λ t, bool_decide (RequestStateMapping.name e = t) &&
                   negb (bool_decide (state = t))) ["complete"; "failed"]
  then
    (Raise (Exn ValidationError
              ("A " +:+ RequestStateMapping.name e +:+ " request cannot change states")), s)
  else (Return tt, s).
Proof.
  intros Hrel Hr Hstate. cbn [for_each existsb]. unfold mbind, M_bind, bind.
  rewrite (terminal_guard_reads s self r cur e) by done.
  destruct (bool_decide _ && _); [done|].
  rewrite (terminal_guard_reads s self r cur e) by done.
  now destruct (bool_decide _ && _).
Qed.

Lemma terminal_guards_none (s : Session) (self : nat) (state : string) :
  Request_state self s = (Return None, s) →
  for_each (terminal_guard self state) ["complete"; "failed"] s = (Return tt, s).
Proof.
  intros Hrel. cbn [for_each]. unfold mbind, M_bind, bind.
  now rewrite !(terminal_guard_none s self state _ Hrel).
Qed.

Lemma terminal_guard_session (self : nat) (state t : string) (s : Session) :
  (terminal_guard self state t s).2 = s ∧
  ((terminal_guard self state t s).1 = Return tt → is_Some (request_objs s !! self)).
Proof.
  unfold terminal_guard.
  destruct (Request_state self s) as [[cur|x] s0] eqn:Hrel.
  - rewrite (bind_Return _ _ _ _ _ Hrel).
    apply Request_state_Return in Hrel as [-> Hself]. split; [|done].
    destruct cur as [r|]; [|done].
    unfold Session_request_state, RequestState_state_name. mrun.
    destruct (request_state_objs s !! r) as [o|]; [|done].
    destruct (bool_decide (RequestState.state o = 0)); [done|].
    destruct (RequestStateMapping.by_value _) as [e|]; [|done].
    now destruct (bool_decide _ && _).
  - rewrite (bind_Raise _ _ _ _ _ Hrel).
    apply Request_state_Raise in Hrel as [-> _]. split; [done|discriminate].
Qed.

Lemma terminal_guards_return (self : nat) (state : string) (s s1 : Session) :
  for_each (terminal_guard self state) ["complete"; "failed"] s = (Return tt, s1) →
  s1 = s ∧ is_Some (request_objs s !! self).
Proof.
  cbn [for_each]. unfold mbind, M_bind, bind.
  destruct (terminal_guard_session self state "complete" s) as [Hs Hself].
  destruct (terminal_guard self state "complete" s) as [[[]|x] s0]; [|discriminate].
  simpl in Hs. subst s0.
  destruct (terminal_guard_session self state "failed" s) as [Hs' _].
  destruct (terminal_guard self state "failed" s) as [[[]|x] s0]; [|discriminate].
  simpl in Hs'. subst s0. intros [= <-]. split; [done|]. now apply Hself.
Qed.

Lemma terminal_guards_session (self : nat) (state : string) (s : Session) :
  (for_each (terminal_guard self state) ["complete"; "failed"] s).2 = s.
Proof.
  cbn [for_each]. unfold mbind, M_bind, bind.
  destruct (terminal_guard_session self state "complete" s) as [Hs _].
  destruct (terminal_guard self state "complete" s) as [[[]|x] s0]; simpl in Hs; subst s0;
    [|done].
  destruct (terminal_guard_session self state "failed" s) as [Hs' _].
  destruct (terminal_guard self state "failed" s) as [[[]|x] s0]; simpl in Hs'; now subst s0.
Qed.

Lemma alter_snoc {A} (f : A → A) (l : list A) (x : A) :
  alter f (length l) (l ++ [x]) = l ++ [f x].
Proof. now rewrite alter_app_r_alt, Nat.sub_diag by lia. Qed.

Lemma lookup_snoc_length {A} (l l' : list A) (x : A) :
  length l' = length l → (l' ++ [x]) !! length l = Some x.
Proof. intros <-. now rewrite lookup_app_r, Nat.sub_diag by lia. Qed.

(** *** The second half of [add_state] *)

Lemma state_staged_eq (self : nat) (state_int : Z) (reason : string) (s : Session) :
  state_staged self state_int reason s =
  set_request_state_objs
    (request_state_objs s ++ [RequestState.mk None None state_int reason None (Some self)])
    (set_request_objs
       (alter (λ o, Request.set_states
                      (Request.states o ++ [length (request_state_objs s)]) o)
              self (request_objs s)) s).
Proof.
  unfold state_staged, Session_add_request_state, Request_states_append,
    Session_update_request, Session_update_request_state.
  mrun. simpl. now rewrite alter_snoc.
Qed.

Lemma Forall_alter_iff {A} (P : A → Prop) (f : A → A) (i : nat) (l : list A) :
  (∀ x, P (f x) ↔ P x) → Forall P (alter f i l) ↔ Forall P l.
Proof.
  intros Hf. revert i. induction l as [|x l IH]; intros i; [done|].
  destruct i as [|i]; simpl; rewrite !Forall_cons; [now rewrite Hf|].
  pose proof (IH i) as IHi. simpl in IHi. now rewrite IHi.
Qed.

Lemma omap_alter_same {A B} (g : A → option B) (f : A → A) (i : nat) (l : list A) :
  (∀ x, g (f x) = g x) → omap g (alter f i l) = omap g l.
Proof.
  intros Hf. revert i. induction l as [|x l IH]; intros i; [done|].
  destruct i as [|i]; simpl; [now rewrite Hf|].
  destruct (g x); [f_equal|]; apply IH.
Qed.

(** Staging the new row neither breaks nor repairs a constraint. *)
Lemma writable_staged (self : nat) (state_int : Z) (reason : string) (s : Session) :
  writable (state_staged self state_int reason s) ↔ writable s.
Proof.
  rewrite state_staged_eq. unfold writable; simpl.
  rewrite Forall_alter_iff by done.
  rewrite omap_alter_same by done.
  rewrite Forall_app, Forall_singleton. simpl.
  split; intros (H1 & H2 & H3 & H4 & H5 & H6); split_and!; try done.
  apply H6.
Qed.

Lemma add_state_tail_unfold (self : nat) (state_int : Z) (reason : string) (s : Session)
    (held : option (option nat)) :
  Request_state_read self s = (Return held, s) →
  add_state_tail self state_int reason s =
  (Session_flush;;
   rs ← Session_request_state (length (request_state_objs s));
   Session_update_request self (Request.set_request_state_id (RequestState.id rs) held))
    (state_staged self state_int reason s).
Proof.
  intros Hread. unfold add_state_tail. rewrite (bind_Return _ _ _ _ _ Hread).
  reflexivity.
Qed.

(** The session after the second half of [add_state], when the flush goes
    through: the rows that were pending are flushed, one row is added for
    the new state, and the column of the request is set to its key while the
    relationship holds [held]. *)
Lemma add_state_tail_spec (self : nat) (state_int : Z) (reason : string) (s : Session)
    (held : option (option nat)) :
  Request_state_read self s = (Return held, s) →
  writable s →
  let r := length (request_state_objs s) in
  let reqs := insert_rows Request.id Request.set_id
                (alter (λ o, Request.set_states (Request.states o ++ [r]) o) self
                       (request_objs s))
                (request_seq s) in
  let old := insert_rows RequestState.id (RequestState_insert reqs.1 (now s))
                (request_state_objs s) (request_state_seq s) in
  let row := RequestState.mk (Some old.2) (q ← reqs.1 !! self; Request.id q)
                state_int reason (Some (now s)) (Some self) in
  ∃ s',
    add_state_tail self state_int reason s = (Return tt, s') ∧
    request_state_objs s' = old.1 ++ [row] ∧
    request_objs s' = alter (Request.set_request_state_id (Some old.2) held) self reqs.1 ∧
    request_state_seq s' = old.2 + 1 ∧
    image_objs s' = image_objs (flushed s) ∧
    architecture_objs s' = architecture_objs (flushed s) ∧
    now s' = now s.
Proof.
  intros Hread Hw r reqs old row.
  rewrite (add_state_tail_unfold self state_int reason s held Hread).
  apply (writable_staged self state_int reason) in Hw.
  rewrite (bind_Return _ _ _ _ _ (Session_flush_writable _ Hw)).
  rewrite state_staged_eq.
  unfold Session_update_request, Session_request_state.
  mrun. simpl.
  rewrite insert_rows_app. simpl. fold r. fold reqs. fold old.
  rewrite (lookup_snoc_length (request_state_objs s))
    by apply insert_rows_length.
  eexists. split; [reflexivity|]. simpl.
  rewrite ?insert_rows_app. simpl. split_and!; reflexivity.
Qed.

(** When the session does not meet the constraints, the flush raises and
    leaves the new row staged. *)
Lemma add_state_tail_raises (self : nat) (state_int : Z) (reason : string) (s : Session)
    (held : option (option nat)) :
  Request_state_read self s = (Return held, s) →
  ¬ writable s →
  add_state_tail self state_int reason s =
  (Raise (Exn IntegrityError "constraint failed"), state_staged self state_int reason s).
Proof.
  intros Hread Hw.
  rewrite (add_state_tail_unfold self state_int reason s held Hread).
  rewrite <- (writable_staged self state_int reason) in Hw.
  now rewrite (bind_Raise _ _ _ _ _ (Session_flush_raises _ Hw)).
Qed.

(** What a return of the second half tells. *)
Lemma add_state_tail_Return (self : nat) (state_int : Z) (reason : string)
    (s s' : Session) (this : Request.t) :
  request_objs s !! self = Some this →
  add_state_tail self state_int reason s = (Return tt, s') →
  let r := length (request_state_objs s) in
  let reqs := insert_rows Request.id Request.set_id
                (alter (λ o, Request.set_states (Request.states o ++ [r]) o) self
                       (request_objs s))
                (request_seq s) in
  let old := insert_rows RequestState.id (RequestState_insert reqs.1 (now s))
                (request_state_objs s) (request_state_seq s) in
  let row := RequestState.mk (Some old.2) (q ← reqs.1 !! self; Request.id q)
                state_int reason (Some (now s)) (Some self) in
  ∃ v,
    Request_state self s = (Return v, s) ∧
    writable s ∧
    request_state_objs s' = old.1 ++ [row] ∧
    request_objs s' =
      alter (Request.set_request_state_id (Some old.2)
               (if bool_decide (is_Some (Request.id this)) then Some v
                else Request.state_held this)) self reqs.1 ∧
    request_state_seq s' = old.2 + 1 ∧
    image_objs s' = image_objs (flushed s) ∧
    architecture_objs s' = architecture_objs (flushed s) ∧
    now s' = now s.
Proof.
  intros Hself Hrun r reqs old row.
  destruct (Request_state_total s self this Hself) as [v Hrel].
  pose proof (Request_state_read_eq s self this v Hself Hrel) as Hread.
  exists v. split; [exact Hrel|].
  destruct (decide (writable s)) as [Hw|Hw].
  - split; [exact Hw|].
    destruct (add_state_tail_spec self state_int reason s _ Hread Hw)
      as (s2 & Htail & Hrest).
    rewrite Htail in Hrun. injection Hrun as <-. exact Hrest.
  - rewrite (add_state_tail_raises self state_int reason s _ Hread Hw) in Hrun.
    discriminate.
Qed.

Lemma insert_rows_lookup {A} (pk : A → option Z) (insert : Z → A → A)
    (objs : list A) (seq : Z) (i : nat) (o : A) :
  objs !! i = Some o →
  ∃ o', (insert_rows pk insert objs seq).1 !! i = Some o' ∧
        (o' = o ∨ (pk o = None ∧ ∃ k, o' = insert k o)).
Proof.
  revert seq i. induction objs as [|x objs IH]; intros seq i Hi; [done|].
  simpl. destruct i as [|i]; simpl in Hi.
  - injection Hi as ->. destruct (pk o) eqn:Hk; simpl; eauto 6.
  - destruct (pk x); simpl; eauto.
Qed.

Lemma states_of_alter (s' : Session) (self : nat) (f : Request.t → Request.t)
    (l : list Request.t) :
  request_objs s' = alter f self l →
  (∀ o, Request.states (f o) = Request.states o) →
  states_of s' self = default [] (Request.states <$> l !! self).
Proof.
  intros Hreq Hf. unfold states_of. rewrite Hreq, list_lookup_alter_eq.
  destruct (l !! self); simpl; [now rewrite Hf|done].
Qed.

(** What a return of [add_state] tells: the name is a member name, the
    request exists, the guard has read the relationship [state], the flush
    went through, and the session is the one of [add_state_tail_Return]. *)
Lemma add_state_Return (s s' : Session) (self : nat) (state reason : string) :
  Request_add_state self state reason s = (Return tt, s') →
  ∃ e this v,
    state = RequestStateMapping.name e ∧
    request_objs s !! self = Some this ∧
    Request_state self s = (Return v, s) ∧
    writable s ∧
    let r := length (request_state_objs s) in
    let reqs := insert_rows Request.id Request.set_id
                  (alter (λ o, Request.set_states (Request.states o ++ [r]) o) self
                         (request_objs s))
                  (request_seq s) in
    let old := insert_rows RequestState.id (RequestState_insert reqs.1 (now s))
                  (request_state_objs s) (request_state_seq s) in
    let row := RequestState.mk (Some old.2) (q ← reqs.1 !! self; Request.id q)
                  (RequestStateMapping.value e) reason (Some (now s)) (Some self) in
    request_state_objs s' = old.1 ++ [row] ∧
    request_objs s' =
      alter (Request.set_request_state_id (Some old.2)
               (if bool_decide (is_Some (Request.id this)) then Some v
                else Request.state_held this)) self reqs.1 ∧
    request_state_seq s' = old.2 + 1 ∧
    image_objs s' = image_objs (flushed s) ∧
    architecture_objs s' = architecture_objs (flushed s) ∧
    now s' = now s.
Proof.
  rewrite add_state_unfold.
  destruct (RequestStateMapping.by_name state) as [e|] eqn:He; [|discriminate].
  apply by_name_Some in He.
  destruct (for_each _ _ s) as [[[]|x] s1] eqn:Hguards; [|discriminate].
  apply terminal_guards_return in Hguards as [-> [this Hself]].
  intros Hrun.
  destruct (add_state_tail_Return self _ reason s s' this Hself Hrun)
    as (v & Hrel & Hw & Hrest).
  exists e, this, v. split_and!; [done..|]. exact Hrest.
Qed.

(** The request as a flush leaves it, but for its key. *)
Lemma insert_rows_request (objs : list Request.t) (seq : Z) (self : nat) (this : Request.t) :
  objs !! self = Some this →
  ∃ q, (insert_rows Request.id Request.set_id objs seq).1 !! self = Some q ∧
       is_Some (Request.id q) ∧
       (is_Some (Request.id this) → q = this) ∧
       Request.states q = Request.states this ∧
       Request.request_state_id q = Request.request_state_id this ∧
       Request.state_held q = Request.state_held this.
Proof.
  intros Hself.
  destruct (insert_rows_lookup Request.id Request.set_id objs seq self this Hself)
    as (q & Hq & Hcase).
  exists q. split; [exact Hq|].
  pose proof (insert_rows_all_persistent Request.id Request.set_id
                (λ _ _, ltac:(eexists; reflexivity)) objs seq) as Hall.
  rewrite Forall_lookup in Hall. split; [exact (Hall _ _ Hq)|].
  destruct Hcase as [->|(Hnone & k & ->)]; [done|].
  split_and!; try done. rewrite Hnone. now intros [? ?].
Qed.

(** The rows that existed, after a successful [add_state]. *)
Lemma insert_rows_row (reqs : list Request.t) (t : datetime) (objs : list RequestState.t)
    (seq : Z) (i : nat) (o : RequestState.t) :
  objs !! i = Some o →
  ∃ o', (insert_rows RequestState.id (RequestState_insert reqs t) objs seq).1 !! i = Some o' ∧
        RequestState.state o' = RequestState.state o ∧
        RequestState.state_reason o' = RequestState.state_reason o ∧
        (is_Some (RequestState.id o) → o' = o).
Proof.
  intros Hi.
  edestruct (insert_rows_lookup RequestState.id) as (o' & Ho' & Hcase); [exact Hi|].
  exists o'. split; [exact Ho'|].
  destruct Hcase as [->|(Hnone & k & ->)]; [done|].
  split_and!; [done..|]. rewrite Hnone. now intros [? ?].
Qed.

(** One successful [add_state]: the column designates the row just added,
    which is last in [self.states], and the sequence invariant is kept. *)
Lemma add_state_current (s s' : Session) (self : nat) (state reason : string) :
  ids_below_seq s →
  Request_add_state self state reason s = (Return tt, s') →
  current_is_latest s' self (state, reason) ∧ ids_below_seq s'.
Proof.
  intros Hids Hrun.
  destruct (add_state_Return s s' self state reason Hrun)
    as (e & this & v & -> & Hself & _ & _ & Hrows & Hreqs & Hseq & _).
  set (r := length (request_state_objs s)) in *.
  set (reqs := insert_rows Request.id Request.set_id _ _) in *.
  set (old := insert_rows RequestState.id _ _ _) in *.
  set (row := RequestState.mk _ _ _ _ _ _) in *.
  assert (Hbelow : Forall (λ o, ∀ k, RequestState.id o = Some k → k < old.2) old.1).
  { apply insert_rows_below; done. }
  assert (Hlen : length old.1 = r) by apply insert_rows_length.
  assert (Hstates : Request.states <$> reqs.1 !! self =
                    Some (Request.states this ++ [r])).
  { rewrite <- list_lookup_fmap. unfold reqs.
    rewrite insert_rows_fmap, list_lookup_fmap, list_lookup_alter_eq, Hself by done.
    done. }
  destruct (reqs.1 !! self) as [q|] eqn:Hq; [|discriminate].
  injection Hstates as Hstates.
  assert (Hfind : list_find (λ o, RequestState.id o = Some old.2) (old.1 ++ [row]) =
                  Some (r, row)).
  { rewrite list_find_app_r.
    - simpl. rewrite decide_True by done. simpl. now rewrite Hlen.
    - apply list_find_None. eapply Forall_impl; [exact Hbelow|].
      simpl. intros o Ho Heq. specialize (Ho _ Heq). lia. }
  split.
  - eexists (Request.set_request_state_id (Some old.2) _ q), r, row, old.2.
    split_and!.
    + now rewrite Hreqs, list_lookup_alter_eq, Hq.
    + simpl. rewrite Hstates. apply last_snoc.
    + rewrite Hrows, <- Hlen. now rewrite lookup_app_r, Nat.sub_diag by lia.
    + simpl. now rewrite by_value_value.
    + done.
    + done.
    + done.
    + now rewrite Hrows, Hfind.
  - unfold ids_below_seq. rewrite Hrows, Hseq. apply Forall_app. split.
    + eapply Forall_impl; [exact Hbelow|]. simpl. intros o Ho k Hk.
      specialize (Ho k Hk). lia.
    + constructor; [|constructor]. simpl. intros k [= <-]. lia.
Qed.

(** C3: after every sequence of successful [add_state] calls on a request,
    the column [request_state_id] is the key of the RequestState row appended
    by the last call (the row with the state and reason of that call), that
    row is the last entry of [self.states], and it is the row of the session
    that the key designates. *)
Theorem add_states_current_is_latest (s s' : Session) (self : nat)
    (calls : list (string * string)) (call : string * string) :
  ids_below_seq s →
  last calls = Some call →
  add_states self calls s = (Return tt, s') →
  current_is_latest s' self call.
Proof.
  revert s. induction calls as [|[state reason] calls IH]; intros s Hids Hlast; [done|].
  unfold add_states. cbn [for_each]. unfold mbind, M_bind, bind. simpl.
  destruct (Request_add_state self state reason s) as [[[]|x] s1] eqn:Hstep; [|discriminate].
  apply add_state_current in Hstep as [Hcur Hids1]; [|done].
  destruct calls as [|c calls].
  - simpl in *. unfold mret, M_ret, ret. injection Hlast as <-. now intros [= <-].
  - intros Hrest. now apply (IH s1).
Qed.

Lemma add_states_current_is_latest_witness :
  ∃ s', add_states 0 [("complete", "done"); ("in_progress", "again")] in_progress_session
        = (Return tt, s') ∧
        current_is_latest s' 0 ("in_progress", "again").
Proof.
  eexists. split; [vm_compute; reflexivity|].
  eapply (add_states_current_is_latest in_progress_session _ 0
            [("complete", "done"); ("in_progress", "again")]).
  - repeat constructor. simpl. intros k [= <-]. lia.
  - reflexivity.
  - vm_compute. reflexivity.
Defined.

(** C1 (the code at a failing input): in one session, a request is
    constructed from the example payload, marked [complete], and then given
    the state [in_progress].  The column [request_state_id] designates the
    [complete] row, but the guard reads the relationship [state], which
    still holds the row loaded before the column was assigned: the call
    returns, a third row is appended to the history, and the column then
    designates an [in_progress] row. *)
Theorem add_state_after_complete_accepted :
  Request_from_json example_payload None empty_session = (Return 0%nat, in_progress_session) ∧
  Request_add_state 0 "complete" "done" in_progress_session = (Return tt, complete_session) ∧
  current_state complete_session 0 = Some done_row ∧
  RequestStateMapping.by_value (RequestState.state done_row) =
    Some RequestStateMapping.complete ∧
  states_of complete_session 0 = [0; 1]%nat ∧
  Request_state 0 complete_session = (Return (Some 0%nat), complete_session) ∧
  request_state_objs complete_session !! 0%nat = Some initiated_row ∧
  ∃ s',
    Request_add_state 0 "in_progress" "again" complete_session = (Return tt, s') ∧
    states_of s' 0 = [0; 1; 2]%nat ∧
    RequestState.state <$> request_state_objs s' = [1; 2; 1] ∧
    current_state s' 0 =
      Some (RequestState.mk (Some 3) (Some 1) 1 "again" (Some t0) (Some 0%nat)).
Proof.
  split_and!; try (vm_compute; reflexivity).
  eexists. split_and!; vm_compute; reflexivity.
Qed.
(** ** Request construction *)

(** [from_json] as a chain of checks followed by the construction proper. *)
Lemma from_json_unfold (kwargs : gmap string value) (user : option User.t) (s : Session) :
  Request_from_json kwargs user s =
  if negb (bool_decide (required_params ∖ dom kwargs ∖ optional_params = ∅)) then
    (Raise (Exn ValidationError
              ("Missing required parameter(s): " +:+
               str_join ", " (elements (required_params ∖ dom kwargs ∖ optional_params)))), s)
  else if negb (bool_decide (dom kwargs ∖ required_params ∖ optional_params = ∅)) then
    (Raise (Exn ValidationError
              ("The following parameters are invalid: " +:+
               str_join ", " (elements (dom kwargs ∖ required_params ∖ optional_params)))), s)
  else if negb (truthy (dict_get kwargs "from_index")) &&
          negb (truthy (dict_get kwargs "add_arches")) then
    (Raise (Exn ValidationError
              ("One of " +:+ dq +:+ "from_index" +:+ dq +:+ " or " +:+ dq +:+
               "add_arches" +:+ dq +:+ " must be specified")), s)
  else if match as_list (default (VList []) (kwargs !! "add_arches")) with
          | None => true
          | Some l => existsb not_a_nonempty_str l
          end then
    (Raise (Exn ValidationError
              (dq +:+ "add_arches" +:+ dq +:+ " should be an array of strings")), s)
  else from_json_build (delete "add_arches" kwargs) user s.
Proof.
  unfold Request_from_json. mrun.
  repeat match goal with |- context [if ?b then _ else _] => destruct b; try reflexivity end.
Qed.

Lemma arches_value_ok (arches : list string) :
  Forall (λ a, a ≠ "") arches →
  existsb not_a_nonempty_str (VStr <$> arches) = false.
Proof.
  induction 1 as [|a arches Ha _ IH]; [done|].
  rewrite fmap_cons. cbn [existsb]. rewrite IH.
  unfold not_a_nonempty_str. cbn [truthy as_str].
  rewrite bool_decide_eq_false_2 by done.
  rewrite bool_decide_eq_true_2 by eauto. done.
Qed.

(** C2 (as the code has it): when neither [from_index] nor a non-empty
    [add_arches] is present, construction raises [ValidationError] and leaves
    the session as it was; when [from_index] is present, a payload that also
    brings an [add_arches] list of non-empty strings, empty or not, is
    treated exactly as the payload without it. *)
Theorem from_json_index_or_arches (kwargs : gmap string value) (user : option User.t)
    (s : Session) :
  (truthy (dict_get kwargs "from_index") = false →
   truthy (dict_get kwargs "add_arches") = false →
   ∃ msg, Request_from_json kwargs user s = (Raise (Exn ValidationError msg), s)) ∧
  (∀ arches,
     truthy (dict_get kwargs "from_index") = true →
     kwargs !! "add_arches" = None →
     Forall (λ a, a ≠ "") arches →
     Request_from_json (<["add_arches" := arches_value arches]> kwargs) user s =
     Request_from_json kwargs user s).
Proof.
  split.
  - intros Hindex Harches. rewrite from_json_unfold, Hindex, Harches. simpl.
    repeat match goal with |- context [if ?b then _ else _] => destruct b; eauto end.
  - intros arches Hindex Hnone Hok. rewrite !from_json_unfold.
    assert (Hdom : dom (<["add_arches" := arches_value arches]> kwargs) =
                   {["add_arches"]} ∪ dom kwargs) by apply dom_insert_L.
    assert (Hmissing : required_params ∖ dom (<["add_arches" := arches_value arches]> kwargs)
                         ∖ optional_params =
                       required_params ∖ dom kwargs ∖ optional_params).
    { rewrite Hdom. unfold required_params, optional_params. set_solver. }
    assert (Hinvalid : dom (<["add_arches" := arches_value arches]> kwargs)
                         ∖ required_params ∖ optional_params =
                       dom kwargs ∖ required_params ∖ optional_params).
    { rewrite Hdom. unfold required_params, optional_params. set_solver. }
    rewrite Hmissing, Hinvalid.
    assert (Hget : dict_get (<["add_arches" := arches_value arches]> kwargs) "from_index" =
                   dict_get kwargs "from_index").
    { unfold dict_get. now rewrite lookup_insert_ne. }
    rewrite Hget, Hindex. cbn [negb andb].
    rewrite lookup_insert_eq, Hnone. unfold arches_value. cbn [default from_option id as_list].
    rewrite arches_value_ok by done.
    rewrite delete_insert_eq, (delete_id kwargs) by done.
    reflexivity.
Qed.

Lemma from_json_index_or_arches_witness :
  (∃ msg, Request_from_json (delete "from_index" example_payload) None empty_session =
          (Raise (Exn ValidationError msg), empty_session)) ∧
  Request_from_json both_payload None empty_session =
  Request_from_json example_payload None empty_session.
Proof.
  split.
  - apply (from_json_index_or_arches (delete "from_index" example_payload) None
             empty_session); reflexivity.
  - apply (from_json_index_or_arches example_payload None empty_session).
    + reflexivity.
    + reflexivity.
    + repeat constructor. discriminate.
Defined.

(** C2 as stated fails: a payload with both [from_index] and a non-empty
    [add_arches] is accepted. *)
Lemma from_json_both_present_accepted :
  truthy (dict_get both_payload "from_index") = true ∧
  truthy (dict_get both_payload "add_arches") = true ∧
  (Request_from_json both_payload None empty_session).1 = Return 0%nat.
Proof. vm_compute. auto. Qed.

Lemma architectures_kept_refl (s : Session) : architectures_kept s s.
Proof. split; [done|]. exists 0%nat. simpl. now rewrite app_nil_r. Qed.

Lemma architectures_kept_trans (s1 s2 s3 : Session) :
  architectures_kept s1 s2 → architectures_kept s2 s3 → architectures_kept s1 s3.
Proof.
  intros [Ha [n Hn]] [Ha' [n' Hn']]. split; [congruence|].
  exists (n + n')%nat. now rewrite Hn', Hn, <- app_assoc, replicate_add.
Qed.

Lemma architectures_kept_same (s s' : Session) :
  architecture_objs s' = architecture_objs s → image_objs s' = image_objs s →
  architectures_kept s s'.
Proof.
  intros Ha Hi. split; [now rewrite Ha|]. exists 0%nat. simpl. now rewrite app_nil_r, Hi.
Qed.

Lemma keeps_ret {A} (a : A) : keeps_architectures (mret a).
Proof. intros s. apply architectures_kept_refl. Qed.

Lemma keeps_raise {A} (e : exn) : keeps_architectures (@raise Session A e).
Proof. intros s. apply architectures_kept_refl. Qed.

Lemma keeps_get : keeps_architectures get.
Proof. intros s. apply architectures_kept_refl. Qed.

Lemma keeps_bind {A B} (m : M Session A) (k : A → M Session B) :
  keeps_architectures m → (∀ a, keeps_architectures (k a)) → keeps_architectures (m ≫= k).
Proof.
  intros Hm Hk s. unfold mbind, M_bind, bind. specialize (Hm s).
  destruct (m s) as [[a|e] s1]; simpl in *; [|done].
  eapply architectures_kept_trans; [exact Hm|apply Hk].
Qed.

Lemma keeps_lift {A} (o : option A) (e : exn) : keeps_architectures (lift o e).
Proof. destruct o; [apply keeps_ret|apply keeps_raise]. Qed.

Lemma keeps_when (b : bool) (m : M Session unit) :
  keeps_architectures m → keeps_architectures (when_ b m).
Proof. destruct b; [done|]. intros _. apply keeps_ret. Qed.

Lemma keeps_list_comp {A B} (f : A → M Session B) (xs : list A) :
  (∀ x, keeps_architectures (f x)) → keeps_architectures (list_comp f xs).
Proof.
  intros Hf. induction xs as [|x xs IH]; [apply keeps_ret|].
  cbn [list_comp]. apply keeps_bind; [done|]. intros y.
  apply keeps_bind; [done|]. intros ys. apply keeps_ret.
Qed.

Lemma keeps_for_each {A} (f : A → M Session unit) (xs : list A) :
  (∀ x, keeps_architectures (f x)) → keeps_architectures (for_each f xs).
Proof.
  intros Hf. induction xs as [|x xs IH]; [apply keeps_ret|].
  cbn [for_each]. apply keeps_bind; [done|]. now intros _.
Qed.

Lemma keeps_flush : keeps_architectures Session_flush.
Proof.
  intros s. destruct (decide (writable s)) as [Hw|Hw].
  - rewrite (Session_flush_writable s Hw). unfold flushed. simpl. split.
    + now apply insert_rows_fmap.
    + exists 0%nat. simpl. rewrite app_nil_r. now apply insert_rows_fmap.
  - rewrite (Session_flush_raises s Hw). apply architectures_kept_refl.
Qed.

Lemma keeps_modify (f : Session → Session) :
  (∀ s, architecture_objs (f s) = architecture_objs s) →
  (∀ s, image_objs (f s) = image_objs s) →
  keeps_architectures (modify f).
Proof.
  intros Ha Hi s. unfold modify. simpl. split; [now rewrite Ha|].
  exists 0%nat. simpl. now rewrite app_nil_r, Hi.
Qed.

Lemma keeps_get_or_create (ps : string) : keeps_architectures (Image_get_or_create ps).
Proof.
  unfold Image_get_or_create.
  destruct (negb (str_in "@" ps) && negb (str_in ":" ps)); [apply keeps_raise|].
  apply keeps_bind.
  - unfold Image_query_first. apply keeps_bind; [apply keeps_flush|]. intros _.
    apply keeps_bind; [apply keeps_get|]. intros s. apply keeps_ret.
  - intros [r|]; [apply keeps_ret|].
    intros s. unfold Session_add_image. mrun. split; [done|].
    exists 1%nat. cbn [snd set_image_objs image_objs]. now rewrite fmap_app.
Qed.

Lemma keeps_terminal_guard (self : nat) (state t : string) :
  keeps_architectures (terminal_guard self state t).
Proof.
  intros s. rewrite (proj1 (terminal_guard_session self state t s)).
  apply architectures_kept_refl.
Qed.

Lemma keeps_add_state (self : nat) (state reason : string) :
  keeps_architectures (Request_add_state self state reason).
Proof.
  unfold Request_add_state. apply keeps_bind.
  { destruct (RequestStateMapping.by_name state); [apply keeps_ret|apply keeps_raise]. }
  intros state_int. apply keeps_bind.
  { apply keeps_for_each. intros t. apply keeps_terminal_guard. }
  intros _. apply keeps_bind.
  { intros s. unfold Request_state_read.
    destruct (Session_request self s) as [[this|x] s0] eqn:Hthis.
    - rewrite (bind_Return _ _ _ _ _ Hthis).
      assert (s0 = s) as ->.
      { revert Hthis. unfold Session_request. mrun.
        destruct (request_objs s !! self); now intros [= _ <-]. }
      destruct (Request_state self s) as [[v|y] s1] eqn:Hrel.
      + rewrite (bind_Return _ _ _ _ _ Hrel).
        apply Request_state_Return in Hrel as [-> _]. apply architectures_kept_refl.
      + rewrite (bind_Raise _ _ _ _ _ Hrel).
        apply Request_state_Raise in Hrel as [-> _]. apply architectures_kept_refl.
    - rewrite (bind_Raise _ _ _ _ _ Hthis).
      revert Hthis. unfold Session_request. mrun.
      destruct (request_objs s !! self); intros [= _ <-]; apply architectures_kept_refl. }
  intros held. apply keeps_bind.
  { intros s. unfold Session_add_request_state. mrun. now apply architectures_kept_same. }
  intros r. apply keeps_bind.
  { unfold Request_states_append. apply keeps_bind; [|intros _]; now apply keeps_modify. }
  intros _. apply keeps_bind; [apply keeps_flush|].
  intros _. apply keeps_bind.
  { intros s. unfold Session_request_state. mrun.
    destruct (request_state_objs s !! r); apply architectures_kept_refl. }
  intros rs. now apply keeps_modify.
Qed.

Lemma keeps_from_json_param (kw : request_kwargs) (param : string) :
  keeps_architectures (from_json_param kw param).
Proof.
  unfold from_json_param. apply keeps_bind; [apply keeps_when, keeps_raise|].
  intros _. destruct (bool_decide (param = "from_index") && _); [|apply keeps_ret].
  apply keeps_bind; [apply keeps_lift|]. intros ps.
  apply keeps_bind; [apply keeps_get_or_create|]. intros image. apply keeps_ret.
Qed.

Lemma keeps_from_json_build (request_kwargs : gmap string value) (user : option User.t) :
  keeps_architectures (from_json_build request_kwargs user).
Proof.
  unfold from_json_build.
  apply keeps_bind; [apply keeps_lift|]. intros bundles.
  apply keeps_bind; [apply keeps_when, keeps_raise|]. intros _.
  apply keeps_bind; [apply keeps_lift|]. intros binary_image.
  apply keeps_bind; [apply keeps_when, keeps_raise|]. intros _.
  apply keeps_bind.
  { apply keeps_list_comp. intros bundle.
    apply keeps_bind; [apply keeps_lift|]. intros ps. apply keeps_get_or_create. }
  intros bundle_images. apply keeps_bind.
  { apply keeps_bind; [apply keeps_lift|]. intros ps. apply keeps_get_or_create. }
  intros binary. apply keeps_bind; [apply keeps_from_json_param|]. intros kw.
  apply keeps_bind; [apply keeps_from_json_param|]. intros kw'.
  apply keeps_bind; [apply keeps_when, keeps_raise|]. intros _.
  apply keeps_bind.
  { intros s. unfold Session_add_request. mrun. now apply architectures_kept_same. }
  intros request. apply keeps_bind; [apply keeps_add_state|]. intros _. apply keeps_ret.
Qed.

Lemma keeps_from_json (kwargs : gmap string value) (user : option User.t) :
  keeps_architectures (Request_from_json kwargs user).
Proof.
  intros s. rewrite from_json_unfold.
  repeat match goal with
         | |- context [if ?b then _ else _] =>
             destruct b; [apply architectures_kept_refl|]
         end.
  apply keeps_from_json_build.
Qed.

(** C9: two payloads that differ at most in [add_arches] and both pass
    validation give the same request and leave the same session behind;
    in that session no architecture has been created and none has been
    attached to an image: nothing of [add_arches] is kept. *)
Theorem from_json_discards_add_arches (kwargs1 kwargs2 : gmap string value)
    (user : option User.t) (s s1 s2 : Session) (r1 r2 : nat) :
  delete "add_arches" kwargs1 = delete "add_arches" kwargs2 →
  Request_from_json kwargs1 user s = (Return r1, s1) →
  Request_from_json kwargs2 user s = (Return r2, s2) →
  r1 = r2 ∧ s1 = s2 ∧ architectures_kept s s1.
Proof.
  intros Hsame Hrun1 Hrun2.
  assert (Hkept : architectures_kept s s1).
  { pose proof (keeps_from_json kwargs1 user s) as Hk. now rewrite Hrun1 in Hk. }
  revert Hrun1 Hrun2. rewrite !from_json_unfold.
  repeat match goal with
         | |- context [if ?b then _ else _] => destruct b; try discriminate
         end.
  rewrite Hsame. intros -> [= -> ->]. done.
Qed.

Lemma from_json_discards_add_arches_witness :
  ∃ r s', Request_from_json both_payload None empty_session = (Return r, s') ∧
          Request_from_json other_arches_payload None empty_session = (Return r, s').
Proof.
  set (s1 := (Request_from_json both_payload None empty_session).2).
  set (s2 := (Request_from_json other_arches_payload None empty_session).2).
  assert (H1 : Request_from_json both_payload None empty_session = (Return 0%nat, s1))
    by (vm_compute; reflexivity).
  assert (H2 : Request_from_json other_arches_payload None empty_session = (Return 0%nat, s2))
    by (vm_compute; reflexivity).
  assert (Hsame : delete "add_arches" both_payload = delete "add_arches" other_arches_payload)
    by (vm_compute; reflexivity).
  destruct (from_json_discards_add_arches both_payload other_arches_payload None
              empty_session s1 s2 0%nat 0%nat Hsame H1 H2) as (_ & Hs & _).
  exists 0%nat, s1. split; [exact H1|]. rewrite Hs. exact H2.
Defined.
(** ** The JSON projection *)

Lemma list_comp_Return {St A B} (f : A → M St B) (g : A → option B) (xs : list A) (s : St) :
  Forall (λ x, ∃ y, g x = Some y ∧ f x s = (Return y, s)) xs →
  ∃ ys, mapM g xs = Some ys ∧ list_comp f xs s = (Return ys, s).
Proof.
  induction 1 as [|x xs (y & Hg & Hx) _ (ys & Hys & IH)]; [by exists []|].
  exists (y :: ys). split.
  - cbn. now rewrite Hg, Hys.
  - cbn [list_comp]. rewrite (bind_Return _ _ _ _ _ Hx), (bind_Return _ _ _ _ _ IH).
    reflexivity.
Qed.

Lemma Session_image_Return (s : Session) (r : nat) (o : Image.t) :
  image_objs s !! r = Some o → Session_image r s = (Return o, s).
Proof. intros H. unfold Session_image. mrun. now rewrite H. Qed.

Lemma pull_specification_of_Return (s : Session) (image : option nat) :
  image_ref_ok s image → ∃ v, pull_specification_of image s = (Return v, s).
Proof.
  intros Hok. destruct image as [r|]; [|by eexists].
  destruct (Hok r eq_refl) as [o Ho]. unfold pull_specification_of.
  rewrite (bind_Return _ _ _ _ _ (Session_image_Return s r o Ho)). by eexists.
Qed.

Lemma _state_to_json_Return (s : Session) (row : RequestState.t) (d : list (string * value)) :
  state_json row = Some d → _state_to_json row s = (Return d, s).
Proof.
  unfold state_json, _state_to_json. mrun.
  destruct (RequestStateMapping.by_value _) as [e|]; [simpl|discriminate].
  destruct (RequestState.updated row) as [u|]; [simpl|discriminate].
  now intros [= <-].
Qed.

Lemma states_to_json_Return (s : Session) (refs : list nat) (rows : list RequestState.t)
    (ds : list (list (string * value))) :
  Forall2 (λ r row, request_state_objs s !! r = Some row) refs rows →
  mapM state_json rows = Some ds →
  list_comp (λ r, state ← Session_request_state r; _state_to_json state) refs s =
  (Return ds, s).
Proof.
  intros Hrows. revert ds. induction Hrows as [|r row refs rows Hr _ IH]; intros ds.
  - cbn. now intros [= <-].
  - cbn [mapM]. unfold mbind at 1, option_bind.
    destruct (state_json row) as [d|] eqn:Hd; [|discriminate].
    unfold mbind at 1, option_bind.
    destruct (mapM state_json rows) as [ds'|]; [|discriminate].
    cbn. intros [= <-]. specialize (IH ds' eq_refl).
    cbn [list_comp].
    assert (Hone : (state ← Session_request_state r; _state_to_json state) s = (Return d, s)).
    { unfold Session_request_state. mrun. rewrite Hr.
      now apply _state_to_json_Return. }
    rewrite (bind_Return _ _ _ _ _ Hone), (bind_Return _ _ _ _ _ IH). reflexivity.
Qed.

Lemma arches_Return (s : Session) (this : Request.t) :
  image_ref_ok s (Request.index_image this) →
  (∀ r image, Request.index_image this = Some r → image_objs s !! r = Some image →
     Forall (λ a, is_Some (architecture_objs s !! a)) (Image.architectures image)) →
  ∃ arches,
    match Request.index_image this with
    | None => mret []
    | Some r =>
        image ← Session_image r;
        list_comp (λ a, arch ← Session_architecture a; mret (VStr (Architecture.name arch)))
                  (Image.architectures image)
    end s = (Return arches, s).
Proof.
  intros Hok Harch. destruct (Request.index_image this) as [r|]; [|by eexists].
  destruct (Hok r eq_refl) as [image Himage].
  rewrite (bind_Return _ _ _ _ _ (Session_image_Return s r image Himage)).
  destruct (list_comp_Return
              (λ a, arch ← Session_architecture a; mret (VStr (Architecture.name arch)))
              (λ a, (λ arch, VStr (Architecture.name arch)) <$> architecture_objs s !! a)
              (Image.architectures image) s) as (ys & _ & Hys); [|eauto].
  eapply Forall_impl; [exact (Harch r image eq_refl Himage)|].
  simpl. intros a [arch Ha]. exists (VStr (Architecture.name arch)).
  rewrite Ha. split; [done|]. unfold Session_architecture. mrun. now rewrite Ha.
Qed.

Lemma bundles_Return (s : Session) (bundles : list nat) :
  Forall (λ r, is_Some (image_objs s !! r)) bundles →
  ∃ vs,
    list_comp (λ b, bundle ← Session_image b; mret (VStr (Image.pull_specification bundle)))
              bundles s = (Return vs, s).
Proof.
  intros Hok.
  destruct (list_comp_Return
              (λ b, bundle ← Session_image b; mret (VStr (Image.pull_specification bundle)))
              (λ b, (λ o, VStr (Image.pull_specification o)) <$> image_objs s !! b)
              bundles s) as (ys & _ & Hys); [|eauto].
  eapply Forall_impl; [exact Hok|].
  simpl. intros b [o Ho]. exists (VStr (Image.pull_specification o)).
  rewrite Ho. split; [done|].
  now rewrite (bind_Return _ _ _ _ _ (Session_image_Return s b o Ho)).
Qed.

(** C6: for a request whose state history is [rows ++ [newest]] (oldest
    first), the verbose projection succeeds; its [state_history] is the
    history rendered entry by entry and reversed, its entry 0 is the
    rendering of [newest], and the [state], [state_reason] and [updated] of
    [newest] are also top-level fields of the projection. *)
Theorem to_json_verbose_history (s : Session) (self : nat) (this : Request.t)
    (rows : list RequestState.t) (newest : RequestState.t)
    (ds : list (list (string * value))) :
  projectable s self this (rows ++ [newest]) →
  mapM state_json (rows ++ [newest]) = Some ds →
  ∃ rv e u,
    Request_to_json self true s = (Return rv, s) ∧
    rv !! "state_history" = Some (VList (VDict <$> reverse ds)) ∧
    reverse ds !! 0%nat = state_json newest ∧
    RequestStateMapping.by_value (RequestState.state newest) = Some e ∧
    RequestState.updated newest = Some u ∧
    rv !! "state" = Some (VStr (RequestStateMapping.name e)) ∧
    rv !! "state_reason" = Some (VStr (RequestState.state_reason newest)) ∧
    rv !! "updated" = Some (VStr (isoformat u +:+ "Z")).
Proof.
  intros (Hself & [b Hb] & Hbin & Hbinr & Hfrom & Hfromr & Hindex & Hbundles & Harch & Hrows)
         Hds.
  assert (Hall := Hds). apply mapM_Some in Hall.
  apply Forall2_app_inv_l in Hall as (ds1 & ds2 & _ & Hlast & ->).
  apply Forall2_cons_inv_l in Hlast as (dn & ds3 & Hdn & Hnil & ->).
  apply Forall2_nil_inv_l in Hnil as ->.
  assert (Hjson := Hdn). unfold state_json in Hjson.
  destruct (RequestStateMapping.by_value _) as [e|] eqn:He; [simpl in Hjson|discriminate].
  destruct (RequestState.updated newest) as [u|] eqn:Hu; [simpl in Hjson|discriminate].
  injection Hjson as <-.
  destruct (arches_Return s this Hindex Harch) as (arches & Harches).
  destruct (Hbin b Hb) as [bo Hbo].
  destruct (pull_specification_of_Return s _ Hbinr) as (vbinr & Hvbinr).
  destruct (bundles_Return s _ Hbundles) as (vbundles & Hvbundles).
  destruct (pull_specification_of_Return s _ Hfrom) as (vfrom & Hvfrom).
  destruct (pull_specification_of_Return s _ Hfromr) as (vfromr & Hvfromr).
  destruct (pull_specification_of_Return s _ Hindex) as (vindex & Hvindex).
  eexists _, e, u. split.
  - unfold Request_to_json.
    assert (Hthis : Session_request self s = (Return this, s)).
    { unfold Session_request. mrun. now rewrite Hself. }
    rewrite (bind_Return _ _ _ _ _ Hthis).
    rewrite (bind_Return _ _ _ _ _ Harches).
    assert (Hbinary :
              match Request.binary_image this with
              | None => raise (none_has_no "pull_specification")
              | Some r => o ← Session_image r; mret (VStr (Image.pull_specification o))
              end s = (Return (VStr (Image.pull_specification bo)), s)).
    { rewrite Hb. now rewrite (bind_Return _ _ _ _ _ (Session_image_Return s b bo Hbo)). }
    rewrite (bind_Return _ _ _ _ _ Hbinary).
    rewrite (bind_Return _ _ _ _ _ Hvbinr).
    rewrite (bind_Return _ _ _ _ _ Hvbundles).
    rewrite (bind_Return _ _ _ _ _ Hvfrom).
    rewrite (bind_Return _ _ _ _ _ Hvfromr).
    rewrite (bind_Return _ _ _ _ _ Hvindex).
    pose proof (states_to_json_Return s _ _ _ Hrows Hds) as Hstates.
    revert Hstates. mrun. intros Hstates. rewrite Hstates.
    rewrite reverse_snoc. cbn [lookup list_lookup truthy length].
    rewrite bool_decide_eq_false_2 by done.
    reflexivity.
  - rewrite reverse_snoc. split_and!; try done.
    all: cbn [dict_update foldl fst snd fmap list_fmap]; by simplify_map_eq.
Qed.

Lemma to_json_verbose_history_witness :
  ∃ rv, Request_to_json 0 true complete_session = (Return rv, complete_session) ∧
        rv !! "state" = Some (VStr "complete") ∧
        rv !! "state_reason" = Some (VStr "done") ∧
        rv !! "state_history" =
          Some (VList [VDict [("state", VStr "complete"); ("state_reason", VStr "done");
                              ("updated", VStr "2020-01-01T00:00:00Z")];
                       VDict [("state", VStr "in_progress");
                              ("state_reason", VStr "The request was initiated");
                              ("updated", VStr "2020-01-01T00:00:00Z")]]).
Proof.
  destruct (to_json_verbose_history complete_session 0
              (Request.mk (Some 1) (Some 1%nat) None [0%nat] (Some 2%nat) None None
                          (Some 2) (Some 1) None [0%nat; 1%nat] (Some (Some 0%nat)))
              [initiated_row] done_row
              [[("state", VStr "in_progress");
                ("state_reason", VStr "The request was initiated");
                ("updated", VStr "2020-01-01T00:00:00Z")];
               [("state", VStr "complete"); ("state_reason", VStr "done");
                ("updated", VStr "2020-01-01T00:00:00Z")]])
    as (rv & e & u & Hrun & Hhist & _ & He & _ & Hstate & Hreason & _).
  - unfold projectable, image_ref_ok. split_and!.
    + reflexivity.
    + eexists; reflexivity.
    + intros r [= <-]. eexists; reflexivity.
    + discriminate.
    + intros r [= <-]. eexists; reflexivity.
    + discriminate.
    + discriminate.
    + repeat constructor. eexists; reflexivity.
    + discriminate.
    + repeat constructor.
  - vm_compute. reflexivity.
  - exists rv. injection He as <-. split_and!; done.
Defined.
(** ** The retry decorator *)

Section retry_facts.
Context {W A : Type}.
Context (attempts : Z) (wait_on : exn_class) (logger : option Logger).
Context (function_name : string) (function : M W A).

Local Abbreviation loop := (inner_loop attempts wait_on logger function_name function).

Lemma inner_loop_step (remaining_attempts : Z) (st : W * list log_record) :
  loop remaining_attempts st =
  match function st.1 with
  | (Return a, w') => (Return a, (w', st.2))
  | (Raise e, w') =>
      if isinstance e wait_on then
        if decide (remaining_attempts - 1 <= 0) then
          (log_exhausted attempts logger e;; raise e) (w', st.2)
        else loop (remaining_attempts - 1) (log_retrying logger function_name e (w', st.2)).2
      else (Raise e, (w', st.2))
  end.
Proof.
  simp inner_loop. unfold call_function.
  destruct (function st.1) as [[a|e] w']; simpl; [reflexivity|].
  destruct (isinstance e wait_on); simpl; [|reflexivity].
  destruct (decide (remaining_attempts - 1 <= 0)); reflexivity.
Qed.
End retry_facts.

(** C4 (as the code has it): with [attempts = 3] and a function that raises
    an exception of the class [wait_on] at every call, the wrapper calls the
    function exactly three times and raises the exception of the third call
    itself; with a logger it emits two WARNING records and then one ERROR
    record, without a logger it emits nothing. *)
Theorem retry_exhaustion {W A : Type} (wait_on : exn_class) (logger : option Logger)
    (function_name : string) (function : M W A) (w : W) :
  (∀ w, ∃ e w', function w = (Raise e, w') ∧ isinstance e wait_on = true) →
  ∃ e1 e2 e3 w1 w2 w3 records,
    function w = (Raise e1, w1) ∧
    function w1 = (Raise e2, w2) ∧
    function w2 = (Raise e3, w3) ∧
    inner 3 wait_on logger function_name (counted function) ((w, 0%nat), []) =
      (Raise e3, ((w3, 3%nat), records)) ∧
    records = match logger with
              | Some _ => [retrying_record function_name e1;
                           retrying_record function_name e2;
                           exhausted_record 3 e3]
              | None => []
              end ∧
    (is_Some logger →
     count_level WARNING records = 2%nat ∧ count_level ERROR records = 1%nat).
Proof.
  intros Hraises.
  destruct (Hraises w) as (e1 & w1 & H1 & Hc1).
  destruct (Hraises w1) as (e2 & w2 & H2 & Hc2).
  destruct (Hraises w2) as (e3 & w3 & H3 & Hc3).
  exists e1, e2, e3, w1, w2, w3. eexists. split_and!; [done..| |reflexivity|].
  - unfold inner.
    rewrite inner_loop_step. unfold counted at 1. cbn [fst snd]. rewrite H1. cbn [fst snd].
    rewrite Hc1. rewrite decide_False by lia.
    rewrite inner_loop_step. unfold counted at 1.
    assert (Hst1 : ∀ l, (log_retrying logger function_name e1 ((w1, 1%nat), l)).2.1
                        = (w1, 1%nat)) by (intros l; now destruct logger).
    rewrite Hst1. cbn [fst snd]. rewrite H2. cbn [fst snd].
    rewrite Hc2. rewrite decide_False by lia.
    rewrite inner_loop_step. unfold counted at 1.
    assert (Hst2 : ∀ st, (log_retrying logger function_name e2 ((w2, 2%nat), st)).2.1
                         = (w2, 2%nat)) by (intros l; now destruct logger).
    rewrite Hst2. cbn [fst snd]. rewrite H3. cbn [fst snd].
    rewrite Hc3. rewrite decide_True by lia.
    destruct logger; reflexivity.
  - intros [lg ->]. split; reflexivity.
Qed.

Lemma retry_exhaustion_witness :
  inner 3 IIBError (Some iib_log) "iib.workers.tasks.utils.skopeo_inspect"
        (counted always_fails) ((tt, 0%nat), []) =
  (Raise (Exn IIBError "Failed to inspect the image"),
   ((tt, 3%nat),
    [retrying_record "iib.workers.tasks.utils.skopeo_inspect"
                     (Exn IIBError "Failed to inspect the image");
     retrying_record "iib.workers.tasks.utils.skopeo_inspect"
                     (Exn IIBError "Failed to inspect the image");
     exhausted_record 3 (Exn IIBError "Failed to inspect the image")])).
Proof.
  destruct (retry_exhaustion IIBError (Some iib_log)
              "iib.workers.tasks.utils.skopeo_inspect" always_fails tt)
    as (e1 & e2 & e3 & w1 & w2 & w3 & records & H1 & H2 & H3 & Hrun & -> & _).
  - intros w. eexists _, _. split; reflexivity.
  - injection H1 as <- <-. injection H2 as <- <-. injection H3 as <- <-. exact Hrun.
Defined.

(** C4 as stated fails for the default [logger=None]: three calls, the
    exception re-raised, and no log record at all. *)
Lemma retry_without_logger_is_silent :
  inner 3 IIBError None "iib.workers.tasks.utils.skopeo_inspect"
        (counted always_fails) ((tt, 0%nat), []) =
  (Raise (Exn IIBError "Failed to inspect the image"), ((tt, 3%nat), [])) ∧
  count_level WARNING [] ≠ 2%nat ∧
  count_level ERROR [] ≠ 1%nat.
Proof. split_and!; [vm_compute; reflexivity|discriminate..]. Qed.

(** C10: with [attempts <= 1] the function is still called exactly once.
    If the call returns, so does the wrapper, with the same value and no
    record; if it raises an exception of the class [wait_on], the wrapper
    raises that exception after this one call, without any WARNING record,
    and with the ERROR record of exhaustion exactly when there is a logger. *)
Theorem retry_single_attempt {W A : Type} (attempts : Z) (wait_on : exn_class)
    (logger : option Logger) (function_name : string) (function : M W A) (w w' : W) :
  attempts ≤ 1 →
  (∀ a, function w = (Return a, w') →
     inner attempts wait_on logger function_name (counted function) ((w, 0%nat), []) =
     (Return a, ((w', 1%nat), []))) ∧
  (∀ e, function w = (Raise e, w') → isinstance e wait_on = true →
     ∃ records,
       inner attempts wait_on logger function_name (counted function) ((w, 0%nat), []) =
       (Raise e, ((w', 1%nat), records)) ∧
       records = match logger with
                 | Some _ => [exhausted_record attempts e]
                 | None => []
                 end ∧
       count_level WARNING records = 0%nat).
Proof.
  intros Hle. split.
  - intros a Hcall. unfold inner. rewrite inner_loop_step.
    unfold counted. cbn [fst snd]. now rewrite Hcall.
  - intros e Hcall Hcls. eexists. split_and!; [|reflexivity|].
    + unfold inner. rewrite inner_loop_step.
      unfold counted. cbn [fst snd]. rewrite Hcall. cbn [fst snd]. rewrite Hcls.
      rewrite decide_True by lia.
      destruct logger; reflexivity.
    + now destruct logger.
Qed.

Lemma retry_single_attempt_witness :
  inner 0 IIBError (Some iib_log) "iib.workers.tasks.utils.skopeo_inspect"
        (counted succeeds) ((tt, 0%nat), []) = (Return "{}", ((tt, 1%nat), [])) ∧
  ∃ records,
    inner (-2) IIBError None "iib.workers.tasks.utils.skopeo_inspect"
          (counted always_fails) ((tt, 0%nat), []) =
    (Raise (Exn IIBError "Failed to inspect the image"), ((tt, 1%nat), records)) ∧
    records = [] ∧ count_level WARNING records = 0%nat.
Proof.
  split.
  - apply (retry_single_attempt 0 IIBError (Some iib_log) _ succeeds tt tt); [lia|reflexivity].
  - apply (retry_single_attempt (-2) IIBError None _ always_fails tt tt);
      [lia|reflexivity|reflexivity].
Defined.

(** ** The command runner *)

Lemma substring_all (s : string) : String.substring 0 (String.length s) s = s.
Proof. induction s as [|c s IH]; simpl; [done|]. now rewrite IH. Qed.

Lemma str_drop_app (l rest : string) : str_drop (String.length l) (l +:+ rest) = rest.
Proof.
  unfold str_drop. induction l as [|c l IH]; simpl.
  - rewrite Nat.sub_0_r. apply substring_all.
  - exact IH.
Qed.

Lemma substring_app (pre rest : string) :
  String.substring 0 (String.length pre) (pre +:+ rest) = pre.
Proof. induction pre as [|c pre IH]; simpl; [now destruct rest|]. now rewrite IH. Qed.

Lemma prefix_split (l s : string) :
  String.prefix l s = true → ∃ rest, s = l +:+ rest.
Proof.
  revert s. induction l as [|c l IH]; intros s Hs; [by exists s|].
  destruct s as [|d s]; [discriminate|]. simpl in Hs.
  destruct (ascii_dec c d) as [->|]; [|discriminate].
  destruct (IH s Hs) as [rest ->]. by exists rest.
Qed.

Lemma prefix_app (l s : string) :
  String.prefix l s = true → s = l +:+ str_drop (String.length l) s.
Proof.
  intros [rest ->]%prefix_split. now rewrite str_drop_app.
Qed.

Section regex_facts.
Context {R : Type}.

(** A greedy [.*] consumes some prefix of the input and hands the rest to
    what follows. *)
Lemma any_star_Some (s : string) (n : nat) (k : nat → string → option R) (r : R) :
  any_star s n k = Some r →
  ∃ pre rest, s = pre +:+ rest ∧ k (n + String.length pre)%nat rest = Some r.
Proof.
  revert n. induction s as [|c s IH]; intros n; simpl.
  - intros Hk. exists "", "". simpl. now rewrite Nat.add_0_r.
  - destruct (bool_decide (c = LF)).
    + intros Hk. exists "", (String c s). simpl. now rewrite Nat.add_0_r.
    + destruct (any_star s (S n) k) as [r'|] eqn:Hstar.
      * intros [= <-]. destruct (IH _ Hstar) as (pre & rest & -> & Hk).
        exists (String c pre), rest. simpl. split; [done|].
        now rewrite Nat.add_succ_r.
      * intros Hk. exists "", (String c s). simpl. now rewrite Nat.add_0_r.
Qed.

Lemma any_plus_Some (s : string) (n : nat) (k : nat → string → option R) (r : R) :
  any_plus s n k = Some r →
  ∃ pre rest, pre ≠ "" ∧ s = pre +:+ rest ∧ k (n + String.length pre)%nat rest = Some r.
Proof.
  unfold any_plus. destruct s as [|c s]; [discriminate|].
  destruct (bool_decide (c = LF)); [discriminate|].
  intros (pre & rest & -> & Hk)%any_star_Some.
  exists (String c pre), rest. simpl. split_and!; [done..|].
  now rewrite Nat.add_succ_r.
Qed.
End regex_facts.

(** A line matched by [fatal_regex] has the shape
    [<a>level=fatal <b>error="<m>"], with [a] and [m] not empty, possibly
    followed by one newline; the only group is [m]. *)
Lemma fatal_regex_sound (line : string) (groups : list string) :
  re_match fatal_regex line = Some groups →
  ∃ a b m tail,
    groups = [m] ∧ a ≠ "" ∧ m ≠ "" ∧ (tail = "" ∨ tail = String LF "") ∧
    line = a +:+ "level=fatal " +:+ b +:+ "error=" +:+ dq +:+ m +:+ dq +:+ tail.
Proof.
  unfold re_match, fatal_regex. cbn [re_exec].
  rewrite bool_decide_eq_true_2 by done.
  intros (a & s1 & Ha & -> & H1)%any_plus_Some.
  destruct (String.prefix "level=fatal " s1) eqn:Hp1; [|discriminate].
  apply prefix_split in Hp1 as [s2 ->]. rewrite str_drop_app in H1.
  apply any_star_Some in H1 as (b & s3 & -> & H2).
  destruct (String.prefix ("error=" +:+ dq) s3) eqn:Hp2; [|discriminate].
  apply prefix_split in Hp2 as [s4 ->]. rewrite str_drop_app in H2.
  apply any_plus_Some in H2 as (m & s5 & Hm & -> & H3).
  destruct (String.prefix dq s5) eqn:Hp3; [|discriminate].
  apply prefix_split in Hp3 as [s6 ->]. rewrite str_drop_app in H3.
  destruct (bool_decide (s6 = "" ∨ s6 = String LF "")) eqn:Hend; [|discriminate].
  apply bool_decide_eq_true in Hend. injection H3 as <-.
  rewrite Nat.add_sub', substring_app.
  exists a, b, m, s6. split_and!; done.
Qed.

Section run_cmd_facts.
Context {OS : Type}.
Context (subprocess_run : list string → gmap string value → M OS CompletedProcess).

Lemma scan_no_match (exc_msg : string) (lines : list string) (st : OS * list log_record) :
  Forall (λ l, re_match fatal_regex l = None) lines →
  for_each (raise_if_fatal exc_msg) lines st = (Return tt, st).
Proof.
  induction 1 as [|l lines Hl _ IH]; [done|].
  cbn [for_each]. unfold mbind, M_bind, bind, raise_if_fatal at 1. now rewrite Hl.
Qed.

Lemma scan_first_match (exc_msg line : string) (before after : list string)
    (groups : list string) (st : OS * list log_record) :
  Forall (λ l, re_match fatal_regex l = None) before →
  re_match fatal_regex line = Some groups →
  for_each (raise_if_fatal exc_msg) (before ++ line :: after) st =
  (Raise (Exn IIBError (rstrip "." exc_msg +:+ ": " +:+ default "" (groups !! 0%nat))), st).
Proof.
  intros Hbefore Hline. induction Hbefore as [|l before Hl _ IH].
  - cbn [app for_each]. unfold mbind, M_bind, bind, raise_if_fatal at 1. now rewrite Hline.
  - cbn [app for_each]. unfold mbind, M_bind, bind, raise_if_fatal at 1. now rewrite Hl.
Qed.

(** [run_cmd] when the process exits with a non-zero code. *)
Lemma run_cmd_nonzero (cmd0 : string) (args : list string)
    (params : option (gmap string value)) (exc_msg : option string)
    (st : OS * list log_record) (response : CompletedProcess) (os' : OS) :
  subprocess_run (cmd0 :: args) (with_defaults params) st.1 = (Return response, os') →
  returncode response ≠ 0 →
  ∃ st',
    run_cmd subprocess_run (cmd0 :: args) params exc_msg st =
    match
      (if bool_decide (cmd0 = "opm") then
         for_each (raise_if_fatal (failure_message exc_msg))
                  (reverse (splitlines (stderr response)))
       else mret tt) st'
    with
    | (Return _, st'') => (Raise (Exn IIBError (failure_message exc_msg)), st'')
    | (Raise e, st'') => (Raise e, st'')
    end.
Proof.
  intros Hrun Hcode. unfold run_cmd, call_subprocess, emit.
  cbv [mbind M_bind bind mret M_ret ret modify raise when_]. cbn [fst snd].
  rewrite Hrun. cbn [fst snd]. rewrite bool_decide_eq_false_2 by done. cbn [negb].
  eexists. reflexivity.
Qed.
End run_cmd_facts.

(** C5 (as the code has it): when the process exits with a non-zero code,
    [run_cmd] raises [IIBError].  For [opm], the lines of stderr are scanned
    from the last one back; at the first line that matches, which then has the
    shape [<a>level=fatal <b>error="<m>"], the message is the failure message
    without its trailing dots, then [": "], then [m].  When no line matches,
    or the command is not [opm], the message is the failure message, which is
    ["An unexpected error occurred"] when none was supplied. *)
Theorem run_cmd_failure {OS : Type}
    (subprocess_run : list string → gmap string value → M OS CompletedProcess)
    (cmd0 : string) (args : list string) (params : option (gmap string value))
    (exc_msg : option string) (st : OS * list log_record)
    (response : CompletedProcess) (os' : OS) :
  subprocess_run (cmd0 :: args) (with_defaults params) st.1 = (Return response, os') →
  returncode response ≠ 0 →
  (∀ earlier line later groups,
     cmd0 = "opm" →
     splitlines (stderr response) = earlier ++ line :: later →
     Forall (λ l, re_match fatal_regex l = None) later →
     re_match fatal_regex line = Some groups →
     ∃ a b m tail,
       groups = [m] ∧ a ≠ "" ∧ m ≠ "" ∧ (tail = "" ∨ tail = String LF "") ∧
       line = a +:+ "level=fatal " +:+ b +:+ "error=" +:+ dq +:+ m +:+ dq +:+ tail ∧
       (run_cmd subprocess_run (cmd0 :: args) params exc_msg st).1 =
       Raise (Exn IIBError (rstrip "." (failure_message exc_msg) +:+ ": " +:+ m))) ∧
  (cmd0 ≠ "opm" ∨ Forall (λ l, re_match fatal_regex l = None) (splitlines (stderr response)) →
   (run_cmd subprocess_run (cmd0 :: args) params exc_msg st).1 =
   Raise (Exn IIBError (failure_message exc_msg))) ∧
  failure_message None = "An unexpected error occurred".
Proof.
  intros Hrun Hcode.
  destruct (run_cmd_nonzero subprocess_run cmd0 args params exc_msg st response os'
              Hrun Hcode) as (st' & ->).
  split_and!; [| |reflexivity].
  - intros earlier line later groups -> Hlines Hlater Hline.
    destruct (fatal_regex_sound line groups Hline) as (a & b & m & tail & -> & Ha & Hm & Ht & Hshape).
    exists a, b, m, tail. split_and!; try done.
    rewrite bool_decide_eq_true_2 by done.
    rewrite Hlines, reverse_app, reverse_cons, <- app_assoc. cbn [app].
    rewrite (scan_first_match _ _ _ _ [m]); [done| |done].
    now apply Forall_reverse.
  - intros [Hcmd|Hnone].
    + now rewrite bool_decide_eq_false_2.
    + destruct (bool_decide (cmd0 = "opm")); [|done].
      rewrite scan_no_match; [done|]. now apply Forall_reverse.
Qed.

Lemma run_cmd_failure_witness :
  (run_cmd opm_fails ["opm"; "index"; "add"] None (Some "Failed to add the bundle")
           (tt, [])).1 =
  Raise (Exn IIBError "Failed to add the bundle: bundle already exists").
Proof.
  pose proof (run_cmd_failure opm_fails "opm" ["index"; "add"] None
                (Some "Failed to add the bundle") (tt, [])
                (mkCompletedProcess 1 "" opm_stderr) tt eq_refl) as [Hfatal _].
  - discriminate.
  - destruct (Hfatal (take 1 (splitlines opm_stderr))
                     (default "" (splitlines opm_stderr !! 1%nat)) []
                     ["bundle already exists"])
      as (a & b & m & tail & [= <-] & _ & _ & _ & _ & Hrun').
    + reflexivity.
    + vm_compute. reflexivity.
    + constructor.
    + vm_compute. reflexivity.
    + exact Hrun'.
Defined.

(** C5 as stated fails when the failure message ends with a dot: the dot is
    dropped before the extracted message is joined. *)
Lemma run_cmd_strips_trailing_dots :
  re_match fatal_regex (default "" (splitlines opm_stderr !! 1%nat)) =
    Some ["bundle already exists"] ∧
  (run_cmd opm_fails ["opm"; "index"; "add"] None (Some "Failed.") (tt, [])).1 =
    Raise (Exn IIBError "Failed: bundle already exists") ∧
  (run_cmd opm_fails ["opm"; "index"; "add"] None (Some "Failed.") (tt, [])).1 ≠
    Raise (Exn IIBError ("Failed." +:+ ": " +:+ "bundle already exists")).
Proof.
  split_and!; [vm_compute; reflexivity..|].
  vm_compute. discriminate.
Qed.

(** * Further properties *)

(** ** Enumerations *)

Global Instance str_le_total : Total str_le.
Proof. intros a b. apply String.leb_total. Qed.

(** X1: [get_names] returns the member names in ascending order, none lost
    and none added. *)
Theorem get_names_sorted (names : list string) :
  Sorted str_le (BaseEnum_get_names names) ∧ BaseEnum_get_names names ≡ₚ names.
Proof.
  split; [apply Sorted_merge_sort, _|apply merge_sort_Permutation].
Qed.

Lemma get_names_RequestStateMapping :
  BaseEnum_get_names (RequestStateMapping.name <$> RequestStateMapping.members) =
  RequestStateMapping.get_names.
Proof. vm_compute. reflexivity. Qed.

(** X2: [validate_state] accepts exactly the names that [add_state] accepts,
    the three member names; for any other string it raises [ValidationError]
    and the message lists the names in alphabetical order. *)
Theorem validate_state_accepts (St : Type) (state : string) (s : St) :
  (is_Some (RequestStateMapping.by_name state) →
   RequestStateMapping_validate_state state s = (Return tt, s)) ∧
  (RequestStateMapping.by_name state = None →
   RequestStateMapping_validate_state state s =
   (Raise (Exn ValidationError
             (state +:+ " is not a valid build request state. Valid states are: " +:+
              "complete, failed, in_progress")), s)).
Proof.
  unfold RequestStateMapping_validate_state. rewrite get_names_RequestStateMapping.
  split.
  - intros [e He]. apply by_name_Some in He. subst state.
    rewrite bool_decide_eq_true_2; [done|]. destruct e; set_solver.
  - intros Hnone. rewrite bool_decide_eq_false_2; [done|].
    intros Hin. unfold RequestStateMapping.get_names in Hin.
    assert (∃ e, state = RequestStateMapping.name e) as [e He].
    { apply elem_of_cons in Hin as [->|Hin]; [by exists RequestStateMapping.complete|].
      apply elem_of_cons in Hin as [->|Hin]; [by exists RequestStateMapping.failed|].
      apply list_elem_of_singleton in Hin as ->. by exists RequestStateMapping.in_progress. }
    apply by_name_Some in He. congruence.
Qed.

(** ** [add_state] on any request *)

(** The history after a successful [add_state]. *)
Lemma add_state_history (s s' : Session) (self : nat) (this : Request.t)
    (held : option (option nat)) (state_int : Z) (reason : string) :
  request_objs s !! self = Some this →
  let r := length (request_state_objs s) in
  let reqs := insert_rows Request.id Request.set_id
                (alter (λ o, Request.set_states (Request.states o ++ [r]) o) self
                       (request_objs s))
                (request_seq s) in
  let old := insert_rows RequestState.id (RequestState_insert reqs.1 (now s))
                (request_state_objs s) (request_state_seq s) in
  let row := RequestState.mk (Some old.2) (q ← reqs.1 !! self; Request.id q)
                state_int reason (Some (now s)) (Some self) in
  request_state_objs s' = old.1 ++ [row] →
  request_objs s' = alter (Request.set_request_state_id (Some old.2) held) self reqs.1 →
  ∃ row,
    states_of s' self = states_of s self ++ [length (request_state_objs s)] ∧
    request_state_objs s' !! length (request_state_objs s) = Some row ∧
    RequestState.state row = state_int ∧
    RequestState.state_reason row = reason ∧
    length (request_state_objs s') = S (length (request_state_objs s)) ∧
    (∀ i o, request_state_objs s !! i = Some o →
       ∃ o', request_state_objs s' !! i = Some o' ∧
             RequestState.state o' = RequestState.state o ∧
             RequestState.state_reason o' = RequestState.state_reason o ∧
             (is_Some (RequestState.id o) → o' = o)).
Proof.
  intros Hself r reqs old row Hrows Hreqs. exists row. split_and!.
  - rewrite (states_of_alter s' _ _ _ Hreqs) by done.
    unfold reqs. rewrite <- list_lookup_fmap, insert_rows_fmap, list_lookup_fmap by done.
    rewrite list_lookup_alter_eq. unfold states_of. now rewrite Hself.
  - rewrite Hrows. apply lookup_snoc_length, insert_rows_length.
  - done.
  - done.
  - rewrite Hrows, length_app. unfold old. rewrite insert_rows_length. simpl. lia.
  - intros i o Hi. rewrite Hrows.
    destruct (insert_rows_row reqs.1 (now s) _ (request_state_seq s) i o Hi)
      as (o' & Ho' & Hrest).
    exists o'. split; [apply lookup_app_l_Some, Ho'|exact Hrest].
Qed.

(** X4: every successful [add_state] appends exactly one entry to the
    history: [self.states] gains one reference, to a new row that carries the
    requested state and reason, and every row that existed is still there
    (a flushed row unchanged, a pending one with its state and reason). *)
Theorem add_state_appends (s s' : Session) (self : nat) (state reason : string) :
  Request_add_state self state reason s = (Return tt, s') →
  ∃ e row,
    state = RequestStateMapping.name e ∧
    states_of s' self = states_of s self ++ [length (request_state_objs s)] ∧
    request_state_objs s' !! length (request_state_objs s) = Some row ∧
    RequestState.state row = RequestStateMapping.value e ∧
    RequestState.state_reason row = reason ∧
    length (request_state_objs s') = S (length (request_state_objs s)) ∧
    (∀ i o, request_state_objs s !! i = Some o →
       ∃ o', request_state_objs s' !! i = Some o' ∧
             RequestState.state o' = RequestState.state o ∧
             RequestState.state_reason o' = RequestState.state_reason o ∧
             (is_Some (RequestState.id o) → o' = o)).
Proof.
  intros Hrun.
  destruct (add_state_Return s s' self state reason Hrun)
    as (e & this & v & -> & Hself & _ & _ & Hrows & Hreqs & _).
  destruct (add_state_history s s' self this _ _ reason Hself Hrows Hreqs)
    as (row & Hrest).
  exists e, row. split; [done|exact Hrest].
Qed.

Lemma add_state_appends_witness :
  ∃ row, request_state_objs complete_session !! 1%nat = Some row ∧
         RequestState.state_reason row = "done" ∧
         states_of complete_session 0 = states_of in_progress_session 0 ++ [1%nat].
Proof.
  destruct (add_state_appends in_progress_session complete_session 0 "complete" "done")
    as (e & row & _ & Hstates & Hrow & _ & Hreason & _).
  - vm_compute. reflexivity.
  - exists row. split_and!; [exact Hrow|exact Hreason|exact Hstates].
Defined.

(** [add_state] with a member name, once the guard has let it through. *)
Lemma add_state_passes (s : Session) (self : nat) (e : RequestStateMapping.t)
    (reason : string) :
  for_each (terminal_guard self (RequestStateMapping.name e)) ["complete"; "failed"] s =
    (Return tt, s) →
  Request_add_state self (RequestStateMapping.name e) reason s =
  add_state_tail self (RequestStateMapping.value e) reason s.
Proof.
  intros Hguards. rewrite add_state_unfold.
  now rewrite (proj2 (by_name_Some _ e) eq_refl), Hguards.
Qed.

Lemma Request_state_read_total (s : Session) (self : nat) (v : option nat) :
  Request_state self s = (Return v, s) →
  ∃ this held, request_objs s !! self = Some this ∧
               Request_state_read self s = (Return held, s).
Proof.
  intros Hrel. destruct (Request_state_Return _ _ _ _ Hrel) as [_ [this Hself]].
  exists this. eexists. split; [exact Hself|].
  exact (Request_state_read_eq s self this v Hself Hrel).
Qed.

(** X5: in a session that meets the constraints, a request whose
    relationship [state] gives no state, or a row in the state
    [in_progress], can move to any of the three states. *)
Theorem add_state_from_non_terminal (s : Session) (self : nat)
    (e : RequestStateMapping.t) (reason : string) :
  writable s →
  Request_state self s = (Return None, s) ∨
    (∃ r cur, Request_state self s = (Return (Some r), s) ∧
              request_state_objs s !! r = Some cur ∧
              RequestState.state cur =
                RequestStateMapping.value RequestStateMapping.in_progress) →
  ∃ s', Request_add_state self (RequestStateMapping.name e) reason s = (Return tt, s').
Proof.
  intros Hw Hcur.
  assert (Hguards : for_each (terminal_guard self (RequestStateMapping.name e))
                      ["complete"; "failed"] s = (Return tt, s)).
  { destruct Hcur as [Hnone|(r & cur & Hrel & Hr & Hstate)].
    - now apply terminal_guards_none.
    - rewrite (terminal_guards_reads s self r cur RequestStateMapping.in_progress) by done.
      reflexivity. }
  assert (∃ v, Request_state self s = (Return v, s)) as [v Hrel].
  { destruct Hcur as [?|(r & cur & ? & _)]; eauto. }
  destruct (Request_state_read_total s self v Hrel) as (this & held & Hself & Hread).
  rewrite (add_state_passes s self e reason Hguards).
  destruct (add_state_tail_spec self (RequestStateMapping.value e) reason s held Hread Hw)
    as (s' & -> & _). eauto.
Qed.

Lemma add_state_from_non_terminal_witness :
  ∃ s', Request_add_state 0 "failed" "the build failed" in_progress_session = (Return tt, s').
Proof.
  eapply (add_state_from_non_terminal in_progress_session 0 RequestStateMapping.failed).
  - apply (bool_decide_unpack _). vm_compute. exact I.
  - right. eexists _, _. split_and!; reflexivity.
Defined.

(** X27: the terminal guard, on what it reads.  On a request whose
    relationship [state] gives a row in the state [complete] or [failed], in
    a session that meets the constraints: [add_state] with any other string
    raises [ValidationError] (for a member name with the message of the
    guard), and the history is what it was; [add_state] with the name of
    that state and any reason returns, and adds one reference at the end of
    [self.states] that designates a new row with that state and that reason,
    every row that was there being kept. *)
Theorem add_state_terminal_guard (s : Session) (self r : nat) (cur : RequestState.t)
    (e : RequestStateMapping.t) :
  e = RequestStateMapping.complete ∨ e = RequestStateMapping.failed →
  writable s →
  Request_state self s = (Return (Some r), s) →
  request_state_objs s !! r = Some cur →
  RequestState.state cur = RequestStateMapping.value e →
  (∀ state reason, state ≠ RequestStateMapping.name e →
     ∃ msg s',
       Request_add_state self state reason s = (Raise (Exn ValidationError msg), s') ∧
       (is_Some (RequestStateMapping.by_name state) →
        msg = "A " +:+ RequestStateMapping.name e +:+ " request cannot change states") ∧
       states_of s' self = states_of s self ∧
       request_state_objs s' = request_state_objs s) ∧
  (∀ reason, ∃ s' row,
     Request_add_state self (RequestStateMapping.name e) reason s = (Return tt, s') ∧
     states_of s' self = states_of s self ++ [length (request_state_objs s)] ∧
     request_state_objs s' !! length (request_state_objs s) = Some row ∧
     RequestState.state row = RequestStateMapping.value e ∧
     RequestState.state_reason row = reason ∧
     length (request_state_objs s') = S (length (request_state_objs s)) ∧
     (∀ i o, request_state_objs s !! i = Some o →
        ∃ o', request_state_objs s' !! i = Some o' ∧
              RequestState.state o' = RequestState.state o ∧
              RequestState.state_reason o' = RequestState.state_reason o ∧
              (is_Some (RequestState.id o) → o' = o))).
Proof.
  intros He Hw Hrel Hr Hstate.
  split.
  - intros state reason Hne. rewrite add_state_unfold.
    destruct (RequestStateMapping.by_name state) as [e'|] eqn:Hname.
    + apply by_name_Some in Hname. subst state.
      rewrite (terminal_guards_reads s self r cur e) by done.
      destruct He as [-> | ->]; destruct e'; try (exfalso; apply Hne; reflexivity);
        cbn; eexists _, s; split_and!; done.
    + eexists _, s. split_and!; [reflexivity| |done..]. now intros [? ?].
  - intros reason.
    assert (Hguards : for_each (terminal_guard self (RequestStateMapping.name e))
                        ["complete"; "failed"] s = (Return tt, s)).
    { rewrite (terminal_guards_reads s self r cur e) by done.
      cbn. now do 2 destruct (bool_decide _). }
    destruct (Request_state_read_total s self _ Hrel) as (this & held & Hself & Hread).
    rewrite (add_state_passes s self e reason Hguards).
    destruct (add_state_tail_spec self (RequestStateMapping.value e) reason s held Hread Hw)
      as (s' & -> & Hrows & Hreqs & _).
    destruct (add_state_history s s' self this _ _ reason Hself Hrows Hreqs)
      as (row & Hrest).
    now exists s', row.
Qed.

Lemma add_state_terminal_guard_witness :
  (∃ msg s', Request_add_state 0 "in_progress" "x" reloaded_session =
             (Raise (Exn ValidationError msg), s') ∧
             states_of s' 0 = [0; 1]%nat) ∧
  (∃ s' row, Request_add_state 0 "complete" "new reason" reloaded_session = (Return tt, s') ∧
             request_state_objs s' !! 2%nat = Some row ∧
             RequestState.state_reason row = "new reason").
Proof.
  assert (Hw : writable reloaded_session) by (apply (bool_decide_unpack _); vm_compute; exact I).
  pose proof (add_state_terminal_guard reloaded_session 0 1 done_row
                RequestStateMapping.complete (or_introl eq_refl) Hw eq_refl eq_refl eq_refl)
    as [Hfail Hok].
  split.
  - destruct (Hfail "in_progress" "x") as (msg & s' & Hrun & _ & Hstates & _); [discriminate|].
    now exists msg, s'.
  - destruct (Hok "new reason") as (s' & row & Hrun & _ & Hrow & _ & Hreason & _).
    now exists s', row.
Defined.

(** X26: what the relationship [state] gives after a successful [add_state].
    On a request that had been flushed it gives what it gave before the
    call, whatever state was added; on a request that is flushed by this
    call it gives the row just added. *)
Theorem add_state_relationship (s s' : Session) (self : nat) (this : Request.t)
    (state reason : string) :
  ids_below_seq s →
  request_objs s !! self = Some this →
  Request_add_state self state reason s = (Return tt, s') →
  (is_Some (Request.id this) →
   ∃ v, Request_state self s = (Return v, s) ∧ Request_state self s' = (Return v, s')) ∧
  (Request.id this = None → Request.state_held this = None →
   ∃ row, Request_state self s' = (Return (Some (length (request_state_objs s))), s') ∧
          request_state_objs s' !! length (request_state_objs s) = Some row ∧
          RequestStateMapping.name <$> RequestStateMapping.by_value (RequestState.state row) =
            Some state).
Proof.
  intros Hids Hself Hrun.
  destruct (add_state_current s s' self state reason Hids Hrun)
    as [(this' & r & row & k & Hself' & Hlast & Hrow & Hname & _ & _ & Hk & Hfind) _].
  destruct (add_state_Return s s' self state reason Hrun)
    as (e & this0 & v & -> & Hself0 & Hrel & _ & Hrows & Hreqs & _).
  assert (this0 = this) as -> by congruence.
  set (reqs := insert_rows Request.id Request.set_id _ _) in *.
  destruct (insert_rows_request
              (alter (λ o, Request.set_states
                             (Request.states o ++ [length (request_state_objs s)]) o)
                     self (request_objs s))
              (request_seq s) self _
              ltac:(rewrite list_lookup_alter_eq, Hself; reflexivity))
    as (q & Hq & Hid & _ & Hstates & _ & Hheld).
  fold reqs in Hq.
  assert (Hthis' : this' = Request.set_request_state_id (Some k)
                     (if bool_decide (is_Some (Request.id this)) then Some v
                      else Request.state_held this) q).
  { pose proof Hself' as H. rewrite Hreqs, list_lookup_alter_eq, Hq in H. simpl in H.
    injection H as H. rewrite <- H in Hk |- *. simpl in Hk. now rewrite Hk. }
  assert (Hr : r = length (request_state_objs s)).
  { rewrite Hthis' in Hlast. simpl in Hlast. rewrite Hstates in Hlast. simpl in Hlast.
    rewrite last_snoc in Hlast. now injection Hlast as <-. }
  split.
  - intros Hflushed. exists v. split; [exact Hrel|].
    apply (Request_state_held s' self this'); [exact Hself'|].
    rewrite Hthis'. simpl. now rewrite bool_decide_eq_true_2.
  - intros Hnone Hheld0. exists row. rewrite <- Hr. split_and!; [|exact Hrow|exact Hname].
    rewrite (Request_state_loads s' self this' Hself').
    + rewrite Hthis'. simpl. now rewrite Hfind.
    + rewrite Hthis'. simpl. rewrite bool_decide_eq_false_2; [exact Hheld0|].
      rewrite Hnone. now intros [? ?].
    + rewrite Hthis'. exact Hid.
Qed.

Lemma add_state_relationship_witness :
  Request_state 0 complete_session = (Return (Some 0%nat), complete_session) ∧
  request_state_objs complete_session !! 0%nat = Some initiated_row.
Proof.
  assert (∃ this, request_objs in_progress_session !! 0%nat = Some this ∧
                  is_Some (Request.id this)) as (this & Hself & Hid).
  { eexists. split; [reflexivity|]. eexists. reflexivity. }
  destruct (add_state_relationship in_progress_session complete_session 0 this
              "complete" "done") as [Hkeeps _].
  - repeat constructor. simpl. intros k [= <-]. lia.
  - exact Hself.
  - vm_compute. reflexivity.
  - destruct (Hkeeps Hid) as (v & Hbefore & Hafter).
    vm_compute in Hbefore. injection Hbefore as <-. split; [exact Hafter|reflexivity].
Defined.


(** ** Architectures of an image *)

Lemma flushed_image_lookup (s : Session) (r : nat) (o : Image.t) :
  image_objs s !! r = Some o →
  ∃ o', image_objs (flushed s) !! r = Some o' ∧
        Image.pull_specification o' = Image.pull_specification o ∧
        Image.architectures o' = Image.architectures o ∧
        (is_Some (Image.id o) → o' = o).
Proof.
  intros Hr. unfold flushed; simpl.
  destruct (insert_rows_lookup Image.id Image.set_id (image_objs s) (image_seq s) r o Hr)
    as (o' & Ho' & Hcase).
  exists o'. split; [exact Ho'|].
  destruct Hcase as [->|(Hnone & k & ->)]; [done|].
  split_and!; [done..|]. rewrite Hnone. now intros [? ?].
Qed.

Lemma writable_add_architecture (s : Session) (n : string) :
  writable s →
  n ∉ Architecture.name <$> architecture_objs s →
  writable (set_architecture_objs (architecture_objs s ++ [Architecture.mk None n]) s).
Proof.
  intros (Hnames & Hspecs & Harchs & Hreqs & Hkeys & Hrows) Hnew.
  unfold writable; simpl. split_and!; try done.
  rewrite fmap_app. simpl.
  apply NoDup_app. split_and!; [exact Hnames| |apply NoDup_singleton].
  intros x Hx Hx'. apply list_elem_of_singleton in Hx'. now subst x.
Qed.

(** The first half of [add_architecture]: the architecture named [n] is
    looked up, and created and flushed when it is missing. *)
Lemma architecture_get_or_create (s : Session) (n : string) :
  writable s →
  ∃ arch s1 o,
    (∀ B (k : nat → M Session B),
       (arch' ← Architecture_query_first n;
        arch ← match arch' with
               | Some r => mret r
               | None =>
                   r ← Session_add_architecture (Architecture.mk None n);
                   Session_flush;;
                   mret r
               end;
        k arch) s = k arch s1) ∧
    all_persistent s1 ∧
    writable s1 ∧
    image_objs s1 = image_objs (flushed s) ∧
    list_find (λ o, Architecture.name o = n) (architecture_objs s1) = Some (arch, o) ∧
    (architecture_objs s1 = architecture_objs (flushed s) ∨
     (n ∉ Architecture.name <$> architecture_objs (flushed s)) ∧
     Architecture.name <$> architecture_objs s1 =
       (Architecture.name <$> architecture_objs (flushed s)) ++ [n]).
Proof.
  intros Hw. pose proof (writable_flushed s Hw) as Hw0.
  unfold Architecture_query_first.
  destruct (list_find (λ o, Architecture.name o = n) (architecture_objs (flushed s)))
    as [[r o]|] eqn:Hfind.
  - exists r, (flushed s), o. split_and!; try done; [|apply flushed_all_persistent|by left].
    intros B k. rewrite (bind_Return _ _ s (flushed s) (Some r)); [done|].
    rewrite (bind_Return _ _ _ _ _ (Session_flush_writable s Hw)).
    mrun. now rewrite Hfind.
  - set (s0 := flushed s) in *.
    set (sa := set_architecture_objs (architecture_objs s0 ++ [Architecture.mk None n]) s0).
    destruct (flushed_all_persistent s) as (Hpa & Hpi & Hpr & Hps). fold s0 in Hpa, Hpi, Hpr, Hps.
    assert (Harchs : architecture_objs (flushed sa) =
                     architecture_objs s0 ++ [Architecture.mk (Some (architecture_seq s0)) n]).
    { unfold flushed at 1, sa. simpl. rewrite insert_rows_app. simpl.
      now rewrite (insert_rows_persistent _ _ (architecture_objs s0)) by done. }
    assert (Himgs : image_objs (flushed sa) = image_objs s0).
    { unfold flushed at 1, sa. simpl. now rewrite insert_rows_persistent by done. }
    assert (Hnone := Hfind). apply list_find_None in Hnone.
    assert (Hnew : n ∉ Architecture.name <$> architecture_objs s0).
    { intros Hin. apply list_elem_of_fmap in Hin as (o & Ho & Hin).
      rewrite Forall_forall in Hnone. now apply (Hnone o Hin). }
    assert (Hwa : writable sa) by now apply writable_add_architecture.
    exists (length (architecture_objs s0)), (flushed sa),
           (Architecture.mk (Some (architecture_seq s0)) n).
    split_and!; [|apply flushed_all_persistent|now apply writable_flushed|done| |right].
    + intros B k.
      rewrite (bind_Return _ _ s s0 None).
      2:{ rewrite (bind_Return _ _ _ _ _ (Session_flush_writable s Hw)).
          mrun. fold s0. now rewrite Hfind. }
      rewrite (bind_Return _ _ s0 (flushed sa) (length (architecture_objs s0))); [done|].
      rewrite (bind_Return _ _ s0 sa (length (architecture_objs s0))) by reflexivity.
      now rewrite (bind_Return _ _ _ _ _ (Session_flush_writable sa Hwa)).
    + rewrite Harchs, list_find_app_r by done. simpl.
      rewrite decide_True by done. simpl. do 2 f_equal.
    + split; [done|]. rewrite Harchs, fmap_app. done.
Qed.

Lemma all_persistent_alter_image (s : Session) (r arch : nat) :
  all_persistent s →
  all_persistent (set_image_objs (alter (append_architecture arch) r (image_objs s)) s).
Proof.
  intros (Ha & Hi & Hr & Hs). split_and!; simpl; try done.
  apply Forall_lookup. intros i o Hio.
  rewrite list_lookup_alter in Hio. destruct (decide (r = i)) as [->|Hne].
  - apply fmap_Some in Hio as (o0 & Ho0 & ->). simpl.
    now apply (Forall_lookup_1 _ _ _ _ Hi Ho0).
  - now apply (Forall_lookup_1 _ _ _ _ Hi Hio).
Qed.

Lemma fmap_alter_same {A B} (g : A → B) (f : A → A) (i : nat) (l : list A) :
  (∀ x, g (f x) = g x) → g <$> alter f i l = g <$> l.
Proof.
  intros Hf. revert i. induction l as [|x l IH]; intros i; [done|].
  destruct i as [|i]; simpl; [now rewrite Hf|]. f_equal. apply IH.
Qed.

Lemma writable_alter_image (s : Session) (r arch : nat) (img : Image.t) :
  writable s →
  image_objs s !! r = Some img →
  arch ∉ Image.architectures img →
  writable (set_image_objs (alter (append_architecture arch) r (image_objs s)) s).
Proof.
  intros (Hnames & Hspecs & Harchs & Hreqs & Hkeys & Hrows) Hr Hnew.
  unfold writable; simpl. split_and!; try done.
  - now rewrite fmap_alter_same.
  - apply Forall_lookup. intros i o Hio.
    rewrite list_lookup_alter in Hio. destruct (decide (r = i)) as [->|Hne].
    + rewrite Hr in Hio. injection Hio as <-. simpl.
      apply NoDup_app. split_and!; [exact (Forall_lookup_1 _ _ _ _ Harchs Hr)| |apply NoDup_singleton].
      intros x Hx Hx'. apply list_elem_of_singleton in Hx'. now subst x.
    + exact (Forall_lookup_1 _ _ _ _ Harchs Hio).
Qed.

(** [add_architecture] on an existing image, in terms of the architecture
    [arch] that the lookup finds or creates and of the session [s1] at that
    point. *)
Lemma add_architecture_run (s : Session) (self : nat) (n : string) (img : Image.t) :
  writable s →
  image_objs s !! self = Some img →
  ∃ arch a s1 img0,
    Image_add_architecture self n s =
      (Return tt,
       if bool_decide (arch ∈ Image.architectures img0) then s1
       else set_image_objs (alter (append_architecture arch) self (image_objs s1)) s1) ∧
    all_persistent s1 ∧
    writable s1 ∧
    image_objs s1 = image_objs (flushed s) ∧
    image_objs s1 !! self = Some img0 ∧
    Image.architectures img0 = Image.architectures img ∧
    Image.pull_specification img0 = Image.pull_specification img ∧
    list_find (λ o, Architecture.name o = n) (architecture_objs s1) = Some (arch, a) ∧
    (architecture_objs s1 = architecture_objs (flushed s) ∨
     (n ∉ Architecture.name <$> architecture_objs (flushed s)) ∧
     Architecture.name <$> architecture_objs s1 =
       (Architecture.name <$> architecture_objs (flushed s)) ++ [n]).
Proof.
  intros Hw Hself.
  destruct (architecture_get_or_create s n Hw)
    as (arch & s1 & a & Hrun & Hpers & Hw1 & Himgs & Hfind & Hnames).
  destruct (flushed_image_lookup s self img Hself) as (img0 & Himg0 & Hspec & Harchs & _).
  exists arch, a, s1, img0. split.
  { unfold Image_add_architecture. rewrite Hrun.
    unfold Session_image, Session_update_image. mrun. rewrite Himgs, Himg0.
    destruct (bool_decide (arch ∈ Image.architectures img0)); simpl; now rewrite ?Himgs. }
  split_and!; try done. now rewrite Himgs.
Qed.

(** X6: in a session that meets the constraints, [add_architecture] on an
    existing image returns for every name (it never raises
    [ValidationError]); afterwards the image has an architecture of that
    name, appended at the end of its list when it was not there, and the
    pull specification of every image and the architecture list of every
    other image are what they were. *)
Theorem add_architecture_attaches (s : Session) (self : nat) (n : string) (img : Image.t) :
  writable s →
  image_objs s !! self = Some img →
  ∃ s' arch a img',
    Image_add_architecture self n s = (Return tt, s') ∧
    architecture_objs s' !! arch = Some a ∧
    Architecture.name a = n ∧
    image_objs s' !! self = Some img' ∧
    arch ∈ Image.architectures img' ∧
    (Image.architectures img' = Image.architectures img ∨
     (arch ∉ Image.architectures img) ∧
     Image.architectures img' = Image.architectures img ++ [arch]) ∧
    (∀ r o, image_objs s !! r = Some o →
       ∃ o', image_objs s' !! r = Some o' ∧
             Image.pull_specification o' = Image.pull_specification o ∧
             (r ≠ self → Image.architectures o' = Image.architectures o)).
Proof.
  intros Hw Hself.
  destruct (add_architecture_run s self n img Hw Hself)
    as (arch & a & s1 & img0 & -> & _ & _ & Himgs & Himg0 & Harchs & Hspec & Hfind & _).
  apply list_find_Some in Hfind as (Ha & Hname & _).
  destruct (bool_decide (arch ∈ Image.architectures img0)) eqn:Hin.
  - apply bool_decide_eq_true in Hin.
    exists s1, arch, a, img0. split_and!; try done.
    + left. done.
    + intros r o Hr. rewrite Himgs.
      destruct (flushed_image_lookup s r o Hr) as (o' & Ho' & ? & ? & _). eauto.
  - apply bool_decide_eq_false in Hin.
    eexists _, arch, a, (append_architecture arch img0). split_and!; try done.
    + simpl. rewrite list_lookup_alter_eq, Himg0. done.
    + simpl. set_solver.
    + right. rewrite <- Harchs. done.
    + intros r o Hr. simpl.
      destruct (flushed_image_lookup s r o Hr) as (o' & Ho' & Hs' & Ha' & _).
      rewrite <- Himgs in Ho'.
      destruct (decide (self = r)) as [<-|Hne].
      * rewrite list_lookup_alter_eq, Ho'. eexists. split; [done|]. simpl.
        split; [done|]. intros []. done.
      * rewrite list_lookup_alter_ne by done. eauto.
Qed.

Lemma add_architecture_attaches_witness :
  ∃ s' arch a img',
    Image_add_architecture 0 "amd64" in_progress_session = (Return tt, s') ∧
    architecture_objs s' !! arch = Some a ∧ Architecture.name a = "amd64" ∧
    image_objs s' !! 0%nat = Some img' ∧ arch ∈ Image.architectures img'.
Proof.
  destruct (add_architecture_attaches in_progress_session 0 "amd64"
              (Image.mk (Some 1) "quay.io/ns/bundle:v1" [])
              ltac:(apply (bool_decide_unpack _); vm_compute; exact I) eq_refl)
    as (s' & arch & a & img' & H1 & H2 & H3 & H4 & H5 & _).
  exists s', arch, a, img'. done.
Defined.

(** X7: in a session that meets the constraints, [add_architecture] is
    idempotent: a second call with the same image and name leaves the session
    exactly as the first call left it. *)
Theorem add_architecture_idempotent (s : Session) (self : nat) (n : string) (img : Image.t) :
  writable s →
  image_objs s !! self = Some img →
  ∃ s1,
    Image_add_architecture self n s = (Return tt, s1) ∧
    Image_add_architecture self n s1 = (Return tt, s1).
Proof.
  intros Hw Hself.
  destruct (add_architecture_run s self n img Hw Hself)
    as (arch & a & s1 & img0 & -> & Hpers & Hw1 & _ & Himg0 & _ & _ & Hfind & _).
  eexists. split; [reflexivity|].
  set (s' := if bool_decide (arch ∈ Image.architectures img0) then s1
             else set_image_objs (alter (append_architecture arch) self (image_objs s1)) s1).
  assert (Hpers' : all_persistent s').
  { unfold s'. destruct (bool_decide _); [done|]. now apply all_persistent_alter_image. }
  assert (Hw' : writable s').
  { unfold s'. destruct (bool_decide (arch ∈ Image.architectures img0)) eqn:Hin; [done|].
    apply bool_decide_eq_false in Hin. now apply (writable_alter_image s1 self arch img0). }
  assert (Harchs' : architecture_objs s' = architecture_objs s1).
  { unfold s'. now destruct (bool_decide _). }
  assert (∃ img', image_objs s' !! self = Some img' ∧ arch ∈ Image.architectures img')
    as (img' & Himg' & Hin').
  { unfold s'. destruct (bool_decide (arch ∈ Image.architectures img0)) eqn:Hin.
    - apply bool_decide_eq_true in Hin. eauto.
    - exists (append_architecture arch img0). simpl.
      rewrite list_lookup_alter_eq, Himg0. split; [done|]. simpl. set_solver. }
  unfold Image_add_architecture, Architecture_query_first.
  rewrite (bind_Return _ _ s' s' (Some arch)).
  2:{ rewrite (bind_Return _ _ _ _ _ (Session_flush_writable s' Hw')).
      rewrite (flushed_fixed s') by done. mrun. now rewrite Harchs', Hfind. }
  unfold Session_image. mrun.
  rewrite Himg', bool_decide_eq_true_2 by done. reflexivity.
Qed.

Lemma add_architecture_idempotent_witness :
  ∃ s1, Image_add_architecture 0 "amd64" in_progress_session = (Return tt, s1) ∧
        Image_add_architecture 0 "amd64" s1 = (Return tt, s1).
Proof.
  exact (add_architecture_idempotent in_progress_session 0 "amd64"
           (Image.mk (Some 1) "quay.io/ns/bundle:v1" [])
           ltac:(apply (bool_decide_unpack _); vm_compute; exact I) eq_refl).
Defined.

(** X8: [add_architecture] keeps the unique constraint on architecture names
    and never lists an architecture twice on the image. *)
Theorem add_architecture_keeps_unique (s s' : Session) (self : nat) (n : string)
    (img : Image.t) :
  image_objs s !! self = Some img →
  unique_architecture_names s →
  NoDup (Image.architectures img) →
  Image_add_architecture self n s = (Return tt, s') →
  unique_architecture_names s' ∧
  ∃ img', image_objs s' !! self = Some img' ∧ NoDup (Image.architectures img').
Proof.
  intros Hself Huniq Hnodup Hrun.
  assert (Hw : writable s).
  { destruct (decide (writable s)) as [Hw|Hw]; [done|]. exfalso. revert Hrun.
    unfold Image_add_architecture.
    rewrite (bind_Raise _ _ s s (Exn IntegrityError "constraint failed")); [done|].
    unfold Architecture_query_first.
    now rewrite (bind_Raise _ _ _ _ _ (Session_flush_raises s Hw)). }
  revert Hrun.
  destruct (add_architecture_run s self n img Hw Hself)
    as (arch & a & s1 & img0 & -> & _ & _ & _ & Himg0 & Harchs & _ & _ & Hnames).
  assert (Huniq0 : NoDup (Architecture.name <$> architecture_objs (flushed s))).
  { unfold flushed; simpl. now rewrite insert_rows_fmap. }
  assert (Huniq1 : unique_architecture_names s1).
  { unfold unique_architecture_names. destruct Hnames as [->|[Hnew ->]]; [done|].
    apply NoDup_app. split_and!; [done| |apply NoDup_singleton].
    intros x Hx Hx'. apply list_elem_of_singleton in Hx'. now subst x. }
  intros [= <-].
  destruct (bool_decide (arch ∈ Image.architectures img0)) eqn:Hin.
  - split; [done|]. exists img0. now rewrite Harchs.
  - apply bool_decide_eq_false in Hin. split; [done|].
    exists (append_architecture arch img0). simpl.
    rewrite list_lookup_alter_eq, Himg0. split; [done|]. simpl.
    apply NoDup_app. split_and!; [now rewrite Harchs| |apply NoDup_singleton].
    intros x Hx Hx'. apply list_elem_of_singleton in Hx'. now subst x.
Qed.

Lemma add_architecture_keeps_unique_witness :
  unique_architecture_names amd64_session.
Proof.
  apply (add_architecture_keeps_unique in_progress_session amd64_session 0 "amd64"
           (Image.mk (Some 1) "quay.io/ns/bundle:v1" [])).
  - reflexivity.
  - constructor.
  - constructor.
  - vm_compute. reflexivity.
Defined.
(** ** More on the JSON projection *)

(** [to_json] on a request whose references resolve: the flat fields are
    collected in [rv0], which has no state field yet, and the projection is
    the state part of the function run on it. *)
Lemma to_json_base (s : Session) (self : nat) (this : Request.t)
    (rows : list RequestState.t) :
  projectable s self this rows →
  ∃ rv0 : gmap string value,
    rv0 !! "state_history" = None ∧ rv0 !! "state" = None ∧
    rv0 !! "state_reason" = None ∧ rv0 !! "updated" = None ∧
    ∀ verbose : bool,
    Request_to_json self verbose s =
    ('(rv, latest_state) ←
       (if verbose then
          states ← list_comp (λ r, state ← Session_request_state r; _state_to_json state)
                             (Request.states this);
          let states := reverse states in
          let rv := <["state_history" := VList (VDict <$> states)]> rv0 in
          latest_state ← lift (states !! 0%nat) (Exn IndexError "list index out of range");
          mret (rv, Some latest_state)
        else mret (rv0, None));
     d ←
       match latest_state with
       | Some d => if truthy (VDict d) then mret d else current_state_to_json self
       | None => current_state_to_json self
       end;
     mret (dict_update rv d)) s.
Proof.
  intros (Hself & [b Hb] & Hbin & Hbinr & Hfrom & Hfromr & Hindex & Hbundles & Harch & Hrows).
  destruct (arches_Return s this Hindex Harch) as (arches & Harches).
  destruct (Hbin b Hb) as [bo Hbo].
  destruct (pull_specification_of_Return s _ Hbinr) as (vbinr & Hvbinr).
  destruct (bundles_Return s _ Hbundles) as (vbundles & Hvbundles).
  destruct (pull_specification_of_Return s _ Hfrom) as (vfrom & Hvfrom).
  destruct (pull_specification_of_Return s _ Hfromr) as (vfromr & Hvfromr).
  destruct (pull_specification_of_Return s _ Hindex) as (vindex & Hvindex).
  eexists. split_and!; [| | | |].
  5:{ intros verbose. unfold Request_to_json.
      assert (Hthis : Session_request self s = (Return this, s)).
      { unfold Session_request. mrun. now rewrite Hself. }
      rewrite (bind_Return _ _ _ _ _ Hthis).
      rewrite (bind_Return _ _ _ _ _ Harches).
      assert (Hbinary :
                match Request.binary_image this with
                | None => raise (none_has_no "pull_specification")
                | Some r => o ← Session_image r; mret (VStr (Image.pull_specification o))
                end s = (Return (VStr (Image.pull_specification bo)), s)).
      { rewrite Hb. now rewrite (bind_Return _ _ _ _ _ (Session_image_Return s b bo Hbo)). }
      rewrite (bind_Return _ _ _ _ _ Hbinary).
      rewrite (bind_Return _ _ _ _ _ Hvbinr).
      rewrite (bind_Return _ _ _ _ _ Hvbundles).
      rewrite (bind_Return _ _ _ _ _ Hvfrom).
      rewrite (bind_Return _ _ _ _ _ Hvfromr).
      rewrite (bind_Return _ _ _ _ _ Hvindex).
      reflexivity. }
  all: cbn [dict_update foldl fst snd]; by simplify_map_eq.
Qed.

(** X10: the projection of a request without any state fails: verbose, on
    an empty history, with [IndexError]; not verbose, on a request whose
    [request_state_id] is not set and whose relationship [state] holds
    nothing from an earlier load, with [AttributeError]. *)
Theorem to_json_without_state (s : Session) (self : nat) (this : Request.t) :
  projectable s self this [] →
  (Request_to_json self true s =
     (Raise (Exn IndexError "list index out of range"), s)) ∧
  (Request.request_state_id this = None →
   Request.state_held this = None →
   Request_to_json self false s = (Raise (none_has_no "state"), s)).
Proof.
  intros Hproj. assert (Hp := Hproj).
  destruct Hp as (Hself & _ & _ & _ & _ & _ & _ & _ & _ & Hrows).
  apply Forall2_nil_inv_r in Hrows. split.
  - destruct (to_json_base s self this [] Hproj) as (rv0 & _ & _ & _ & _ & ->).
    rewrite Hrows. reflexivity.
  - intros Hnone Hheld.
    destruct (to_json_base s self this [] Hproj) as (rv0 & _ & _ & _ & _ & ->).
    assert (Hrel : Request_state self s = (Return None, s)).
    { unfold Request_state.
      rewrite (bind_Return _ _ _ _ _ (Session_request_Return s self this Hself)).
      rewrite Hheld, Hnone. now destruct (Request.id this). }
    unfold current_state_to_json. mrun. now rewrite Hrel.
Qed.

(** X11: when the relationship [state] gives the newest row of the
    history, the two projections agree: the verbose one is the other one
    with [state_history] added, and the other one has no [state_history]. *)
Theorem to_json_verbose_extends (s : Session) (self r : nat) (this : Request.t)
    (rows : list RequestState.t) (newest : RequestState.t)
    (ds : list (list (string * value))) :
  projectable s self this (rows ++ [newest]) →
  mapM state_json (rows ++ [newest]) = Some ds →
  Request_state self s = (Return (Some r), s) →
  request_state_objs s !! r = Some newest →
  ∃ rv,
    Request_to_json self false s = (Return rv, s) ∧
    rv !! "state_history" = None ∧
    Request_to_json self true s =
      (Return (<["state_history" := VList (VDict <$> reverse ds)]> rv), s).
Proof.
  intros Hproj Hds Hrel Hr.
  assert (Hrows : Forall2 (λ r row, request_state_objs s !! r = Some row)
                          (Request.states this) (rows ++ [newest])) by apply Hproj.
  assert (Hall := Hds). apply mapM_Some in Hall.
  apply Forall2_app_inv_l in Hall as (ds1 & ds2 & _ & Hlast & ->).
  apply Forall2_cons_inv_l in Hlast as (dn & ds3 & Hdn & Hnil & ->).
  apply Forall2_nil_inv_l in Hnil as ->.
  assert (Hjson := Hdn). unfold state_json in Hjson.
  destruct (RequestStateMapping.by_value _) as [e|] eqn:He; [simpl in Hjson|discriminate].
  destruct (RequestState.updated newest) as [u|] eqn:Hu; [simpl in Hjson|discriminate].
  injection Hjson as <-.
  assert (Hflat : current_state_to_json self s =
                  (Return [("state", VStr (RequestStateMapping.name e));
                           ("state_reason", VStr (RequestState.state_reason newest));
                           ("updated", VStr (isoformat u +:+ "Z"))], s)).
  { unfold current_state_to_json. rewrite (bind_Return _ _ _ _ _ Hrel).
    unfold lift at 1. rewrite (bind_Return (ret r) _ s s r eq_refl).
    assert (Hrow : Session_request_state r s = (Return newest, s)).
    { unfold Session_request_state. mrun. now rewrite Hr. }
    rewrite (bind_Return _ _ _ _ _ Hrow). now apply _state_to_json_Return. }
  destruct (to_json_base s self this _ Hproj) as (rv0 & H0 & H1 & H2 & H3 & Hrun).
  eexists. split_and!.
  - rewrite Hrun. mrun. rewrite Hflat. reflexivity.
  - cbn [dict_update foldl fst snd]. by simplify_map_eq.
  - rewrite Hrun.
    pose proof (states_to_json_Return s _ _ _ Hrows Hds) as Hstates.
    revert Hstates. mrun. intros Hstates. rewrite Hstates.
    rewrite reverse_snoc. cbn [lookup list_lookup truthy length].
    rewrite bool_decide_eq_false_2 by done. cbn [negb].
    apply (f_equal (λ m, (Return m, s))). cbn [dict_update foldl fst snd].
    apply map_eq. intros k.
    destruct (decide (k = "state_history")) as [->|Hk]; [by simplify_map_eq|].
    rewrite (lookup_insert_ne _ "state_history" k) by done.
    destruct (decide (k = "updated")) as [->|Hk1]; [by simplify_map_eq|].
    destruct (decide (k = "state_reason")) as [->|Hk2]; [by simplify_map_eq|].
    destruct (decide (k = "state")) as [->|Hk3]; [by simplify_map_eq|].
    by simplify_map_eq.
Qed.

Lemma to_json_verbose_extends_witness :
  ∃ rv, Request_to_json 0 false reloaded_session = (Return rv, reloaded_session) ∧
        rv !! "state_history" = None ∧
        rv !! "state" = Some (VStr "complete").
Proof.
  destruct (to_json_verbose_extends reloaded_session 0 1
              (Request.mk (Some 1) (Some 1%nat) None [0%nat] (Some 2%nat) None None
                          (Some 2) (Some 1) None [0%nat; 1%nat] None)
              [initiated_row] done_row
              [[("state", VStr "in_progress");
                ("state_reason", VStr "The request was initiated");
                ("updated", VStr "2020-01-01T00:00:00Z")];
               [("state", VStr "complete"); ("state_reason", VStr "done");
                ("updated", VStr "2020-01-01T00:00:00Z")]])
    as (rv & Hrun & Hnone & _).
  - unfold projectable, image_ref_ok. split_and!.
    + reflexivity.
    + eexists; reflexivity.
    + intros r [= <-]. eexists; reflexivity.
    + discriminate.
    + intros r [= <-]. eexists; reflexivity.
    + discriminate.
    + discriminate.
    + repeat constructor. eexists; reflexivity.
    + discriminate.
    + repeat constructor.
  - vm_compute. reflexivity.
  - reflexivity.
  - reflexivity.
  - exists rv. split_and!; [exact Hrun|exact Hnone|].
    assert (Hrv : (Request_to_json 0 false reloaded_session).1 = Return rv) by now rewrite Hrun.
    vm_compute in Hrv. injection Hrv as <-. reflexivity.
Defined.


Lemma to_json_without_state_witness :
  Request_to_json 0 true stateless_session =
    (Raise (Exn IndexError "list index out of range"), stateless_session) ∧
  Request_to_json 0 false stateless_session =
    (Raise (none_has_no "state"), stateless_session).
Proof.
  destruct (to_json_without_state stateless_session 0 stateless_request) as [Hv Hn].
  - unfold projectable, image_ref_ok. split_and!.
    + reflexivity.
    + eexists; reflexivity.
    + intros r [= <-]. eexists; reflexivity.
    + discriminate.
    + discriminate.
    + discriminate.
    + discriminate.
    + constructor.
    + discriminate.
    + constructor.
  - split; [exact Hv|apply Hn; reflexivity].
Defined.
(** ** More on request construction *)

Lemma not_a_nonempty_str_false (x : value) :
  not_a_nonempty_str x = false ↔ ∃ a, x = VStr a ∧ a ≠ "".
Proof.
  unfold not_a_nonempty_str. rewrite orb_false_iff, !negb_false_iff. split.
  - intros [Ht Hs]. apply bool_decide_eq_true in Hs as [a Ha].
    destruct x; try discriminate. injection Ha as ->. exists a. split; [done|].
    simpl in Ht. apply negb_true_iff, bool_decide_eq_false in Ht. done.
  - intros (a & -> & Ha). simpl. now rewrite bool_decide_eq_false_2.
Qed.

Lemma all_nonempty_strs (l : list value) :
  existsb not_a_nonempty_str l = false ↔
  ∃ strs, l = VStr <$> strs ∧ Forall (λ a, a ≠ "") strs.
Proof.
  induction l as [|x l IH]; simpl.
  - split; [exists []; by split|done].
  - rewrite orb_false_iff, IH, not_a_nonempty_str_false. split.
    + intros [(a & -> & Ha) (strs & -> & Hstrs)]. exists (a :: strs). by split; [|constructor].
    + intros (strs & Heq & Hstrs). destruct strs as [|a strs]; [discriminate|].
      injection Heq as -> ->. inversion Hstrs; subst. split; eauto.
Qed.

Lemma elem_of_required_params (k : string) :
  k ∈ required_params ↔ k = "bundles" ∨ k = "binary_image".
Proof. unfold required_params. set_solver. Qed.

Lemma elem_of_optional_params (k : string) :
  k ∈ optional_params ↔ k = "from_index" ∨ k = "add_arches" ∨ k = "cnr_token".
Proof. unfold optional_params. set_solver. Qed.

Lemma required_param_present (kwargs : gmap string value) (k : string) :
  required_params ∖ dom kwargs ∖ optional_params = ∅ →
  k = "bundles" ∨ k = "binary_image" →
  is_Some (kwargs !! k).
Proof.
  intros Hmissing Hk. apply elem_of_dom.
  destruct (decide (k ∈ dom kwargs)) as [|Hnot]; [done|]. exfalso.
  assert (Hin : k ∈ required_params ∖ dom kwargs ∖ optional_params).
  { apply elem_of_difference. split.
    - apply elem_of_difference. split; [now apply elem_of_required_params|done].
    - rewrite elem_of_optional_params. destruct Hk as [-> | ->]; intros [?|[?|?]]; done. }
  rewrite Hmissing in Hin. set_solver.
Qed.

(** X12: the keys and the shapes of [bundles], [binary_image] and
    [add_arches] are validated before anything else happens: either the
    payload has the expected shape, or [from_json] raises [ValidationError]
    and the session is exactly as it was. *)
Theorem from_json_validates_first (kwargs : gmap string value) (user : option User.t)
    (s : Session) :
  (∃ msg, Request_from_json kwargs user s = (Raise (Exn ValidationError msg), s)) ∨
  (∃ bundles binary_image arches, payload_shape kwargs bundles binary_image arches).
Proof.
  rewrite from_json_unfold.
  destruct (bool_decide (required_params ∖ dom kwargs ∖ optional_params = ∅)) eqn:Hmissing;
    cbn [negb]; [|eauto].
  destruct (bool_decide (dom kwargs ∖ required_params ∖ optional_params = ∅)) eqn:Hinvalid;
    cbn [negb]; [|eauto].
  destruct (negb (truthy (dict_get kwargs "from_index")) &&
            negb (truthy (dict_get kwargs "add_arches"))) eqn:Heither; [eauto|].
  destruct (as_list (default (VList []) (kwargs !! "add_arches"))) as [la|] eqn:Harches;
    [|eauto].
  destruct (existsb not_a_nonempty_str la) eqn:Hla; [eauto|].
  apply all_nonempty_strs in Hla as (arches & -> & Harches_ok).
  apply bool_decide_eq_true in Hmissing, Hinvalid.
  assert (Hb : is_Some (kwargs !! "bundles")) by (apply required_param_present; auto).
  assert (Hi : is_Some (kwargs !! "binary_image")) by (apply required_param_present; auto).
  destruct Hb as [vb Hvb]. destruct Hi as [vi Hvi].
  unfold from_json_build.
  rewrite (lookup_delete_ne kwargs "add_arches" "bundles"), Hvb by done. cbn [lift].
  rewrite (bind_Return (ret vb) _ s s vb eq_refl).
  destruct (as_list vb) as [lb|] eqn:Hlb; [|left; eexists; reflexivity].
  destruct (bool_decide (length lb = 0%nat)) eqn:Hlen; [left; eexists; reflexivity|].
  destruct (existsb not_a_nonempty_str lb) eqn:Hlb_ok; [left; eexists; reflexivity|].
  cbn [orb when_]. rewrite (bind_Return (ret tt) _ s s tt eq_refl).
  rewrite (lookup_delete_ne _ "bundles" "binary_image") by done.
  rewrite (lookup_delete_ne kwargs "add_arches" "binary_image"), Hvi by done. cbn [lift].
  rewrite (bind_Return (ret vi) _ s s vi eq_refl).
  destruct (negb (bool_decide (is_Some (as_str vi))) || negb (truthy vi)) eqn:Hvi_ok;
    [left; eexists; reflexivity|].
  right.
  apply all_nonempty_strs in Hlb_ok as (bundles & -> & Hbundles_ok).
  apply orb_false_iff in Hvi_ok as [Hstr Htruthy].
  apply negb_false_iff, bool_decide_eq_true in Hstr as [binary Hbinary].
  destruct vi; try discriminate. injection Hbinary as ->.
  simpl in Htruthy. apply negb_false_iff, negb_true_iff, bool_decide_eq_false in Htruthy.
  destruct vb; try discriminate. injection Hlb as ->.
  destruct (default (VList []) (kwargs !! "add_arches")) eqn:Hdef; try discriminate.
  injection Harches as ->.
  exists bundles, binary, arches. unfold payload_shape, strings_value.
  split_and!; try done.
  - intros k Hk. apply elem_of_union.
    destruct (decide (k ∈ required_params)) as [|Hr]; [by left|right].
    destruct (decide (k ∈ optional_params)) as [|Ho]; [done|exfalso].
    assert (Hin : k ∈ dom kwargs ∖ required_params ∖ optional_params) by set_solver.
    rewrite Hinvalid in Hin. set_solver.
  - intros ->. apply bool_decide_eq_false in Hlen. done.
  - apply andb_false_iff in Heither as [H|H]; apply negb_false_iff in H; [by left|right].
    unfold dict_get in H. destruct (kwargs !! "add_arches") as [v|]; [|done].
    simpl in Hdef. subst v. intros ->. simpl in H. done.
Qed.

Lemma flushed_specs (s : Session) :
  pull_specifications (flushed s) = pull_specifications s.
Proof. apply flushed_pull_specifications. Qed.

Lemma flushed_ids_below (s : Session) : ids_below_seq s → ids_below_seq (flushed s).
Proof. intros Hids. unfold ids_below_seq, flushed. simpl. now apply insert_rows_below. Qed.

Lemma flushed_lengths (s : Session) :
  length (request_objs (flushed s)) = length (request_objs s) ∧
  length (request_state_objs (flushed s)) = length (request_state_objs s).
Proof. unfold flushed; simpl. split; apply insert_rows_length. Qed.

(** [get_or_create] on a pull specification with a separator, in a session
    that meets the constraints: it returns an image with that pull
    specification, and the images that existed keep their references and
    pull specifications. *)
Lemma get_or_create_resolves (ps : string) (s : Session) :
  has_separator ps →
  writable s →
  ∃ r s',
    Image_get_or_create ps s = (Return r, s') ∧
    pull_specifications s' !! r = Some ps ∧
    pull_specifications s `prefix_of` pull_specifications s' ∧
    writable s' ∧
    length (request_objs s') = length (request_objs s) ∧
    length (request_state_objs s') = length (request_state_objs s) ∧
    (ids_below_seq s → ids_below_seq s').
Proof.
  intros Hsep Hw. rewrite (get_or_create_accepts ps s Hsep Hw).
  pose proof (writable_flushed s Hw) as Hw0.
  destruct (flushed_lengths s) as [Hlr Hls].
  destruct (list_find _ (image_objs (flushed s))) as [[r o]|] eqn:Hfind.
  - exists r, (flushed s). apply list_find_Some in Hfind as (Hr & Hps & _).
    split_and!; try done.
    + unfold pull_specifications. rewrite list_lookup_fmap, Hr. simpl. now rewrite Hps.
    + now rewrite flushed_specs.
    + apply flushed_ids_below.
  - set (s1 := set_image_objs (image_objs (flushed s) ++ [Image.mk None ps []]) (flushed s)).
    exists (length (image_objs (flushed s))), s1. split; [reflexivity|].
    apply list_find_None in Hfind.
    assert (Hspecs : pull_specifications s1 = pull_specifications s ++ [ps]).
    { unfold pull_specifications, s1. cbn [image_objs set_image_objs].
      now rewrite fmap_app, flushed_pull_specifications. }
    split_and!; try done.
    + rewrite Hspecs.
      rewrite <- (length_fmap Image.pull_specification), flushed_pull_specifications.
      unfold pull_specifications. now rewrite lookup_app_r, Nat.sub_diag by lia.
    + rewrite Hspecs. by eexists.
    + now apply writable_add_image.
    + apply flushed_ids_below.
Qed.

Lemma prefix_lookup_keeps (l k : list string) (i : nat) (x : string) :
  l `prefix_of` k → l !! i = Some x → k !! i = Some x.
Proof. intros [t ->] Hi. now apply lookup_app_l_Some. Qed.

(** The list comprehension of [from_json] over the bundles. *)
Lemma bundles_get_or_create (bundles : list string) (s : Session) :
  Forall has_separator bundles →
  writable s →
  ∃ refs s',
    list_comp (λ bundle, ps ← str_arg bundle; Image_get_or_create ps)
              (VStr <$> bundles) s = (Return refs, s') ∧
    Forall2 (λ r ps, pull_specifications s' !! r = Some ps) refs bundles ∧
    pull_specifications s `prefix_of` pull_specifications s' ∧
    writable s' ∧
    length (request_objs s') = length (request_objs s) ∧
    length (request_state_objs s') = length (request_state_objs s) ∧
    (ids_below_seq s → ids_below_seq s').
Proof.
  intros Hsep. revert s. induction Hsep as [|ps bundles Hps _ IH]; intros s Hw.
  - exists [], s. split_and!; done.
  - destruct (get_or_create_resolves ps s Hps Hw)
      as (r & s1 & Hrun & Hr & Hpre & Hw1 & Hlr & Hls & Hids).
    destruct (IH s1 Hw1) as (refs & s2 & Hrest & Hrefs & Hpre' & Hw2 & Hlr' & Hls' & Hids').
    exists (r :: refs), s2. split_and!.
    + rewrite fmap_cons. cbn [list_comp].
      assert (Hone : (ps0 ← str_arg (VStr ps); Image_get_or_create ps0) s = (Return r, s1)).
      { unfold str_arg, lift. cbn [as_str].
        now rewrite (bind_Return (ret ps) _ s s ps eq_refl). }
      rewrite (bind_Return _ _ _ _ _ Hone), (bind_Return _ _ _ _ _ Hrest). reflexivity.
    + constructor; [|done]. eapply prefix_lookup_keeps; eauto.
    + etrans; eauto.
    + done.
    + congruence.
    + congruence.
    + auto.
Qed.

Lemma from_json_param_skips (kw : request_kwargs) (param : string) (s : Session) :
  (truthy (default VNone (kw_json kw !! param)) = true →
   param ≠ "from_index" ∧ is_Some (as_str (default VNone (kw_json kw !! param)))) →
  from_json_param kw param s =
  (Return (mkKwargs (delete param (kw_json kw)) (kw_bundles kw) (kw_binary_image kw)
                    (kw_from_index kw) (kw_user kw) (kw_type kw)), s).
Proof.
  intros Hv. unfold from_json_param.
  destruct (truthy (default VNone (kw_json kw !! param))) eqn:Ht.
  - destruct (Hv eq_refl) as [Hne Hstr].
    rewrite (bool_decide_eq_true_2 _ Hstr). cbn [negb andb when_].
    rewrite (bind_Return (ret tt) _ s s tt eq_refl).
    rewrite bool_decide_eq_false_2 by done. reflexivity.
  - cbn [andb when_]. rewrite (bind_Return (ret tt) _ s s tt eq_refl).
    now rewrite andb_false_r.
Qed.

Lemma from_json_param_resolves (kw : request_kwargs) (fi : string) (s : Session) :
  kw_json kw !! "from_index" = Some (VStr fi) → fi ≠ "" →
  from_json_param kw "from_index" s =
  (image ← Image_get_or_create fi;
   mret (mkKwargs (delete "from_index" (kw_json kw)) (kw_bundles kw) (kw_binary_image kw)
                  (Some image) (kw_user kw) (kw_type kw))) s.
Proof.
  intros Hfi Hne. unfold from_json_param. rewrite Hfi. cbn [default from_option id truthy as_str].
  rewrite (bool_decide_eq_false_2 (fi = "")) by done.
  rewrite (bool_decide_eq_true_2 (is_Some (Some fi))) by eauto.
  cbn [negb andb when_]. rewrite (bind_Return (ret tt) _ s s tt eq_refl).
  rewrite bool_decide_eq_true_2 by done. cbn [andb].
  unfold str_arg, lift. cbn [as_str].
  now rewrite (bind_Return (ret fi) _ s s fi eq_refl).
Qed.

Lemma payload_keys_consumed (kwargs : gmap string value) :
  dom kwargs ⊆ required_params ∪ optional_params →
  delete "cnr_token"
    (delete "from_index"
       (delete "binary_image" (delete "bundles" (delete "add_arches" kwargs)))) = ∅.
Proof.
  intros Hdom. apply map_eq. intros k. rewrite lookup_empty.
  destruct (kwargs !! k) as [v|] eqn:Hk.
  - assert (Hin : k ∈ required_params ∪ optional_params).
    { apply Hdom, elem_of_dom. eauto. }
    apply elem_of_union in Hin as [Hin|Hin].
    + apply elem_of_required_params in Hin as [-> | ->]; by simplify_map_eq.
    + apply elem_of_optional_params in Hin as [-> | [-> | ->]]; by simplify_map_eq.
  - rewrite !lookup_delete. repeat case_decide; done.
Qed.

Lemma shaped_payload_passes (kwargs : gmap string value) (user : option User.t)
    (s : Session) (bundles : list string) (binary_image : string) (arches : list string) :
  payload_shape kwargs bundles binary_image arches →
  Request_from_json kwargs user s = from_json_build (delete "add_arches" kwargs) user s.
Proof.
  intros (Hdom & Hb & Hbne & Hbok & Hi & Hine & Ha & Haok & Heither).
  rewrite from_json_unfold.
  assert (Hmissing : required_params ∖ dom kwargs ∖ optional_params = ∅).
  { apply set_eq. intros k. split; [|set_solver].
    intros [[Hreq Hnot]%elem_of_difference _]%elem_of_difference. exfalso. apply Hnot.
    apply elem_of_dom. apply elem_of_required_params in Hreq as [-> | ->]; eauto. }
  assert (Hinvalid : dom kwargs ∖ required_params ∖ optional_params = ∅) by set_solver.
  rewrite (bool_decide_eq_true_2 _ Hmissing), (bool_decide_eq_true_2 _ Hinvalid).
  cbn [negb].
  assert (Heither' : negb (truthy (dict_get kwargs "from_index")) &&
                     negb (truthy (dict_get kwargs "add_arches")) = false).
  { destruct Heither as [->|Hne]; [done|]. apply andb_false_iff. right.
    unfold dict_get. destruct (kwargs !! "add_arches") as [v|].
    - simpl in Ha. subst v. destruct arches; [done|]. reflexivity.
    - simpl in Ha. destruct arches; [done|discriminate]. }
  rewrite Heither', Ha. unfold strings_value. cbn [as_list].
  now rewrite arches_value_ok.
Qed.



Lemma writable_add_request (s : Session) (req0 : Request.t) :
  Request.request_state_id req0 = None →
  writable (set_request_objs (request_objs s ++ [req0]) s) ↔
  writable s ∧ Request_writable req0.
Proof.
  intros Hnone. unfold writable; simpl.
  rewrite Forall_app, Forall_singleton, omap_app. simpl. rewrite Hnone. simpl.
  rewrite app_nil_r. tauto.
Qed.

(** The references of the bundles repeat exactly when the pull
    specifications do. *)
Lemma bundle_refs_NoDup (specs : list string) (refs : list nat) (bundles : list string) :
  Forall2 (λ r ps, specs !! r = Some ps) refs bundles →
  (NoDup bundles → NoDup refs) ∧ (NoDup specs → NoDup refs → NoDup bundles).
Proof.
  induction 1 as [|r ps refs bundles Hr Hrest [IH1 IH2]]; [split; constructor|].
  split.
  - intros Hnd. apply NoDup_cons in Hnd as [Hnew Hnd]. apply NoDup_cons.
    split; [|auto]. intros Hin. apply Hnew.
    apply list_elem_of_lookup in Hin as [i Hi].
    destruct (Forall2_lookup_l _ _ _ _ _ Hrest Hi) as (ps' & Hps' & Hr').
    simpl in Hr'. assert (ps' = ps) as -> by congruence.
    eapply list_elem_of_lookup_2; eauto.
  - intros Hspecs Hnd. apply NoDup_cons in Hnd as [Hnew Hnd]. apply NoDup_cons.
    split; [|auto]. intros Hin. apply Hnew.
    apply list_elem_of_lookup in Hin as [i Hi].
    destruct (Forall2_lookup_r _ _ _ _ _ Hrest Hi) as (r' & Hr' & Hps').
    simpl in Hps'. assert (r' = r) as ->.
    { exact (NoDup_lookup specs r' r ps Hspecs Hps' Hr). }
    eapply list_elem_of_lookup_2; eauto.
Qed.

(** The end of [from_json]: the request is constructed and given its first
    state. *)
Lemma new_request_in_progress (req0 : Request.t) (s : Session) :
  Request.id req0 = None →
  Request.request_state_id req0 = None →
  Request.states req0 = [] →
  Request.state_held req0 = None →
  Request_writable req0 →
  writable s →
  ∃ s' req row,
    (request ← Session_add_request req0;
     Request_add_state request "in_progress" "The request was initiated";;
     mret request) s = (Return (length (request_objs s)), s') ∧
    request_objs s' !! length (request_objs s) = Some req ∧
    Request.type req = Request.type req0 ∧
    Request.user req = Request.user req0 ∧
    Request.bundles req = Request.bundles req0 ∧
    Request.binary_image req = Request.binary_image req0 ∧
    Request.from_index req = Request.from_index req0 ∧
    Request.binary_image_resolved req = Request.binary_image_resolved req0 ∧
    Request.from_index_resolved req = Request.from_index_resolved req0 ∧
    Request.index_image req = Request.index_image req0 ∧
    Request.states req = [length (request_state_objs s)] ∧
    request_state_objs s' !! length (request_state_objs s) = Some row ∧
    RequestState.state row = RequestStateMapping.value RequestStateMapping.in_progress ∧
    RequestState.state_reason row = "The request was initiated" ∧
    RequestState.updated row = Some (now s') ∧
    is_Some (RequestState.id row) ∧
    Request.request_state_id req = RequestState.id row ∧
    pull_specifications s' = pull_specifications s ∧
    (ids_below_seq s →
     ids_below_seq s' ∧
     Request_state (length (request_objs s)) s' =
       (Return (Some (length (request_state_objs s))), s')).
Proof.
  intros Hid0 Hnone Hstates Hheld0 Hreq0 Hw.
  set (r := length (request_objs s)).
  set (sA := set_request_objs (request_objs s ++ [req0]) s).
  assert (Hadd : Session_add_request req0 s = (Return r, sA)) by reflexivity.
  assert (HrA : request_objs sA !! r = Some req0).
  { unfold sA, r. simpl. now rewrite lookup_app_r, Nat.sub_diag by lia. }
  assert (HwA : writable sA) by now apply writable_add_request.
  assert (Hrel : Request_state r sA = (Return None, sA))
    by now apply (Request_state_unflushed sA r req0).
  pose proof (Request_state_read_eq sA r req0 None HrA Hrel) as Hread.
  rewrite Hid0, Hheld0 in Hread.
  rewrite (bool_decide_eq_false_2 (is_Some (@None Z))) in Hread by apply is_Some_None.
  destruct (add_state_tail_spec r
              (RequestStateMapping.value RequestStateMapping.in_progress)
              "The request was initiated" sA None Hread HwA)
    as (s' & Htail & Hrows & Hreqs & _ & Himgs & _ & Hnow).
  assert (Hstate : Request_add_state r "in_progress" "The request was initiated" sA
                   = (Return tt, s')).
  { rewrite <- Htail.
    apply (add_state_passes sA r RequestStateMapping.in_progress).
    now apply terminal_guards_none. }
  (* the request object after the flush *)
  set (appended := alter (λ o, Request.set_states
                                 (Request.states o ++ [length (request_state_objs sA)]) o)
                         r (request_objs sA)) in *.
  assert (Happ : appended !! r =
                 Some (Request.set_states [length (request_state_objs sA)] req0)).
  { unfold appended. rewrite list_lookup_alter_eq, HrA. simpl. now rewrite Hstates. }
  destruct (insert_rows_lookup Request.id Request.set_id appended (request_seq sA) r _ Happ)
    as (req1 & Hreq1 & Hcase).
  destruct (insert_rows_request appended (request_seq sA) r _ Happ)
    as (req1' & Hreq1' & Hid1 & _).
  assert (req1' = req1) as -> by congruence.
  match type of Hrows with _ = _ ++ [?x] => set (row0 := x) in * end.
  match type of Hreqs with _ = alter (Request.set_request_state_id ?k ?h) _ _ =>
    exists s', (Request.set_request_state_id k h req1), row0
  end.
  split.
  { rewrite (bind_Return _ _ _ _ _ Hadd), (bind_Return _ _ _ _ _ Hstate). reflexivity. }
  split.
  { rewrite Hreqs, list_lookup_alter_eq. fold r. now rewrite Hreq1. }
  assert (Hlen : length (request_state_objs sA) = length (request_state_objs s)) by done.
  rewrite <- Hlen.
  split_and!; try (destruct Hcase as [->|(_ & k & ->)]; done).
  - rewrite Hrows. apply lookup_snoc_length, insert_rows_length.
  - simpl. by rewrite Hnow.
  - unfold pull_specifications. now rewrite Himgs, flushed_pull_specifications.
  - intros Hids.
    destruct (add_state_current sA s' r "in_progress" "The request was initiated" Hids Hstate)
      as [(this & r' & row' & k & Hthis & Hlast & _ & _ & _ & _ & Hk & Hcur) Hids'].
    split; [exact Hids'|].
    assert (Hthis' := Hthis).
    rewrite Hreqs, list_lookup_alter_eq, Hreq1 in Hthis'. injection Hthis' as Hthis'.
    assert (Hsts : Request.states req1 = [length (request_state_objs sA)]).
    { destruct Hcase as [->|(_ & k' & ->)]; done. }
    rewrite <- Hthis' in Hlast. simpl in Hlast. rewrite Hsts in Hlast. injection Hlast as <-.
    rewrite (Request_state_loads s' r this Hthis).
    + rewrite Hk. simpl. rewrite Hcur. reflexivity.
    + now rewrite <- Hthis'.
    + now rewrite <- Hthis'.
Qed.


(** [from_json] on a payload of the expected shape: the bundle images and
    the binary image are staged, and the rest of the function runs on them. *)
Lemma from_json_images (kwargs : gmap string value) (user : option User.t)
    (s : Session) (bundles : list string) (binary_image : string) (arches : list string) :
  payload_shape kwargs bundles binary_image arches →
  Forall has_separator bundles →
  has_separator binary_image →
  writable s →
  ∃ refs b s2,
    Request_from_json kwargs user s =
      from_json_finish
        (mkKwargs (delete "binary_image" (delete "bundles" (delete "add_arches" kwargs)))
                  refs (Some b) None None None) user s2 ∧
    Forall2 (λ r ps, pull_specifications s2 !! r = Some ps) refs bundles ∧
    pull_specifications s2 !! b = Some binary_image ∧
    pull_specifications s `prefix_of` pull_specifications s2 ∧
    writable s2 ∧
    (ids_below_seq s → ids_below_seq s2) ∧
    length (request_objs s2) = length (request_objs s) ∧
    length (request_state_objs s2) = length (request_state_objs s).
Proof.
  intros Hshape Hbsep Hisep Hw.
  rewrite (shaped_payload_passes kwargs user s bundles binary_image arches Hshape).
  destruct Hshape as (Hdom & Hb & Hbne & Hbok & Hi & Hine & _).
  unfold from_json_build.
  rewrite (lookup_delete_ne kwargs "add_arches" "bundles"), Hb by done. cbn [lift].
  rewrite (bind_Return (ret (strings_value bundles)) _ s s _ eq_refl). cbv beta zeta.
  unfold strings_value. cbn [as_list].
  rewrite arches_value_ok by done.
  rewrite (bool_decide_eq_false_2 (length (VStr <$> bundles) = 0%nat))
    by (rewrite length_fmap; now destruct bundles).
  cbn [orb when_]. rewrite (bind_Return (ret tt) _ s s tt eq_refl).
  rewrite (lookup_delete_ne _ "bundles" "binary_image") by done.
  rewrite (lookup_delete_ne kwargs "add_arches" "binary_image"), Hi by done. cbn [lift].
  rewrite (bind_Return (ret (VStr binary_image)) _ s s _ eq_refl). cbv beta zeta.
  cbn [as_str truthy].
  rewrite (bool_decide_eq_true_2 (is_Some (Some binary_image))) by eauto.
  rewrite (bool_decide_eq_false_2 (binary_image = "")) by done.
  cbn [negb orb when_]. rewrite (bind_Return (ret tt) _ s s tt eq_refl).
  destruct (bundles_get_or_create bundles s Hbsep Hw)
    as (refs & s1 & Hrefs_run & Hrefs & Hpre1 & Hw1 & Hlr1 & Hls1 & Hids1).
  cbn [as_list default from_option id].
  rewrite (bind_Return _ _ _ _ _ Hrefs_run). cbv beta.
  destruct (get_or_create_resolves binary_image s1 Hisep Hw1)
    as (b & s2 & Hb_run & Hbspec & Hpre2 & Hw2 & Hlr2 & Hls2 & Hids2).
  assert (Hbinary : (ps ← str_arg (VStr binary_image); Image_get_or_create ps) s1
                    = (Return b, s2)).
  { unfold str_arg, lift. cbn [as_str].
    now rewrite (bind_Return (ret binary_image) _ s1 s1 _ eq_refl). }
  rewrite (bind_Return _ _ _ _ _ Hbinary). cbv beta.
  exists refs, b, s2. split_and!; [reflexivity| |done| |done|auto|congruence|congruence].
  - eapply Forall2_impl; [exact Hrefs|]. intros r ps Hr.
    eapply prefix_lookup_keeps; eauto.
  - etrans; eauto.
Qed.

(** The round of [from_index], on a payload whose [from_index] is a
    non-empty string or does not count. *)
Lemma from_json_index (kwargs json : gmap string value) (refs : list nat) (b : nat)
    (from_index : option string) (s2 : Session) :
  json !! "from_index" = kwargs !! "from_index" →
  from_index_is kwargs from_index →
  (∀ fi, from_index = Some fi → has_separator fi) →
  writable s2 →
  ∃ f_opt s3,
    from_json_param (mkKwargs json refs (Some b) None None None) "from_index" s2 =
      (Return (mkKwargs (delete "from_index" json) refs (Some b) f_opt None None), s3) ∧
    pull_specifications s2 `prefix_of` pull_specifications s3 ∧
    writable s3 ∧
    (ids_below_seq s2 → ids_below_seq s3) ∧
    length (request_objs s3) = length (request_objs s2) ∧
    length (request_state_objs s3) = length (request_state_objs s2) ∧
    match from_index with
    | Some fi => ∃ f, f_opt = Some f ∧ pull_specifications s3 !! f = Some fi
    | None => f_opt = None
    end.
Proof.
  intros Hlook Hindex Hfsep Hw.
  destruct from_index as [fi|]; simpl in Hindex.
  - destruct Hindex as [Hfi Hfine].
    destruct (get_or_create_resolves fi s2 (Hfsep fi eq_refl) Hw)
      as (f & s3 & Hf_run & Hfspec & Hpre3 & Hw3 & Hlr3 & Hls3 & Hids3).
    exists (Some f), s3. split_and!; try done; [|eauto].
    rewrite from_json_param_resolves with (fi := fi);
      [|cbn [kw_json]; rewrite Hlook; done|done].
    now rewrite (bind_Return _ _ _ _ _ Hf_run).
  - exists None, s2. split_and!; try done.
    apply from_json_param_skips. cbn [kw_json]. rewrite Hlook.
    unfold dict_get in Hindex. rewrite Hindex. discriminate.
Qed.

(** [from_json] on a payload of the expected shape whose pull specifications
    carry a separator, up to the construction of the request. *)
Lemma from_json_prepares (kwargs : gmap string value) (user : option User.t)
    (s : Session) (bundles : list string) (binary_image : string) (arches : list string)
    (from_index : option string) :
  payload_shape kwargs bundles binary_image arches →
  from_index_is kwargs from_index →
  cnr_token_ok kwargs →
  Forall has_separator bundles →
  has_separator binary_image →
  (∀ fi, from_index = Some fi → has_separator fi) →
  writable s →
  ∃ refs b f_opt s3,
    Request_from_json kwargs user s =
      (request ←
         Session_add_request
           (Request.mk None (Some b) None refs f_opt None None None
                       (Some (RequestTypeMapping.value RequestTypeMapping.add)) user [] None);
       Request_add_state request "in_progress" "The request was initiated";;
       mret request) s3 ∧
    writable s3 ∧
    Forall2 (λ r ps, pull_specifications s3 !! r = Some ps) refs bundles ∧
    pull_specifications s3 !! b = Some binary_image ∧
    match from_index with
    | Some fi => ∃ f, f_opt = Some f ∧ pull_specifications s3 !! f = Some fi
    | None => f_opt = None
    end ∧
    pull_specifications s `prefix_of` pull_specifications s3 ∧
    (ids_below_seq s → ids_below_seq s3) ∧
    length (request_objs s3) = length (request_objs s) ∧
    length (request_state_objs s3) = length (request_state_objs s).
Proof.
  intros Hshape Hindex Hcnr Hbsep Hisep Hfsep Hw.
  destruct (from_json_images kwargs user s bundles binary_image arches Hshape Hbsep Hisep Hw)
    as (refs & b & s2 & -> & Hrefs & Hbspec & Hpre2 & Hw2 & Hids2 & Hlr2 & Hls2).
  destruct Hshape as (Hdom & _).
  set (json1 := delete "binary_image" (delete "bundles" (delete "add_arches" kwargs))).
  assert (Hlook : ∀ k, k = "from_index" ∨ k = "cnr_token" → json1 !! k = kwargs !! k).
  { intros k [-> | ->]; unfold json1; by rewrite !lookup_delete_ne. }
  destruct (from_json_index kwargs json1 refs b from_index s2 (Hlook _ (or_introl eq_refl))
              Hindex Hfsep Hw2)
    as (f_opt & s3 & Hparam & Hpre3 & Hw3 & Hids3 & Hlr3 & Hls3 & Hf).
  unfold from_json_finish.
  rewrite (bind_Return _ _ _ _ _ Hparam). cbv beta.
  assert (Htoken : truthy (default VNone (kw_json
                      (mkKwargs (delete "from_index" json1) refs (Some b) f_opt None None)
                      !! "cnr_token")) = true →
                   "cnr_token" ≠ "from_index" ∧
                   is_Some (as_str (default VNone (kw_json
                      (mkKwargs (delete "from_index" json1) refs (Some b) f_opt None None)
                      !! "cnr_token")))).
  { cbn [kw_json]. rewrite lookup_delete_ne, Hlook by auto. intros Ht. split; [done|].
    now apply Hcnr. }
  rewrite (bind_Return _ _ _ _ _ (from_json_param_skips _ "cnr_token" s3 Htoken)); cbv beta.
  cbn [kw_json kw_bundles kw_binary_image kw_from_index kw_user kw_type].
  unfold json1. rewrite (payload_keys_consumed kwargs Hdom).
  rewrite bool_decide_eq_true_2 by done. cbn [negb when_].
  rewrite (bind_Return (ret tt) _ s3 s3 tt eq_refl). cbv beta.
  exists refs, b, f_opt, s3. split_and!; [reflexivity|done| |  |done| |auto|congruence|congruence].
  - eapply Forall2_impl; [exact Hrefs|]. intros r ps Hr. eapply prefix_lookup_keeps; eauto.
  - eapply prefix_lookup_keeps; eauto.
  - etrans; eauto.
Qed.

(** X13: in a session that meets the constraints, a payload of the expected
    shape whose pull specifications all carry a tag or a digest and whose
    bundles are all different is constructed: [from_json] returns a request
    of type [add] for the caller's user, whose bundles are, position by
    position, the images of the given pull specifications, with its binary
    image and index image, no resolved image, and exactly one state,
    [in_progress] with the reason ["The request was initiated"], which is its
    current state.  The images that existed keep their references, and the
    unique constraint on pull specifications and the bound of the
    [request_state] keys by their sequence hold afterwards. *)
Theorem from_json_constructs (kwargs : gmap string value) (user : option User.t)
    (s : Session) (bundles : list string) (binary_image : string) (arches : list string)
    (from_index : option string) :
  payload_shape kwargs bundles binary_image arches →
  from_index_is kwargs from_index →
  cnr_token_ok kwargs →
  Forall has_separator bundles →
  has_separator binary_image →
  (∀ fi, from_index = Some fi → has_separator fi) →
  NoDup bundles →
  writable s →
  ids_below_seq s →
  ∃ r s',
    Request_from_json kwargs user s = (Return r, s') ∧
    constructed s' r user bundles binary_image from_index ∧
    pull_specifications s `prefix_of` pull_specifications s' ∧
    unique_pull_specifications s' ∧
    ids_below_seq s'.
Proof.
  intros Hshape Hindex Hcnr Hbsep Hisep Hfsep Hnd Hw Hids.
  destruct (from_json_prepares kwargs user s bundles binary_image arches from_index
              Hshape Hindex Hcnr Hbsep Hisep Hfsep Hw)
    as (refs & b & f_opt & s3 & -> & Hw3 & Hrefs & Hbspec & Hf & Hpre3 & Hids3 & _ & _).
  destruct (new_request_in_progress
              (Request.mk None (Some b) None refs f_opt None None None
                          (Some (RequestTypeMapping.value RequestTypeMapping.add)) user []
                          None)
              s3 eq_refl eq_refl eq_refl eq_refl)
    as (s' & req & row & Hrun & Hreq & Htype & Huser & Hbundles & Hbin & Hfrom & Hbinr &
        Hfromr & Hidx & Hstates & Hrow & Hstate & Hreason & Hupd & Hid & Hptr & Hspecs &
        Hcur).
  { split_and!; simpl; [eauto|eauto|].
    now apply (bundle_refs_NoDup (pull_specifications s3) refs bundles). }
  { exact Hw3. }
  destruct (Hcur (Hids3 Hids)) as [Hids' Hcurrent].
  exists (length (request_objs s3)), s'. split; [exact Hrun|].
  assert (Hkeep : ∀ r ps, pull_specifications s3 !! r = Some ps →
                          pull_specifications s' !! r = Some ps).
  { intros r ps Hr. now rewrite Hspecs. }
  split_and!.
  - exists req, (length (request_state_objs s3)), row.
    split_and!; try done.
    + rewrite Hbundles. simpl.
      eapply Forall2_impl; [exact Hrefs|]. intros r ps Hr. now apply Hkeep.
    + exists b. rewrite Hbin. split; [done|]. now apply Hkeep.
    + rewrite Hfrom. simpl. destruct from_index as [fi|].
      * destruct Hf as (f & -> & Hfspec). exists f. split; [done|]. now rewrite Hspecs.
      * done.
  - now rewrite Hspecs.
  - unfold unique_pull_specifications. fold (pull_specifications s').
    rewrite Hspecs. apply Hw3.
  - exact Hids'.
Qed.

Lemma from_json_constructs_witness :
  ∃ r s', Request_from_json example_payload None empty_session = (Return r, s') ∧
          constructed s' r None ["quay.io/ns/bundle:v1"] "quay.io/ns/opm:v1"
                      (Some "quay.io/ns/index:v1").
Proof.
  assert (Hsep : ∀ ps, bool_decide (":"%char ∈ list_ascii_of_string ps) = true →
                       has_separator ps).
  { intros ps Hps. left. now apply bool_decide_eq_true in Hps. }
  destruct (from_json_constructs example_payload None empty_session
              ["quay.io/ns/bundle:v1"] "quay.io/ns/opm:v1" [] (Some "quay.io/ns/index:v1"))
    as (r & s' & Hrun & Hnew & _).
  - unfold payload_shape. split_and!; try done.
    + apply (bool_decide_unpack _). vm_compute. exact I.
    + repeat constructor; done.
    + left. reflexivity.
  - split; [reflexivity|done].
  - intros Ht. vm_compute in Ht. discriminate.
  - constructor; [|constructor]. apply Hsep. reflexivity.
  - apply Hsep. reflexivity.
  - intros fi [= <-]. apply Hsep. reflexivity.
  - apply NoDup_singleton.
  - apply (bool_decide_unpack _). vm_compute. exact I.
  - constructor.
  - exists r, s'. split; [exact Hrun|exact Hnew].
Defined.


(** ** Projection of a freshly constructed request *)

Lemma image_spec_Return (s : Session) (b : nat) (ps : string) :
  pull_specifications s !! b = Some ps →
  (o ← Session_image b; mret (VStr (Image.pull_specification o))) s = (Return (VStr ps), s).
Proof.
  unfold pull_specifications. rewrite list_lookup_fmap.
  destruct (image_objs s !! b) as [o|] eqn:Ho; [|discriminate]. intros [= <-].
  now rewrite (bind_Return _ _ _ _ _ (Session_image_Return s b o Ho)).
Qed.

Lemma bundle_specs_Return (s : Session) (refs : list nat) (bundles : list string) :
  Forall2 (λ r ps, pull_specifications s !! r = Some ps) refs bundles →
  list_comp (λ b, bundle ← Session_image b; mret (VStr (Image.pull_specification bundle)))
            refs s = (Return (VStr <$> bundles), s).
Proof.
  induction 1 as [|r ps refs bundles Hr _ IH]; [done|].
  cbn [list_comp]. rewrite (bind_Return _ _ _ _ _ (image_spec_Return s r ps Hr)).
  now rewrite (bind_Return _ _ _ _ _ IH).
Qed.

(** X14: the projection of a freshly constructed request echoes the payload
    it was constructed from: the pull specifications of the bundles in their
    order, of the binary image and of the index image, the user name, the
    state [in_progress] with its reason and the time of the session; no
    resolved image, no architecture (whatever [add_arches] the payload
    carried), and, when verbose, a history of exactly that one state. *)
Theorem to_json_of_constructed (s : Session) (r : nat) (user : option User.t)
    (bundles : list string) (binary_image : string) (from_index : option string)
    (verbose : bool) :
  constructed s r user bundles binary_image from_index →
  ∃ rv,
    Request_to_json r verbose s = (Return rv, s) ∧
    rv !! "bundles" = Some (strings_value bundles) ∧
    rv !! "binary_image" = Some (VStr binary_image) ∧
    rv !! "from_index" = Some (opt_str from_index) ∧
    rv !! "user" = Some (opt_str (User.username <$> user)) ∧
    rv !! "arches" = Some (VList []) ∧
    rv !! "binary_image_resolved" = Some VNone ∧
    rv !! "from_index_resolved" = Some VNone ∧
    rv !! "index_image" = Some VNone ∧
    rv !! "state" = Some (VStr "in_progress") ∧
    rv !! "state_reason" = Some (VStr "The request was initiated") ∧
    rv !! "updated" = Some (VStr (isoformat (now s) +:+ "Z")) ∧
    rv !! "state_history" =
      (if verbose then
         Some (VList [VDict [("state", VStr "in_progress");
                             ("state_reason", VStr "The request was initiated");
                             ("updated", VStr (isoformat (now s) +:+ "Z"))]])
       else None).
Proof.
  intros (req & st & row & Hreq & Htype & Huser & Hbundles & (b & Hb & Hbspec) & Hfrom &
          Hbinr & Hfromr & Hidx & Hstates & Hrow & Hstate & Hreason & Hupd & Hid & Hptr &
          Hcur).
  set (d := [("state", VStr "in_progress");
             ("state_reason", VStr "The request was initiated");
             ("updated", VStr (isoformat (now s) +:+ "Z"))]).
  assert (Hd : state_json row = Some d).
  { unfold state_json. rewrite Hstate, Hupd, Hreason. reflexivity. }
  assert (Hrow_run : Session_request_state st s = (Return row, s)).
  { unfold Session_request_state. mrun. now rewrite Hrow. }
  assert (Hflat : current_state_to_json r s = (Return d, s)).
  { unfold current_state_to_json. rewrite (bind_Return _ _ _ _ _ Hcur).
    unfold lift at 1. rewrite (bind_Return (ret st) _ s s st eq_refl).
    rewrite (bind_Return _ _ _ _ _ Hrow_run). now apply _state_to_json_Return. }
  assert (Hfrom_run : pull_specification_of (Request.from_index req) s =
                      (Return (opt_str from_index), s)).
  { destruct from_index as [fi|].
    - destruct Hfrom as (f & -> & Hf). apply (image_spec_Return s f fi Hf).
    - now rewrite Hfrom. }
  assert (Hthis : Session_request r s = (Return req, s)).
  { unfold Session_request. mrun. now rewrite Hreq. }
  unfold Request_to_json.
  rewrite (bind_Return _ _ _ _ _ Hthis). cbv beta.
  rewrite Hidx, Hb, Hbinr, Hfromr.
  erewrite bind_Return by reflexivity. cbv beta.
  rewrite (bind_Return _ _ _ _ _ (image_spec_Return s b binary_image Hbspec)). cbv beta.
  erewrite bind_Return by reflexivity. cbv beta.
  rewrite (bind_Return _ _ _ _ _ (bundle_specs_Return s _ _ Hbundles)). cbv beta.
  rewrite (bind_Return _ _ _ _ _ Hfrom_run). cbv beta.
  erewrite bind_Return by reflexivity. cbv beta.
  erewrite bind_Return by reflexivity. cbv beta zeta.
  rewrite Huser.
  destruct verbose.
  - pose proof (states_to_json_Return s [st] [row] [d]) as Hhist.
    rewrite Hstates.
    rewrite (bind_Return _ _ _ _ _
               (bind_Return _ (λ states, _) _ _ _
                  (Hhist ltac:(by repeat constructor) ltac:(simpl; by rewrite Hd)))).
    eexists. split; [reflexivity|].
    cbn [dict_update foldl fst snd]. split_and!; by simplify_map_eq.
  - erewrite bind_Return by reflexivity. cbv beta iota.
    rewrite (bind_Return _ _ _ _ _ Hflat).
    eexists. split; [reflexivity|].
    cbn [dict_update foldl fst snd]. split_and!; by simplify_map_eq.
Qed.

Lemma to_json_of_constructed_witness :
  ∃ rv, Request_to_json 0 true in_progress_session = (Return rv, in_progress_session) ∧
        rv !! "bundles" = Some (strings_value ["quay.io/ns/bundle:v1"]) ∧
        rv !! "from_index" = Some (VStr "quay.io/ns/index:v1") ∧
        rv !! "state" = Some (VStr "in_progress").
Proof.
  destruct (to_json_of_constructed in_progress_session 0 None ["quay.io/ns/bundle:v1"]
              "quay.io/ns/opm:v1" (Some "quay.io/ns/index:v1") true)
    as (rv & Hrun & Hbundles & _ & Hfrom & _ & _ & _ & _ & _ & Hstate & _).
  - exists (Request.mk (Some 1) (Some 1%nat) None [0%nat] (Some 2%nat) None None
                       (Some 1) (Some 1) None [0%nat] None),
           0%nat, (RequestState.mk (Some 1) (Some 1) 1 "The request was initiated"
                                   (Some t0) (Some 0%nat)).
    split_and!; try reflexivity.
    + repeat constructor.
    + exists 1%nat. split; reflexivity.
    + exists 2%nat. split; reflexivity.
    + eexists; reflexivity.
  - exists rv. split_and!; [exact Hrun|exact Hbundles|exact Hfrom|exact Hstate].
Defined.

Lemma from_json_param_rejects (kw : request_kwargs) (param : string) (v : value)
    (s : Session) :
  kw_json kw !! param = Some v → truthy v = true → as_str v = None →
  from_json_param kw param s =
  (Raise (Exn ValidationError (dq +:+ param +:+ dq +:+ " must be a string")), s).
Proof.
  intros Hv Ht Hs. unfold from_json_param. rewrite Hv. cbn [default from_option id].
  rewrite Ht, Hs.
  rewrite (bool_decide_eq_false_2 (is_Some (@None string))) by apply is_Some_None.
  reflexivity.
Qed.

(** X15: [from_index] and [cnr_token] are validated only after the bundle
    images and the binary image have been staged.  In a session that meets
    the constraints, when one of them counts and is not a string,
    [from_json] raises [ValidationError] for it and creates no request, but
    the images of the payload are in the session by then. *)
Theorem from_json_late_validation (kwargs : gmap string value) (user : option User.t)
    (s : Session) (bundles : list string) (binary_image : string) (arches : list string)
    (param : string) (v : value) :
  payload_shape kwargs bundles binary_image arches →
  Forall has_separator bundles →
  has_separator binary_image →
  writable s →
  param = "from_index" ∨
    (param = "cnr_token" ∧
     ∃ from_index, from_index_is kwargs from_index ∧
                   ∀ fi, from_index = Some fi → has_separator fi) →
  kwargs !! param = Some v → truthy v = true → as_str v = None →
  ∃ s',
    Request_from_json kwargs user s =
      (Raise (Exn ValidationError (dq +:+ param +:+ dq +:+ " must be a string")), s') ∧
    Forall (λ ps, ps ∈ pull_specifications s') (binary_image :: bundles) ∧
    length (request_objs s') = length (request_objs s).
Proof.
  intros Hshape Hbsep Hisep Hw Hparam Hv Ht Hs.
  destruct (from_json_images kwargs user s bundles binary_image arches Hshape Hbsep Hisep Hw)
    as (refs & b & s2 & -> & Hrefs & Hbspec & _ & Hw2 & _ & Hlen2 & _).
  set (json1 := delete "binary_image" (delete "bundles" (delete "add_arches" kwargs))).
  assert (Hlook : ∀ k, k = "from_index" ∨ k = "cnr_token" → json1 !! k = kwargs !! k).
  { intros k [-> | ->]; unfold json1; by rewrite !lookup_delete_ne. }
  assert (Hstaged : ∀ s3, pull_specifications s2 `prefix_of` pull_specifications s3 →
                          Forall (λ ps, ps ∈ pull_specifications s3) (binary_image :: bundles)).
  { intros s3 Hpre. constructor.
    - eapply list_elem_of_lookup_2, prefix_lookup_keeps; eauto.
    - apply Forall2_Forall_r with (P := λ r ps, pull_specifications s2 !! r = Some ps)
                                  (l := refs); [exact Hrefs|].
      apply Forall_forall. intros r _ ps Hr.
      eapply list_elem_of_lookup_2, prefix_lookup_keeps; eauto. }
  unfold from_json_finish.
  destruct Hparam as [-> | (-> & from_index & Hindex & Hfsep)].
  - exists s2. split_and!; [|now apply Hstaged|done].
    rewrite <- Hlook in Hv by auto.
    pose proof (from_json_param_rejects (mkKwargs json1 refs (Some b) None None None)
                  "from_index" v s2 Hv Ht Hs) as Hraise.
    unfold mbind, M_bind, bind at 1. now rewrite Hraise.
  - destruct (from_json_index kwargs json1 refs b from_index s2
                (Hlook _ (or_introl eq_refl)) Hindex Hfsep Hw2)
      as (f_opt & s3 & Hrun & Hpre3 & _ & _ & Hlen3 & _).
    exists s3. split_and!; [|now apply Hstaged|congruence].
    rewrite (bind_Return _ _ _ _ _ Hrun). cbv beta.
    assert (Hv' : kw_json (mkKwargs (delete "from_index" json1) refs (Some b) f_opt None None)
                  !! "cnr_token" = Some v).
    { cbn [kw_json]. rewrite lookup_delete_ne, Hlook by auto. exact Hv. }
    pose proof (from_json_param_rejects _ "cnr_token" v s3 Hv' Ht Hs) as Hraise.
    unfold mbind, M_bind, bind at 1. now rewrite Hraise.
Qed.

Lemma from_json_late_validation_witness :
  ∃ s', Request_from_json (<["from_index" := VInt 7]> example_payload) None empty_session =
          (Raise (Exn ValidationError (dq +:+ "from_index" +:+ dq +:+ " must be a string")),
           s') ∧
        Forall (λ ps, ps ∈ pull_specifications s')
               ["quay.io/ns/opm:v1"; "quay.io/ns/bundle:v1"].
Proof.
  assert (Hsep : ∀ ps, bool_decide (":"%char ∈ list_ascii_of_string ps) = true →
                       has_separator ps).
  { intros ps Hps. left. now apply bool_decide_eq_true in Hps. }
  destruct (from_json_late_validation (<["from_index" := VInt 7]> example_payload) None
              empty_session ["quay.io/ns/bundle:v1"] "quay.io/ns/opm:v1" [] "from_index"
              (VInt 7))
    as (s' & Hrun & Hstaged & _).
  - unfold payload_shape. split_and!; try done.
    + apply (bool_decide_unpack _). vm_compute. exact I.
    + repeat constructor; done.
    + left. reflexivity.
  - constructor; [|constructor]. apply Hsep. reflexivity.
  - apply Hsep. reflexivity.
  - apply (bool_decide_unpack _). vm_compute. exact I.
  - left. reflexivity.
  - reflexivity.
  - reflexivity.
  - reflexivity.
  - exists s'. split; [exact Hrun|exact Hstaged].
Defined.
(** ** More on the retry decorator *)

Lemma count_level_app (l : log_level) (r1 r2 : list log_record) :
  count_level l (r1 ++ r2) = (count_level l r1 + count_level l r2)%nat.
Proof. unfold count_level. now rewrite filter_app, length_app. Qed.

Lemma count_retrying_records {W} (logger : option Logger) (function_name : string)
    (failures : list (exn * W)) :
  count_level WARNING (retrying_records logger function_name failures) =
    match logger with Some _ => length failures | None => 0%nat end ∧
  count_level ERROR (retrying_records logger function_name failures) = 0%nat.
Proof.
  destruct logger as [lg|]; [|done]. unfold retrying_records, count_level.
  induction failures as [|f failures [IH1 IH2]]; [done|].
  rewrite fmap_cons. split.
  - rewrite filter_cons_True by done. cbn [length]. now rewrite IH1.
  - rewrite filter_cons_False by done. exact IH2.
Qed.

Section retry_runs.
Context {W A : Type}.
Context (attempts : Z) (wait_on : exn_class) (logger : option Logger).
Context (function_name : string) (function : M W A).

Local Abbreviation counted_loop :=
  (inner_loop attempts wait_on logger function_name (counted function)).

(** As long as attempts remain, each failure costs one attempt and, with a
    logger, one WARNING record. *)
Lemma inner_loop_failures (failures : list (exn * W)) (remaining_attempts : Z)
    (w : W) (calls : nat) (records : list log_record) :
  failing_run function wait_on w failures →
  Z.of_nat (length failures) < remaining_attempts →
  counted_loop remaining_attempts ((w, calls), records) =
  counted_loop (remaining_attempts - Z.of_nat (length failures))
               ((store_after w failures, (calls + length failures)%nat),
                records ++ retrying_records logger function_name failures).
Proof.
  revert remaining_attempts w calls records.
  induction failures as [|[e w1] failures IH]; intros remaining w calls records Hrun Hlt.
  - cbn [length store_after foldl]. rewrite Z.sub_0_r, Nat.add_0_r.
    replace (retrying_records logger function_name []) with (@nil log_record)
      by now destruct logger.
    now rewrite app_nil_r.
  - destruct Hrun as (Hcall & Hcls & Hrest). cbn [fst snd] in *.
    cbn [length] in Hlt.
    rewrite inner_loop_step. unfold counted at 1. cbn [fst snd].
    rewrite Hcall. cbn [fst snd]. rewrite Hcls. rewrite decide_False by lia.
    replace ((log_retrying logger function_name e ((w1, S calls), records)).2)
      with ((w1, S calls), records ++ retrying_records logger function_name [(e, w1)])
      by (destruct logger; [reflexivity|now rewrite app_nil_r]).
    rewrite (IH (remaining - 1) w1 (S calls) _ Hrest) by lia.
    cbn [length store_after foldl snd].
    replace (remaining - 1 - Z.of_nat (length failures))
      with (remaining - Z.of_nat (S (length failures))) by lia.
    replace (S calls + length failures)%nat with (calls + S (length failures))%nat by lia.
    rewrite <- app_assoc.
    replace (retrying_records logger function_name [(e, w1)] ++
             retrying_records logger function_name failures)
      with (retrying_records logger function_name ((e, w1) :: failures))
      by now destruct logger.
    reflexivity.
Qed.

(** Whatever the function does, the loop ends after at least one call and at
    most [max 1 remaining_attempts] calls, with the outcome of its last
    call; it logs one WARNING record for every call but the last one, and
    at most one ERROR record. *)
Lemma inner_loop_ends (remaining_attempts : Z) (w : W) (calls : nat)
    (records : list log_record) :
  ∃ (k : nat) (w0 : W) (o : outcome A) (w' : W) (new : list log_record),
    counted_loop remaining_attempts ((w, calls), records) =
      (o, ((w', (calls + k)%nat), records ++ new)) ∧
    function w0 = (o, w') ∧
    (1 ≤ k)%nat ∧ Z.of_nat k ≤ Z.max 1 remaining_attempts ∧
    count_level WARNING new = match logger with Some _ => (k - 1)%nat | None => 0%nat end ∧
    (count_level ERROR new ≤ 1)%nat ∧
    (logger = None → new = []).
Proof.
  remember (Z.to_nat remaining_attempts) as n eqn:Hn.
  revert remaining_attempts Hn w calls records.
  induction n as [n IH] using lt_wf_ind. intros remaining Hn w calls records.
  rewrite inner_loop_step. unfold counted at 1. cbn [fst snd].
  destruct (function w) as [[a|e] w1] eqn:Hcall; cbn [fst snd].
  - exists 1%nat, w, (Return a), w1, []. rewrite app_nil_r, Nat.add_1_r.
    split_and!; try done; try lia; try (now destruct logger); unfold count_level; simpl; lia.
  - destruct (isinstance e wait_on) eqn:Hcls.
    + destruct (decide (remaining - 1 <= 0)) as [Hlast|Hmore].
      * exists 1%nat, w, (Raise e), w1, (exhausted_records logger attempts e).
        rewrite Nat.add_1_r.
        split_and!; try done; try lia.
        -- destruct logger; [reflexivity|]. simpl. now rewrite app_nil_r.
        -- now destruct logger.
        -- destruct logger; unfold count_level; simpl; lia.
        -- now intros ->.
      * replace ((log_retrying logger function_name e ((w1, S calls), records)).2)
          with ((w1, S calls), records ++ retrying_records logger function_name [(e, w1)])
          by (destruct logger; [reflexivity|now rewrite app_nil_r]).
        destruct (IH (Z.to_nat (remaining - 1)) ltac:(lia) (remaining - 1) eq_refl
                     w1 (S calls) (records ++ retrying_records logger function_name [(e, w1)]))
          as (k & w0 & o & w' & new & Hloop & Hlast & Hk1 & Hk2 & Hwarn & Herr & Hnone).
        exists (S k), w0, o, w', (retrying_records logger function_name [(e, w1)] ++ new).
        split_and!.
        -- rewrite Hloop, <- app_assoc.
           now replace (S calls + k)%nat with (calls + S k)%nat by lia.
        -- exact Hlast.
        -- lia.
        -- lia.
        -- rewrite count_level_app, Hwarn. destruct logger; simpl; [|done].
           unfold count_level. simpl. lia.
        -- rewrite count_level_app. destruct logger; simpl; exact Herr.
        -- intros ->. now rewrite (Hnone eq_refl).
    + exists 1%nat, w, (Raise e), w1, []. rewrite app_nil_r, Nat.add_1_r.
      split_and!; try done; try lia; try (now destruct logger); unfold count_level; simpl; lia.
Qed.
End retry_runs.

(** X16: the first call that does not raise an exception of the class
    [wait_on] decides.  When fewer than [attempts] failures come before it,
    the wrapper ends with the outcome of that call, a value or an exception
    of another class, after one call more than there were failures; it
    has logged one WARNING record for each failure, when there is a logger,
    and no ERROR record. *)
Theorem retry_first_other_outcome {W A : Type} (attempts : Z) (wait_on : exn_class)
    (logger : option Logger) (function_name : string) (function : M W A)
    (w w' : W) (failures : list (exn * W)) (o : outcome A) :
  failing_run function wait_on w failures →
  failures = [] ∨ Z.of_nat (length failures) < attempts →
  function (store_after w failures) = (o, w') →
  (∀ e, o = Raise e → isinstance e wait_on = false) →
  inner attempts wait_on logger function_name (counted function) ((w, 0%nat), []) =
    (o, ((w', S (length failures)), retrying_records logger function_name failures)) ∧
  count_level WARNING (retrying_records logger function_name failures) =
    match logger with Some _ => length failures | None => 0%nat end ∧
  count_level ERROR (retrying_records logger function_name failures) = 0%nat.
Proof.
  intros Hrun Hlt Hcall Hother.
  split; [|apply count_retrying_records].
  unfold inner.
  assert (Hstart :
    inner_loop attempts wait_on logger function_name (counted function) attempts
               ((w, 0%nat), []) =
    inner_loop attempts wait_on logger function_name (counted function)
               (attempts - Z.of_nat (length failures))
               ((store_after w failures, length failures),
                retrying_records logger function_name failures)).
  { destruct Hlt as [-> | Hlt].
    - cbn [length store_after foldl]. rewrite Z.sub_0_r. now destruct logger.
    - now rewrite (inner_loop_failures attempts wait_on logger function_name function
                     failures attempts w 0 [] Hrun Hlt). }
  rewrite Hstart, inner_loop_step. unfold counted at 1. cbn [fst snd].
  rewrite Hcall. cbn [fst snd].
  destruct o as [a|e]; [reflexivity|].
  now rewrite (Hother e eq_refl).
Qed.

Lemma retry_first_other_outcome_witness :
  inner 3 IIBError (Some iib_log) "iib.workers.tasks.utils.skopeo_inspect"
        (counted fails_twice) ((0%nat, 0%nat), []) =
  (Return "{}",
   ((3%nat, 3%nat),
    [retrying_record "iib.workers.tasks.utils.skopeo_inspect"
                     (Exn IIBError "Failed to inspect the image");
     retrying_record "iib.workers.tasks.utils.skopeo_inspect"
                     (Exn IIBError "Failed to inspect the image")])).
Proof.
  apply (retry_first_other_outcome 3 IIBError (Some iib_log)
           "iib.workers.tasks.utils.skopeo_inspect" fails_twice 0%nat 3%nat
           [(Exn IIBError "Failed to inspect the image", 1%nat);
            (Exn IIBError "Failed to inspect the image", 2%nat)] (Return "{}")).
  - simpl. split_and!; reflexivity.
  - right. simpl. lia.
  - reflexivity.
  - discriminate.
Defined.

(** X17: when the function raises an exception of the class [wait_on] at
    each of [max 1 attempts] calls in a row, the wrapper makes exactly these
    calls and raises the exception of the last one itself, not an
    [IIBError] of its own; with a logger it has logged one WARNING record
    for each call but the last and then one ERROR record, without a logger
    nothing. *)
Theorem retry_exhausts {W A : Type} (attempts : Z) (wait_on : exn_class)
    (logger : option Logger) (function_name : string) (function : M W A)
    (w w' : W) (failures : list (exn * W)) (e : exn) :
  failing_run function wait_on w (failures ++ [(e, w')]) →
  Z.of_nat (S (length failures)) = Z.max 1 attempts →
  inner attempts wait_on logger function_name (counted function) ((w, 0%nat), []) =
    (Raise e, ((w', S (length failures)),
               retrying_records logger function_name failures ++
               exhausted_records logger attempts e)) ∧
  (is_Some logger →
   count_level WARNING (retrying_records logger function_name failures ++
                        exhausted_records logger attempts e) = length failures ∧
   count_level ERROR (retrying_records logger function_name failures ++
                      exhausted_records logger attempts e) = 1%nat).
Proof.
  intros Hrun Hmax.
  assert (Hsplit : failing_run function wait_on w failures ∧
                   function (store_after w failures) = (Raise e, w') ∧
                   isinstance e wait_on = true).
  { clear Hmax. revert w Hrun. induction failures as [|f failures IH]; intros w Hrun.
    - destruct Hrun as (Hcall & Hcls & _). done.
    - destruct Hrun as (Hcall & Hcls & Hrest). destruct (IH _ Hrest) as (H1 & H2 & H3).
      split_and!; done. }
  destruct Hsplit as (Hfailures & Hcall & Hcls).
  split.
  - unfold inner.
    assert (Hstart :
      inner_loop attempts wait_on logger function_name (counted function) attempts
                 ((w, 0%nat), []) =
      inner_loop attempts wait_on logger function_name (counted function)
                 (attempts - Z.of_nat (length failures))
                 ((store_after w failures, length failures),
                  retrying_records logger function_name failures)).
    { destruct failures as [|f failures].
      - cbn [length store_after foldl]. rewrite Z.sub_0_r. now destruct logger.
      - rewrite (inner_loop_failures attempts wait_on logger function_name function
                   (f :: failures) attempts w 0 [] Hfailures); [done|].
        cbn [length] in *. lia. }
    rewrite Hstart, inner_loop_step. unfold counted at 1. cbn [fst snd].
    rewrite Hcall. cbn [fst snd]. rewrite Hcls. rewrite decide_True by lia.
    destruct logger; reflexivity.
  - intros [lg ->]. rewrite !count_level_app.
    destruct (count_retrying_records (Some lg) function_name failures) as [-> ->].
    split; unfold count_level; simpl; lia.
Qed.

Lemma retry_exhausts_witness :
  inner 2 IIBError (Some iib_log) "iib.workers.tasks.utils.skopeo_inspect"
        (counted fails_twice) ((0%nat, 0%nat), []) =
  (Raise (Exn IIBError "Failed to inspect the image"),
   ((2%nat, 2%nat),
    [retrying_record "iib.workers.tasks.utils.skopeo_inspect"
                     (Exn IIBError "Failed to inspect the image");
     exhausted_record 2 (Exn IIBError "Failed to inspect the image")])).
Proof.
  apply (retry_exhausts 2 IIBError (Some iib_log)
           "iib.workers.tasks.utils.skopeo_inspect" fails_twice 0%nat 2%nat
           [(Exn IIBError "Failed to inspect the image", 1%nat)]
           (Exn IIBError "Failed to inspect the image")).
  - simpl. split_and!; reflexivity.
  - reflexivity.
Defined.

(** X18: whatever the wrapped function does, the wrapper ends: it calls the
    function at least once and at most [max 1 attempts] times, and its
    outcome, value or exception, is the outcome of a call of the function.
    With a logger it has logged exactly one WARNING record for every call
    but the last one and at most one ERROR record; without a logger it logs
    nothing. *)
Theorem retry_ends {W A : Type} (attempts : Z) (wait_on : exn_class)
    (logger : option Logger) (function_name : string) (function : M W A) (w : W) :
  ∃ (calls : nat) (w0 : W) (o : outcome A) (w' : W) (records : list log_record),
    inner attempts wait_on logger function_name (counted function) ((w, 0%nat), []) =
      (o, ((w', calls), records)) ∧
    function w0 = (o, w') ∧
    (1 ≤ calls)%nat ∧ Z.of_nat calls ≤ Z.max 1 attempts ∧
    count_level WARNING records = match logger with Some _ => (calls - 1)%nat | None => 0%nat end ∧
    (count_level ERROR records ≤ 1)%nat ∧
    (logger = None → records = []).
Proof.
  destruct (inner_loop_ends attempts wait_on logger function_name function attempts w 0 [])
    as (k & w0 & o & w' & new & Hloop & Hlast & Hk1 & Hk2 & Hwarn & Herr & Hnone).
  exists k, w0, o, w', new. split_and!; done.
Qed.

(** ** More on the command runner *)

Lemma setdefault_union (k : string) (v : value) (params : gmap string value) :
  setdefault k v params = params ∪ {[k := v]}.
Proof.
  unfold setdefault. apply map_eq. intros i. rewrite lookup_union.
  destruct (params !! k) as [x|] eqn:Hk.
  - destruct (decide (i = k)) as [->|Hne].
    + rewrite Hk, lookup_singleton_eq. reflexivity.
    + rewrite lookup_singleton_ne by done. now destruct (params !! i).
  - destruct (decide (i = k)) as [->|Hne].
    + rewrite lookup_insert_eq, Hk, lookup_singleton_eq. reflexivity.
    + rewrite lookup_insert_ne, lookup_singleton_ne by done. now destruct (params !! i).
Qed.

(** X19: the four [setdefault] calls complete the caller's parameters and
    never override one: the parameters handed to [subprocess.run] are the
    caller's, and for the keys the caller left out among
    [universal_newlines], [encoding], [stderr] and [stdout], the defaults. *)
Theorem with_defaults_union (params : option (gmap string value)) :
  with_defaults params = default ∅ params ∪ default_params.
Proof.
  unfold with_defaults. rewrite !setdefault_union, <- !(assoc_L (∪)).
  f_equal.
Qed.

Section run_cmd_outcomes.
Context {OS : Type}.
Context (subprocess_run : list string → gmap string value → M OS CompletedProcess).

(** The scan of the lines of stderr raises [IIBError] or nothing, and leaves
    the store as it is. *)
Lemma scan_outcome (exc_msg : string) (lines : list string) (st : OS * list log_record) :
  for_each (raise_if_fatal exc_msg) lines st = (Return tt, st) ∨
  ∃ msg, for_each (raise_if_fatal exc_msg) lines st = (Raise (Exn IIBError msg), st).
Proof.
  induction lines as [|l lines IH]; [now left|].
  cbn [for_each]. unfold mbind, M_bind, bind, raise_if_fatal at 1 3.
  destruct (re_match fatal_regex l) as [groups|]; [right; eexists; reflexivity|].
  exact IH.
Qed.
End run_cmd_outcomes.

(** X20: the outcome of [run_cmd] follows that of [subprocess.run].  A
    process that exits with the code 0 gives its standard output, whatever
    it wrote to stderr, after a single DEBUG record.  A process that exits
    with another code gives an [IIBError] after a DEBUG and an ERROR record.
    When the process cannot be run, the exception of [subprocess.run]
    propagates unchanged: it is not turned into an [IIBError]. *)
Theorem run_cmd_outcome {OS : Type}
    (subprocess_run : list string → gmap string value → M OS CompletedProcess)
    (cmd0 : string) (args : list string) (params : option (gmap string value))
    (exc_msg : option string) (st : OS * list log_record) :
  match subprocess_run (cmd0 :: args) (with_defaults params) st.1 with
  | (Return response, os') =>
      if bool_decide (returncode response = 0) then
        run_cmd subprocess_run (cmd0 :: args) params exc_msg st =
          (Return (stdout response), (os', st.2 ++ [running_record (cmd0 :: args)]))
      else
        ∃ msg,
          run_cmd subprocess_run (cmd0 :: args) params exc_msg st =
            (Raise (Exn IIBError msg),
             (os', st.2 ++ [running_record (cmd0 :: args);
                            failed_record (cmd0 :: args) response]))
  | (Raise e, os') =>
      run_cmd subprocess_run (cmd0 :: args) params exc_msg st =
        (Raise e, (os', st.2 ++ [running_record (cmd0 :: args)]))
  end.
Proof.
  destruct (subprocess_run (cmd0 :: args) (with_defaults params) st.1)
    as [[response|e] os'] eqn:Hrun.
  - destruct (bool_decide (returncode response = 0)) eqn:Hcode.
    + unfold run_cmd, call_subprocess, emit.
      cbv [mbind M_bind bind mret M_ret ret modify raise when_]. cbn [fst snd].
      rewrite Hrun. cbn [fst snd]. now rewrite Hcode.
    + apply bool_decide_eq_false in Hcode.
      unfold run_cmd, call_subprocess, emit.
      cbv [mbind M_bind bind mret M_ret ret modify raise when_]. cbn [fst snd].
      rewrite Hrun. cbn [fst snd]. rewrite bool_decide_eq_false_2 by done. cbn [negb].
      cbn [fst snd]. unfold running_record, failed_record.
      rewrite <- app_assoc. cbn [app].
      destruct (bool_decide (cmd0 = "opm")); [|eexists; reflexivity].
      match goal with
      | |- context [for_each ?f ?l ?x] =>
          destruct (scan_outcome (failure_message exc_msg) l x) as [Hscan | [msg Hscan]];
          rewrite Hscan; eexists; reflexivity
      end.
  - unfold run_cmd, call_subprocess, emit.
    cbv [mbind M_bind bind mret M_ret ret modify raise when_]. cbn [fst snd].
    now rewrite Hrun.
Qed.

(** ** The lines recognised as fatal errors *)

Lemma single_line_app (x y : string) :
  single_line (x +:+ y) ↔ single_line x ∧ single_line y.
Proof.
  unfold single_line. induction x as [|c x IH]; simpl.
  - split; [intros H; split; [inversion 1|done]|now intros [_ H]].
  - rewrite !not_elem_of_cons, IH. tauto.
Qed.

Lemma prefix_app_true (l s : string) : String.prefix l (l +:+ s) = true.
Proof.
  induction l as [|c l IH]; simpl; [now destruct s|].
  destruct (ascii_dec c c); [exact IH|done].
Qed.

Section regex_complete.
Context {R : Type}.

(** A greedy repetition finds every split that lets the rest match. *)
Lemma any_star_complete (pre rest : string) (n : nat) (k : nat → string → option R) :
  single_line pre →
  is_Some (k (n + String.length pre)%nat rest) →
  is_Some (any_star (pre +:+ rest) n k).
Proof.
  revert n. induction pre as [|c pre IH]; intros n Hpre Hk; simpl in *.
  - rewrite Nat.add_0_r in Hk. destruct rest as [|c rest]; simpl; [done|].
    destruct (bool_decide (c = LF)); [done|].
    destruct (any_star rest (S n) k); [eauto|done].
  - apply not_elem_of_cons in Hpre as [Hc Hpre].
    rewrite bool_decide_eq_false_2 by done.
    rewrite Nat.add_succ_r in Hk.
    destruct (IH (S n) Hpre Hk) as [r ->]. eauto.
Qed.

Lemma any_plus_complete (pre rest : string) (n : nat) (k : nat → string → option R) :
  pre ≠ "" → single_line pre →
  is_Some (k (n + String.length pre)%nat rest) →
  is_Some (any_plus (pre +:+ rest) n k).
Proof.
  destruct pre as [|c pre]; [done|]. intros _ Hpre Hk. simpl in *.
  apply not_elem_of_cons in Hpre as [Hc Hpre].
  rewrite bool_decide_eq_false_2 by done.
  rewrite Nat.add_succ_r in Hk. now apply any_star_complete.
Qed.
End regex_complete.

(** On a string without a line feed, [fatal_regex] matches exactly the shape
    [<a>level=fatal <b>error="<m>"] with [a] and [m] not empty. *)
Lemma fatal_regex_shape (line : string) :
  single_line line →
  is_Some (re_match fatal_regex line) ↔
  ∃ a b m, a ≠ "" ∧ m ≠ "" ∧
           line = a +:+ "level=fatal " +:+ b +:+ "error=" +:+ dq +:+ m +:+ dq.
Proof.
  intros Hline. split.
  - intros [groups Hmatch].
    destruct (fatal_regex_sound line groups Hmatch)
      as (a & b & m & tail & _ & Ha & Hm & Htail & ->).
    exists a, b, m. split_and!; [done..|].
    destruct Htail as [-> | ->]; [reflexivity|]. exfalso.
    do 7 apply single_line_app, proj2 in Hline.
    apply Hline. now left.
  - intros (a & b & m & Ha & Hm & ->).
    apply single_line_app in Hline as [Hsa Hline].
    apply single_line_app in Hline as [_ Hline].
    apply single_line_app in Hline as [Hsb Hline].
    apply single_line_app in Hline as [_ Hline].
    apply single_line_app in Hline as [_ Hline].
    apply single_line_app in Hline as [Hsm _].
    unfold re_match, fatal_regex. cbn [re_exec].
    rewrite bool_decide_eq_true_2 by done.
    apply any_plus_complete; [done..|].
    rewrite prefix_app_true, str_drop_app.
    apply any_star_complete; [done|].
    change ("error=" +:+ dq +:+ m +:+ dq) with (("error=" +:+ dq) +:+ m +:+ dq).
    rewrite prefix_app_true, str_drop_app.
    apply any_plus_complete; [done..|].
    eexists. reflexivity.
Qed.

(** ** The lines of [splitlines] *)

Lemma line_single_line (cur : list ascii) :
  Forall (λ c, c ≠ LF) cur → single_line (string_of_list_ascii (reverse cur)).
Proof.
  intros Hcur. unfold single_line. rewrite list_ascii_of_string_of_list_ascii.
  rewrite elem_of_reverse. intros Hin. rewrite Forall_forall in Hcur. now apply (Hcur LF Hin).
Qed.

Lemma splitlines_from_single_line (n : nat) (s : string) (cur : list ascii) :
  (String.length s ≤ n)%nat →
  Forall (λ c, c ≠ LF) cur →
  Forall single_line (splitlines_from cur s).
Proof.
  revert s cur. induction n as [|n IH]; intros s cur Hlen Hcur.
  - destruct s; [|simpl in Hlen; lia]. simpl.
    destruct cur; [constructor|]. constructor; [|constructor].
    now apply line_single_line.
  - destruct s as [|c s].
    { simpl. destruct cur; [constructor|]. constructor; [|constructor].
      now apply line_single_line. }
    simpl in Hlen.
    assert (Hline := line_single_line cur Hcur).
    assert (Hfresh : ∀ t, (String.length t ≤ n)%nat → Forall single_line (splitlines_from [] t)).
    { intros t Ht. apply IH; [done|constructor]. }
    assert (Hmore : ∀ t, c ≠ LF → (String.length t ≤ n)%nat →
                         Forall single_line (splitlines_from (c :: cur) t)).
    { intros t Hc Ht. apply IH; [done|]. now constructor. }
    destruct c as [[] [] [] [] [] [] [] []];
      try (cbn [splitlines_from nat_of_ascii N_of_ascii N_of_digits N.to_nat
                Pos.to_nat Pos.iter_op Init.Nat.add N.add N.mul Pos.add Pos.mul
                Pos.succ is_line_boundary];
           first
             [ constructor; [exact Hline|apply Hfresh; lia]
             | apply Hmore; [discriminate|lia] ]).
    all: match goal with
         | |- Forall _ (splitlines_from _ (String ?c0 _)) => set (c := c0) in *
         end.
    + destruct s as [|d s].
      * constructor; [exact Hline|constructor].
      * assert (Hstep : splitlines_from cur (String c (String d s)) =
                  if bool_decide (nat_of_ascii d = 10%nat)
                  then string_of_list_ascii (reverse cur) :: splitlines_from [] s
                  else string_of_list_ascii (reverse cur) :: splitlines_from [] (String d s))
          by reflexivity.
        rewrite Hstep. simpl in Hlen.
        destruct (bool_decide (nat_of_ascii d = 10%nat));
          (constructor; [exact Hline|apply Hfresh; simpl; lia]).
    + assert (Hc : c ≠ LF) by discriminate.
      assert (Hstep : splitlines_from cur (String c s) =
                match s with
                | String d (String e s3) =>
                    if bool_decide (nat_of_ascii d = 128%nat ∧
                                    (nat_of_ascii e = 168 ∨ nat_of_ascii e = 169)%nat)
                    then string_of_list_ascii (reverse cur) :: splitlines_from [] s3
                    else splitlines_from (c :: cur) s
                | _ => splitlines_from (c :: cur) s
                end) by reflexivity.
      rewrite Hstep. clear Hstep.
      destruct s as [|d [|e s]]; [apply Hmore; [done|simpl in *; lia]..|].
      simpl in Hlen. destruct (bool_decide _).
      * constructor; [exact Hline|apply Hfresh; lia].
      * apply Hmore; [done|simpl; lia].
    + assert (Hc : c ≠ LF) by discriminate.
      destruct s as [|d s].
      * refine (Hmore "" Hc _). simpl; lia.
      * assert (Hstep : splitlines_from cur (String c (String d s)) =
                  if bool_decide (nat_of_ascii d = 133%nat)
                  then string_of_list_ascii (reverse cur) :: splitlines_from [] s
                  else splitlines_from (c :: cur) (String d s))
          by reflexivity.
        rewrite Hstep. simpl in Hlen.
        destruct (bool_decide _).
        -- constructor; [exact Hline|apply Hfresh; lia].
        -- apply Hmore; [done|simpl; lia].
Qed.

Lemma splitlines_single_line (s : string) : Forall single_line (splitlines s).
Proof. apply (splitlines_from_single_line (String.length s)); [lia|constructor]. Qed.


(** X21: among the lines of the standard error, the ones that [run_cmd]
    takes for the fatal error of [opm] are exactly the lines of the shape
    [<a>level=fatal <b>error="<m>"] with [a] and [m] not empty. *)
Theorem fatal_lines_of_stderr (err line : string) :
  line ∈ splitlines err →
  is_Some (re_match fatal_regex line) ↔
  ∃ a b m, a ≠ "" ∧ m ≠ "" ∧
           line = a +:+ "level=fatal " +:+ b +:+ "error=" +:+ dq +:+ m +:+ dq.
Proof.
  intros Hin. apply fatal_regex_shape.
  pose proof (splitlines_single_line err) as Hall.
  rewrite Forall_forall in Hall. now apply Hall.
Qed.

Lemma fatal_lines_of_stderr_witness :
  is_Some (re_match fatal_regex (default "" (splitlines opm_stderr !! 1%nat))).
Proof.
  apply (fatal_lines_of_stderr opm_stderr (default "" (splitlines opm_stderr !! 1%nat))).
  - apply (bool_decide_unpack _). vm_compute. exact I.
  - exists ("time=" +:+ dq +:+ "2020-03-04T05:06:08Z" +:+ dq +:+ " "),
           ("msg=" +:+ dq +:+ "permissive mode disabled" +:+ dq +:+ " bundles=" +:+ dq +:+
            "[quay.io/ns/bundle:v1]" +:+ dq +:+ " "),
           "bundle already exists".
    split_and!; [done..|]. vm_compute. reflexivity.
Defined.

(** ** The image inspection *)

Lemma full_pull_spec_docker (pull_spec : string) :
  String.prefix "docker://" (full_pull_spec pull_spec) = true.
Proof.
  unfold full_pull_spec. destruct (String.prefix "docker://" pull_spec) eqn:Hp; [done|].
  apply prefix_app_true.
Qed.

Section skopeo_facts.
Context {OS : Type}.
Context (iib_total_attempts : Z) (iib_skopeo_timeout : string).
Context (subprocess_run : list string → gmap string value → M OS CompletedProcess).
Context (json_loads : string → outcome value).

Local Abbreviation inspect_function :=
  (skopeo_inspect_function iib_skopeo_timeout subprocess_run json_loads).

(** One call of the decorated function on one image. *)
Lemma skopeo_inspect_function_run (pull_spec : string) (st : OS * list log_record) :
  inspect_function [full_pull_spec pull_spec] st =
  (output ← run_cmd subprocess_run (skopeo_cmd iib_skopeo_timeout (full_pull_spec pull_spec))
                    None (Some (exn_msg (inspect_failure (full_pull_spec pull_spec))));
   library_call (json_loads output)) st.
Proof.
  unfold skopeo_inspect_function. cbn [inspect_exc_msg].
  now rewrite full_pull_spec_docker.
Qed.

Lemma get_image_labels_run (pull_spec : string)
    (st : (OS * list log_record) * list log_record) :
  get_image_labels iib_total_attempts iib_skopeo_timeout subprocess_run json_loads pull_spec st =
  (inspected ← skopeo_inspect iib_total_attempts iib_skopeo_timeout subprocess_run json_loads
                 [full_pull_spec pull_spec];
   value_get inspected "Labels" (VDict []))
    ((st.1.1, st.1.2 ++ [labels_record (full_pull_spec pull_spec)]), st.2).
Proof. reflexivity. Qed.
End skopeo_facts.

Section retry_always.
Context {W A : Type}.
Context (attempts : Z) (wait_on : exn_class) (logger : option Logger).
Context (function_name : string) (function : M W A).

(** A function that raises the same exception of the class [wait_on] at
    every call, while an invariant [I], indexed by the number of calls, is
    carried from call to call. *)
Lemma inner_loop_always_raises (e0 : exn) (I : nat → W → Prop) :
  isinstance e0 wait_on = true →
  (∀ k w, I k w → ∃ w', function w = (Raise e0, w') ∧ I (S k) w') →
  ∀ (remaining_attempts : Z) (k : nat) (w : W) (records : list log_record),
    I k w →
    ∃ w',
      inner_loop attempts wait_on logger function_name function remaining_attempts
                 (w, records) =
        (Raise e0,
         (w', records ++
              match logger with
              | Some _ => replicate (Z.to_nat (Z.max 1 remaining_attempts) - 1)
                                    (retrying_record function_name e0)
              | None => []
              end ++ exhausted_records logger attempts e0)) ∧
      I (k + Z.to_nat (Z.max 1 remaining_attempts))%nat w'.
Proof.
  intros Hcls Hraises remaining.
  remember (Z.to_nat remaining) as n eqn:Hn. revert remaining Hn.
  induction n as [n IH] using lt_wf_ind. intros remaining Hn k w records Hw.
  destruct (Hraises k w Hw) as (w1 & Hcall & Hw1).
  rewrite inner_loop_step. cbn [fst snd]. rewrite Hcall, Hcls.
  destruct (decide (remaining - 1 <= 0)) as [Hlast|Hmore].
  - exists w1. replace (Z.to_nat (Z.max 1 remaining)) with 1%nat by lia.
    rewrite Nat.add_1_r. split; [|exact Hw1].
    destruct logger; [reflexivity|]. simpl. now rewrite app_nil_r.
  - destruct (IH (Z.to_nat (remaining - 1)) ltac:(lia) (remaining - 1) eq_refl (S k) w1
                 (log_retrying logger function_name e0 (w1, records)).2.2) as (w' & Hloop & Hw').
    { exact Hw1. }
    exists w'. split.
    + replace ((log_retrying logger function_name e0 (w1, records)).2)
        with (w1, (log_retrying logger function_name e0 (w1, records)).2.2)
        by now destruct logger.
      rewrite Hloop. f_equal. f_equal.
      replace (Z.to_nat (Z.max 1 remaining) - 1)%nat
        with (S (Z.to_nat (Z.max 1 (remaining - 1)) - 1)) by lia.
      destruct logger; simpl; [|reflexivity].
      now rewrite <- app_assoc.
    + replace (k + Z.to_nat (Z.max 1 remaining))%nat
        with (S k + Z.to_nat (Z.max 1 (remaining - 1)))%nat by lia.
      exact Hw'.
Qed.
End retry_always.

Section skopeo_runs.
Context {OS : Type}.
Context (iib_total_attempts : Z) (iib_skopeo_timeout : string).
Context (subprocess_run : list string → gmap string value → M OS CompletedProcess).
Context (json_loads : string → outcome value).

Local Abbreviation counted_run :=
  (λ (cmd : list string) (params : gmap string value), counted (subprocess_run cmd params)).

(** [run_cmd] on a command that is not [opm] and exits with a non-zero
    code. *)
Lemma run_cmd_not_opm (cmd0 : string) (args : list string)
    (params : option (gmap string value)) (exc_msg : option string)
    (st : (OS * nat) * list log_record) (response : CompletedProcess) (os' : OS) :
  cmd0 ≠ "opm" →
  subprocess_run (cmd0 :: args) (with_defaults params) st.1.1 = (Return response, os') →
  returncode response ≠ 0 →
  run_cmd counted_run (cmd0 :: args) params exc_msg st =
  (Raise (Exn IIBError (failure_message exc_msg)),
   ((os', S st.1.2), st.2 ++ [running_record (cmd0 :: args);
                              failed_record (cmd0 :: args) response])).
Proof.
  intros Hopm Hrun Hcode. unfold run_cmd, call_subprocess, emit, counted.
  cbv [mbind M_bind bind mret M_ret ret modify raise when_]. cbn [fst snd].
  rewrite Hrun. cbn [fst snd]. rewrite bool_decide_eq_false_2 by done. cbn [negb].
  rewrite (bool_decide_eq_false_2 (cmd0 = "opm")) by done.
  cbn [fst snd]. rewrite <- app_assoc. reflexivity.
Qed.

(** [run_cmd] on a process that exits with the code 0. *)
Lemma run_cmd_zero (cmd : list string) (params : option (gmap string value))
    (exc_msg : option string) (st : (OS * nat) * list log_record)
    (response : CompletedProcess) (os' : OS) :
  subprocess_run cmd (with_defaults params) st.1.1 = (Return response, os') →
  returncode response = 0 →
  run_cmd counted_run cmd params exc_msg st =
  (Return (stdout response), ((os', S st.1.2), st.2 ++ [running_record cmd])).
Proof.
  intros Hrun Hcode. unfold run_cmd, call_subprocess, emit, counted.
  cbv [mbind M_bind bind mret M_ret ret modify raise when_]. cbn [fst snd].
  rewrite Hrun. cbn [fst snd]. now rewrite bool_decide_eq_true_2 by done.
Qed.

(** [run_cmd] on a process that cannot be run. *)
Lemma run_cmd_raises (cmd : list string) (params : option (gmap string value))
    (exc_msg : option string) (st : (OS * nat) * list log_record) (e : exn) (os' : OS) :
  subprocess_run cmd (with_defaults params) st.1.1 = (Raise e, os') →
  run_cmd counted_run cmd params exc_msg st =
  (Raise e, ((os', S st.1.2), st.2 ++ [running_record cmd])).
Proof.
  intros Hrun. unfold run_cmd, call_subprocess, emit, counted.
  cbv [mbind M_bind bind mret M_ret ret modify raise when_]. cbn [fst snd].
  now rewrite Hrun.
Qed.
End skopeo_runs.

(** X22: [get_image_labels] adds the transport [docker://] when the pull
    specification does not carry it, so that it behaves on a pull
    specification and on the same one with the transport in the same way. *)
Theorem get_image_labels_transport {OS : Type} (iib_total_attempts : Z)
    (iib_skopeo_timeout : string)
    (subprocess_run : list string → gmap string value → M OS CompletedProcess)
    (json_loads : string → outcome value) (pull_spec : string)
    (st : (OS * list log_record) * list log_record) :
  String.prefix "docker://" pull_spec = false →
  get_image_labels iib_total_attempts iib_skopeo_timeout subprocess_run json_loads
                   ("docker://" +:+ pull_spec) st =
  get_image_labels iib_total_attempts iib_skopeo_timeout subprocess_run json_loads
                   pull_spec st.
Proof.
  intros Hp. rewrite !get_image_labels_run. unfold full_pull_spec.
  now rewrite prefix_app_true, Hp.
Qed.

Lemma get_image_labels_transport_witness :
  get_image_labels 3 "30s" skopeo_answers loads_example "docker://quay.io/ns/bundle:v1"
                   ((tt, []), []) =
  get_image_labels 3 "30s" skopeo_answers loads_example "quay.io/ns/bundle:v1"
                   ((tt, []), []).
Proof.
  apply (get_image_labels_transport 3 "30s" skopeo_answers loads_example
           "quay.io/ns/bundle:v1"). reflexivity.
Defined.

(** X23: when [skopeo] exits with the code 0 and its output is a JSON
    document, [get_image_labels] runs it once, as
    [skopeo --command-timeout <timeout> inspect docker://<image>] with the
    default parameters, and returns the member [Labels] of the document, or
    an empty dict when the document has none; a document that is not an
    object gives an [AttributeError].  The wrapper logs nothing. *)
Theorem get_image_labels_answers {OS : Type} (iib_total_attempts : Z)
    (iib_skopeo_timeout : string)
    (subprocess_run : list string → gmap string value → M OS CompletedProcess)
    (json_loads : string → outcome value) (pull_spec : string)
    (os os' : OS) (response : CompletedProcess) (inspected : value) :
  subprocess_run (skopeo_cmd iib_skopeo_timeout (full_pull_spec pull_spec))
                 (with_defaults None) os = (Return response, os') →
  returncode response = 0 →
  json_loads (stdout response) = Return inspected →
  get_image_labels iib_total_attempts iib_skopeo_timeout
                   (λ cmd params, counted (subprocess_run cmd params)) json_loads
                   pull_spec (((os, 0%nat), []), []) =
  (match inspected with
   | VDict d => Return (default (VDict []) (dict_update ∅ d !! "Labels"))
   | _ => Raise (Exn AttributeError
                     ("'" +:+ type_name inspected +:+ "' object has no attribute 'get'"))
   end,
   (((os', 1%nat),
     [labels_record (full_pull_spec pull_spec);
      running_record (skopeo_cmd iib_skopeo_timeout (full_pull_spec pull_spec))]),
    [])).
Proof.
  intros Hrun Hcode Hjson. rewrite get_image_labels_run. cbn [fst snd app].
  assert (Hcall : skopeo_inspect_function iib_skopeo_timeout
                    (λ cmd params, counted (subprocess_run cmd params)) json_loads
                    [full_pull_spec pull_spec]
                    ((os, 0%nat), [labels_record (full_pull_spec pull_spec)]) =
                  (Return inspected,
                   ((os', 1%nat),
                    [labels_record (full_pull_spec pull_spec);
                     running_record (skopeo_cmd iib_skopeo_timeout
                                                (full_pull_spec pull_spec))]))).
  { rewrite skopeo_inspect_function_run.
    rewrite (bind_Return _ _ _ _ _
               (run_cmd_zero subprocess_run _ None _
                  ((os, 0%nat), [labels_record (full_pull_spec pull_spec)])
                  response os' Hrun Hcode)).
    unfold library_call. now rewrite Hjson. }
  assert (Hinner : skopeo_inspect iib_total_attempts iib_skopeo_timeout
                     (λ cmd params, counted (subprocess_run cmd params)) json_loads
                     [full_pull_spec pull_spec]
                     (((os, 0%nat), [labels_record (full_pull_spec pull_spec)]), []) =
                   (Return inspected,
                    (((os', 1%nat),
                      [labels_record (full_pull_spec pull_spec);
                       running_record (skopeo_cmd iib_skopeo_timeout
                                                  (full_pull_spec pull_spec))]), []))).
  { unfold skopeo_inspect, inner. rewrite inner_loop_step. cbn [fst snd].
    now rewrite Hcall. }
  rewrite (bind_Return _ _ _ _ _ Hinner). now destruct inspected.
Qed.

Lemma get_image_labels_answers_witness :
  get_image_labels 3 "30s" (λ cmd params, counted (skopeo_answers cmd params)) loads_example
                   "quay.io/ns/bundle:v1" (((tt, 0%nat), []), []) =
  (Return (VDict []),
   (((tt, 1%nat),
     [labels_record "docker://quay.io/ns/bundle:v1";
      running_record (skopeo_cmd "30s" "docker://quay.io/ns/bundle:v1")]),
    [])).
Proof.
  apply (get_image_labels_answers 3 "30s" skopeo_answers loads_example
           "quay.io/ns/bundle:v1" tt tt (mkCompletedProcess 0 "{}" "time=now level=warning")
           (VDict [])); reflexivity.
Defined.

(** X24: when every run of [skopeo inspect] on the image exits with a
    non-zero code, [get_image_labels] runs it [max 1 iib_total_attempts]
    times and then raises the [IIBError] that names the image; the wrapper
    has logged one WARNING record for each run but the last, and one ERROR
    record; each run has logged its own failure. *)
Theorem get_image_labels_unreachable {OS : Type} (iib_total_attempts : Z)
    (iib_skopeo_timeout : string)
    (subprocess_run : list string → gmap string value → M OS CompletedProcess)
    (json_loads : string → outcome value) (pull_spec : string) (os : OS) :
  (∀ os, ∃ response os',
     subprocess_run (skopeo_cmd iib_skopeo_timeout (full_pull_spec pull_spec))
                    (with_defaults None) os = (Return response, os') ∧
     returncode response ≠ 0) →
  ∃ os' records,
    get_image_labels iib_total_attempts iib_skopeo_timeout
                     (λ cmd params, counted (subprocess_run cmd params)) json_loads
                     pull_spec (((os, 0%nat), []), []) =
    (Raise (inspect_failure (full_pull_spec pull_spec)),
     (((os', Z.to_nat (Z.max 1 iib_total_attempts)), records),
      replicate (Z.to_nat (Z.max 1 iib_total_attempts) - 1)
                (retrying_record "iib.workers.tasks.utils.skopeo_inspect"
                                 (inspect_failure (full_pull_spec pull_spec))) ++
      [exhausted_record iib_total_attempts (inspect_failure (full_pull_spec pull_spec))])) ∧
    count_level ERROR records = Z.to_nat (Z.max 1 iib_total_attempts).
Proof.
  intros Hdown. rewrite get_image_labels_run. cbn [fst snd app].
  set (image := full_pull_spec pull_spec).
  set (I := λ (k : nat) (st : (OS * nat) * list log_record),
              st.1.2 = k ∧ count_level ERROR st.2 = k).
  destruct (inner_loop_always_raises iib_total_attempts IIBError (Some iib_log)
              "iib.workers.tasks.utils.skopeo_inspect"
              (skopeo_inspect_function iib_skopeo_timeout
                 (λ cmd params, counted (subprocess_run cmd params)) json_loads [image])
              (inspect_failure image) I eq_refl) with
    (remaining_attempts := iib_total_attempts) (k := 0%nat)
    (w := ((os, 0%nat), [labels_record image])) (records := @nil log_record)
    as (w' & Hloop & Hk & Herr).
  - intros k [[os0 calls] records] [Hcalls Herrors]. cbn [fst snd] in *.
    destruct (Hdown os0) as (response & os1 & Hrun & Hcode).
    eexists. split.
    + unfold image. rewrite skopeo_inspect_function_run.
      pose proof (run_cmd_not_opm subprocess_run "skopeo"
                    ["--command-timeout"; iib_skopeo_timeout; "inspect";
                     full_pull_spec pull_spec]
                    None (Some (exn_msg (inspect_failure (full_pull_spec pull_spec))))
                    ((os0, calls), records) response os1 ltac:(done) Hrun Hcode) as Hcmd.
      unfold mbind, M_bind, bind. unfold skopeo_cmd. rewrite Hcmd. reflexivity.
    + split; cbn [fst snd]; [now rewrite Hcalls|].
      rewrite count_level_app, Herrors. unfold count_level. simpl. lia.
  - split; reflexivity.
  - destruct w' as [[os' calls] records]. cbn [fst snd] in *. subst calls.
    exists os', records. split; [|exact Herr].
    unfold skopeo_inspect, inner.
    unfold mbind, M_bind, bind. rewrite Hloop. reflexivity.
Qed.

Lemma get_image_labels_unreachable_witness :
  ∃ records,
    get_image_labels 2 "30s" (λ cmd params, counted (registry_down cmd params)) loads_example
                     "quay.io/ns/bundle:v1" (((tt, 0%nat), []), []) =
    (Raise (inspect_failure "docker://quay.io/ns/bundle:v1"),
     (((tt, 2%nat), records),
      [retrying_record "iib.workers.tasks.utils.skopeo_inspect"
                       (inspect_failure "docker://quay.io/ns/bundle:v1");
       exhausted_record 2 (inspect_failure "docker://quay.io/ns/bundle:v1")])) ∧
    count_level ERROR records = 2%nat.
Proof.
  destruct (get_image_labels_unreachable 2 "30s" registry_down loads_example
              "quay.io/ns/bundle:v1" tt) as (os' & records & Hrun & Herr).
  - intros os. eexists _, _. split; [reflexivity|]. simpl. lia.
  - destruct os'. exists records. split; [exact Hrun|exact Herr].
Defined.

(** X25: only an [IIBError] is retried.  When [skopeo] cannot be run, or
    exits with the code 0 and an output that [json.loads] rejects, the
    exception propagates after this single run, as long as it is not an
    [IIBError], and the wrapper logs nothing. *)
Theorem get_image_labels_not_retried {OS : Type} (iib_total_attempts : Z)
    (iib_skopeo_timeout : string)
    (subprocess_run : list string → gmap string value → M OS CompletedProcess)
    (json_loads : string → outcome value) (pull_spec : string)
    (os os' : OS) (e : exn) :
  subprocess_run (skopeo_cmd iib_skopeo_timeout (full_pull_spec pull_spec))
                 (with_defaults None) os = (Raise e, os') ∨
  (∃ response,
     subprocess_run (skopeo_cmd iib_skopeo_timeout (full_pull_spec pull_spec))
                    (with_defaults None) os = (Return response, os') ∧
     returncode response = 0 ∧
     json_loads (stdout response) = Raise e) →
  isinstance e IIBError = false →
  get_image_labels iib_total_attempts iib_skopeo_timeout
                   (λ cmd params, counted (subprocess_run cmd params)) json_loads
                   pull_spec (((os, 0%nat), []), []) =
  (Raise e,
   (((os', 1%nat),
     [labels_record (full_pull_spec pull_spec);
      running_record (skopeo_cmd iib_skopeo_timeout (full_pull_spec pull_spec))]),
    [])).
Proof.
  intros Hrun Hcls. rewrite get_image_labels_run. cbn [fst snd app].
  assert (Hcall : skopeo_inspect_function iib_skopeo_timeout
                    (λ cmd params, counted (subprocess_run cmd params)) json_loads
                    [full_pull_spec pull_spec]
                    ((os, 0%nat), [labels_record (full_pull_spec pull_spec)]) =
                  (Raise e,
                   ((os', 1%nat),
                    [labels_record (full_pull_spec pull_spec);
                     running_record (skopeo_cmd iib_skopeo_timeout
                                                (full_pull_spec pull_spec))]))).
  { rewrite skopeo_inspect_function_run.
    destruct Hrun as [Hrun | (response & Hrun & Hcode & Hjson)].
    - unfold mbind, M_bind, bind.
      now rewrite (run_cmd_raises subprocess_run _ None _
                     ((os, 0%nat), [labels_record (full_pull_spec pull_spec)])
                     e os' Hrun).
    - rewrite (bind_Return _ _ _ _ _
                 (run_cmd_zero subprocess_run _ None _
                  ((os, 0%nat), [labels_record (full_pull_spec pull_spec)])
                  response os' Hrun Hcode)).
      unfold library_call. now rewrite Hjson. }
  unfold skopeo_inspect, inner. unfold mbind, M_bind, bind.
  rewrite inner_loop_step. cbn [fst snd]. now rewrite Hcall, Hcls.
Qed.

Lemma get_image_labels_not_retried_witness :
  get_image_labels 3 "30s"
                   (λ cmd params,
                      counted (λ os, (Return (mkCompletedProcess 0 "<html>" ""), os)))
                   loads_example "quay.io/ns/bundle:v1" (((tt, 0%nat), []), []) =
  (Raise (Exn ValueError "Expecting value: line 1 column 1 (char 0)"),
   (((tt, 1%nat),
     [labels_record "docker://quay.io/ns/bundle:v1";
      running_record (skopeo_cmd "30s" "docker://quay.io/ns/bundle:v1")]),
    [])).
Proof.
  apply (get_image_labels_not_retried 3 "30s"
           (λ _ _ os, (Return (mkCompletedProcess 0 "<html>" ""), os)) loads_example
           "quay.io/ns/bundle:v1" tt tt).
  - right. eexists. split_and!; reflexivity.
  - reflexivity.
Defined.
